(** * Response.cpp: streamed, ranged and decorated HTTP responses

    A shallow embedding of [src/cpp/core/http/Response.cpp]: the two
    pull-based producers ([FileStreamResponse] and
    [ZlibCompressionStreamResponse]), the byte-range selection of
    [Response::setRangeableFile], and the header/cookie helpers of
    [Response].  All definitions come first, the lemmas about them follow. *)

From Stdlib Require Import ZArith String Ascii Bool Arith Lia.
From Stdlib Require Import Strings.Byte DecimalString List.
Import ListNotations.

Set Implicit Arguments.

(* ================================================================== *)
(** * Part I: the model                                                 *)
(* ================================================================== *)

(** ** Stream buffers *)

(** [StreamBuffer]: a heap buffer together with the number of valid bytes. *)
Record StreamBuffer : Type := mkStreamBuffer {
  data : list byte;
  size : nat
}.

(** [makePaddingBuffer]: [numPadding] copies of the character ['0']. *)
Definition makePaddingBuffer (numPadding : nat) : StreamBuffer :=
  mkStreamBuffer (repeat x30 numPadding) numPadding.

(** ** FileStreamResponse *)

(** Modelled from the spec: [Error] and [FilePath] (Error.hpp and
    FilePath.hpp are not among the sources).  An error carries a code and a
    message; a file path is a name, and what open-for-read gives for it is
    recorded next to it: the bytes of the stream, or the error of the failed
    open. *)
Record Error : Type := mkError {
  errCode : Z;
  getMessage : string
}.

Record FilePath : Type := mkFilePath {
  getAbsolutePath : string;
  openForRead : Error + list byte
}.

(** Chunk sizes and byte counts are natural numbers: the 64-bit counters of
    the source cannot wrap around on the length of a file. *)
Record FileStreamResponse : Type := mkFileStream {
  fs_file_ : FilePath;
  (** the opened [std::istream]; [None] until [initialize] has succeeded *)
  fs_fileStream_ : option (list byte);
  fs_bufferSize_ : nat;
  fs_padding_ : bool;
  fs_totalRead_ : nat
}.

(** The constructor. *)
Definition newFileStreamResponse (file : FilePath) (bufferSize : nat)
    (padding : bool) : FileStreamResponse :=
  mkFileStream file None bufferSize padding 0.

(** [FileStreamResponse::initialize]: the error of the open, if any. *)
Definition fs_initialize (s : FileStreamResponse)
    : option Error * FileStreamResponse :=
  match openForRead (fs_file_ s) with
  | inl e => (Some e, s)
  | inr bytes =>
      (None, mkFileStream (fs_file_ s) (Some bytes) (fs_bufferSize_ s)
                          (fs_padding_ s) (fs_totalRead_ s))
  end.

(** [fileStream_->read(buffer, bufferSize_)] at stream position [pos]: the
    stream is always positioned at [totalRead_] by the [seekg] of the
    previous call. *)
Definition stream_read (bytes : list byte) (pos n : nat) : list byte :=
  firstn n (skipn pos bytes).

(** [FileStreamResponse::nextBuffer].  A stream that was never opened is a
    null pointer in the source; the model reads nothing from it. *)
Definition fs_nextBuffer (s : FileStreamResponse)
    : option StreamBuffer * FileStreamResponse :=
  let bytes := match fs_fileStream_ s with Some b => b | None => [] end in
  let buffer := stream_read bytes (fs_totalRead_ s) (fs_bufferSize_ s) in
  let read := length buffer in
  let totalRead := fs_totalRead_ s + read in
  let s' := mkFileStream (fs_file_ s) (fs_fileStream_ s) (fs_bufferSize_ s)
                         (fs_padding_ s) totalRead in
  if Nat.eqb read 0 then
    if (totalRead <? 1024) && fs_padding_ s
    then (Some (makePaddingBuffer (1024 - totalRead)), s')
    else (None, s')
  else (Some (mkStreamBuffer buffer read), s').

(** [n] consecutive pulls, oldest result first. *)
Fixpoint fs_pulls (n : nat) (s : FileStreamResponse)
    : list (option StreamBuffer) * FileStreamResponse :=
  match n with
  | O => ([], s)
  | S k =>
      let '(r, s1) := fs_nextBuffer s in
      let '(rs, s2) := fs_pulls k s1 in
      (r :: rs, s2)
  end.

(** Bytes delivered by a list of pull results. *)
Definition delivered (rs : list (option StreamBuffer)) : nat :=
  fold_right (fun r acc => match r with Some b => size b + acc | None => acc end)
             0 rs.

(** ** The compressor (zlib) as a collaborator *)

Inductive CompressionType : Type := Gzip | Deflate.

Definition kGzipWindow : Z := 31.
Definition kDeflateWindow : Z := 15.
Definition kDefaultMemoryUsage : Z := 8.
Definition Z_BEST_COMPRESSION : Z := 9.

(** The flush arguments and the return codes of zlib that the source uses. *)
Inductive FlushMode : Type := Z_NO_FLUSH | Z_FINISH.

Inductive ZCode : Type :=
  | Z_OK | Z_STREAM_END | Z_STREAM_ERROR | Z_BUF_ERROR | Z_MEM_ERROR
  | Z_VERSION_ERROR.

Definition zcode_value (c : ZCode) : Z :=
  match c with
  | Z_OK => 0 | Z_STREAM_END => 1 | Z_STREAM_ERROR => -2
  | Z_BUF_ERROR => -5 | Z_MEM_ERROR => -4 | Z_VERSION_ERROR => -6
  end.

Definition zcode_eqb (a b : ZCode) : bool :=
  Z.eqb (zcode_value a) (zcode_value b).

(** One call of the library on its internal state: the input bytes visible
    at [next_in], the room at [next_out] and the flush mode go in; the return
    code, the new internal state, the number of input bytes consumed and the
    output bytes come out.  [c_inflate] is the matching decompressor, used
    only to state the round trip. *)
Record Compressor : Type := mkCompressor {
  cstate : Type;
  c_deflateInit2 : Z -> Z -> Z -> ZCode * option cstate;
  c_deflate : cstate -> list byte -> nat -> FlushMode
              -> ZCode * cstate * nat * list byte;
  c_inflate : Z -> list byte -> option (list byte)
}.

Section Zlib.

Variable C : Compressor.

(** [z_stream]: [state] is [Z_NULL] until [deflateInit2] succeeds; [next_in]
    is the offset of the read pointer inside the current input buffer;
    [next_out] holds what has been written to the current output buffer. *)
Record z_stream : Type := mk_z_stream {
  state : option (cstate C);
  next_in : nat;
  avail_in : nat;
  next_out : list byte;
  avail_out : nat
}.

(** [deflate(strm, flush)], reading through [next_in] from the memory [mem] of
    the input buffer.  A stream without state is reported as
    [Z_STREAM_ERROR] and left untouched; the library never consumes more than
    [avail_in] nor writes more than [avail_out]. *)
Definition deflate (z : z_stream) (mem : list byte) (flush : FlushMode)
    : ZCode * z_stream :=
  match state z with
  | None => (Z_STREAM_ERROR, z)
  | Some st =>
      let input := firstn (avail_in z) (skipn (next_in z) mem) in
      let '(res, st', consumed, out) := c_deflate C st input (avail_out z) flush in
      let consumed := Nat.min consumed (length input) in
      let out := firstn (avail_out z) out in
      (res, mk_z_stream (Some st') (next_in z + consumed)
                        (avail_in z - consumed) (next_out z ++ out)
                        (avail_out z - length out))
  end.

(** What two of the answers of zlib say about the stream.
    [Z_STREAM_ERROR] is the answer for a stream whose state is absent or no
    longer consistent; the library touches nothing then, so that the answer
    stays the same on every later call: such a state is [broken].  After
    [Z_STREAM_END] the stream has ended: a further call that asks to finish
    reports the end again and writes nothing. *)
Definition broken (st : cstate C) : Prop :=
  forall inp room flush,
    c_deflate C st inp room flush = (Z_STREAM_ERROR, st, 0, []).

Definition stream_broken (z : z_stream) : Prop :=
  match state z with
  | None => True
  | Some st => broken st
  end.

Definition stream_ended (st : cstate C) : Prop :=
  forall room,
    0 < room -> c_deflate C st [] room Z_FINISH = (Z_STREAM_END, st, 0, []).

(** ** ZlibCompressionStreamResponse *)

Record ZlibCompressionStreamResponse : Type := mkZlib {
  fileStream_ : FileStreamResponse;
  bufferSize_ : nat;
  compressionType_ : CompressionType;
  zStream_ : z_stream;
  fileBuffer_ : option StreamBuffer;
  finished_ : bool
}.

Definition set_fileStream (s : ZlibCompressionStreamResponse) fs :=
  mkZlib fs (bufferSize_ s) (compressionType_ s) (zStream_ s) (fileBuffer_ s)
         (finished_ s).
Definition set_zStream (s : ZlibCompressionStreamResponse) z :=
  mkZlib (fileStream_ s) (bufferSize_ s) (compressionType_ s) z (fileBuffer_ s)
         (finished_ s).
Definition set_fileBuffer (s : ZlibCompressionStreamResponse) fb :=
  mkZlib (fileStream_ s) (bufferSize_ s) (compressionType_ s) (zStream_ s) fb
         (finished_ s).
Definition set_finished (s : ZlibCompressionStreamResponse) b :=
  mkZlib (fileStream_ s) (bufferSize_ s) (compressionType_ s) (zStream_ s)
         (fileBuffer_ s) b.

Definition set_avail_in (z : z_stream) n :=
  mk_z_stream (state z) (next_in z) n (next_out z) (avail_out z).
Definition set_next_in (z : z_stream) n :=
  mk_z_stream (state z) n (avail_in z) (next_out z) (avail_out z).
Definition set_output (z : z_stream) room :=
  mk_z_stream (state z) (next_in z) (avail_in z) [] room.

(** The constructor: the stream pointer is null until [initialize]; the model
    holds the value-initialised [z_stream] that [initialize] installs. *)
Definition newZlibCompressionStreamResponse (fileStream : FileStreamResponse)
    (bufferSize : nat) (compressionType : CompressionType)
    : ZlibCompressionStreamResponse :=
  mkZlib fileStream bufferSize compressionType (mk_z_stream None 0 0 [] 0)
         None false.

Definition windowBits (t : CompressionType) : Z :=
  match t with Gzip => kGzipWindow | Deflate => kDeflateWindow end.

(** [systemError(res, "ZLib initialization error", ERROR_LOCATION)]. *)
Variable systemError : Z -> string -> Error.

(** [ZlibCompressionStreamResponse::initialize]. *)
Definition zl_initialize (s : ZlibCompressionStreamResponse)
    : option Error * ZlibCompressionStreamResponse :=
  let '(error, fs) := fs_initialize (fileStream_ s) in
  match error with
  | Some e => (Some e, set_fileStream s fs)
  | None =>
      let '(res, st) :=
        c_deflateInit2 C Z_BEST_COMPRESSION (windowBits (compressionType_ s))
                       kDefaultMemoryUsage in
      let s' := set_zStream (set_fileStream s fs) (mk_z_stream st 0 0 [] 0) in
      if zcode_eqb res Z_OK then (None, s')
      else (Some (systemError (zcode_value res) "ZLib initialization error"), s')
  end.

(** What a pull does, in order. *)
Inductive Event : Type :=
  | EvFetch (r : option StreamBuffer)
  | EvDeflate (input : list byte) (flush : FlushMode) (res : ZCode)
  | EvLogError (msg : string).

(** One turn of the [do ... while] body. *)
Inductive Feed : Type :=
  | Aborted (s : ZlibCompressionStreamResponse) (evs : list Event)
  | Fed (s : ZlibCompressionStreamResponse) (flush : FlushMode) (res : ZCode)
        (written : nat) (evs : list Event).

Definition buffer_memory (fb : option StreamBuffer) : list byte :=
  match fb with Some b => data b | None => [] end.

Definition deflate_input (z : z_stream) (fb : option StreamBuffer) : list byte :=
  firstn (avail_in z) (skipn (next_in z) (buffer_memory fb)).

(** The first half of the loop body: the input buffer of this turn, the
    state with zlib told about it, the flush mode and what was done. *)
Definition zl_input (s : ZlibCompressionStreamResponse) (flush : FlushMode)
    : option StreamBuffer * ZlibCompressionStreamResponse * FlushMode
      * list Event :=
  match fileBuffer_ s with
  | Some fb =>
      (* reuse: avail_in and next_in are as zlib left them *)
      (Some fb, set_fileBuffer s None, flush, [])
  | None =>
      let '(r, fs) := fs_nextBuffer (fileStream_ s) in
      let s0 := set_fileStream s fs in
      match r with
      | None =>
          (None, set_zStream s0 (set_avail_in (zStream_ s0) 0), Z_FINISH,
           [EvFetch None])
      | Some fb =>
          (Some fb,
           set_zStream s0 (set_next_in (set_avail_in (zStream_ s0) (size fb)) 0),
           flush, [EvFetch (Some fb)])
      end
  end.

(** The loop body: choose the input, compress, keep what was not consumed. *)
Definition zl_feed (s : ZlibCompressionStreamResponse) (flush : FlushMode)
    : Feed :=
  let '(fileBuffer, s1, flush1, evs) := zl_input s flush in
  let input := deflate_input (zStream_ s1) fileBuffer in
  let '(res, z) := deflate (zStream_ s1) (buffer_memory fileBuffer) flush1 in
  let s2 := set_zStream s1 z in
  if zcode_eqb res Z_STREAM_ERROR then
    Aborted s2
      (evs ++ [EvDeflate input flush1 res;
               EvLogError ("Could not compress file "
                           ++ getAbsolutePath (fs_file_ (fileStream_ s2))
                           ++ " - zlib stream error")%string])
  else
    let written := bufferSize_ s2 - avail_out z in
    let s3 := if Nat.eqb (avail_in z) 0 then s2 else set_fileBuffer s2 fileBuffer in
    Fed s3 flush1 res written (evs ++ [EvDeflate input flush1 res]).

Definition feed_state_of (f : Feed) : ZlibCompressionStreamResponse :=
  match f with Aborted s _ => s | Fed s _ _ _ _ => s end.

(** The result of one [nextBuffer]. *)
Record Pull : Type := mkPull {
  p_buffer : option StreamBuffer;
  p_state : ZlibCompressionStreamResponse;
  p_trace : list Event
}.

(** The loop; [None] when [fuel] turns did not reach an exit. *)
Fixpoint zl_loop (fuel : nat) (s : ZlibCompressionStreamResponse)
    (flush : FlushMode) (trace : list Event) : option Pull :=
  match fuel with
  | O => None
  | S k =>
      match zl_feed s flush with
      | Aborted s' evs => Some (mkPull None s' (trace ++ evs))
      | Fed s' flush' res written evs =>
          if Nat.eqb written 0 then zl_loop k s' flush' (trace ++ evs)
          else
            let s'' := if zcode_eqb res Z_STREAM_END
                       then set_finished s' true else s' in
            Some (mkPull (Some (mkStreamBuffer (next_out (zStream_ s')) written))
                         s'' (trace ++ evs))
      end
  end.

(** The fresh output buffer of a pull. *)
Definition new_output (s : ZlibCompressionStreamResponse)
    : ZlibCompressionStreamResponse :=
  set_zStream s (set_output (zStream_ s) (bufferSize_ s)).

(** [ZlibCompressionStreamResponse::nextBuffer]. *)
Definition zl_nextBuffer (fuel : nat) (s : ZlibCompressionStreamResponse)
    : option Pull :=
  if finished_ s then Some (mkPull None s [])
  else zl_loop fuel (new_output s) Z_NO_FLUSH [].

(** [n] consecutive pulls: the results, oldest first, and the final state. *)
Fixpoint zl_pulls (fuel n : nat) (s : ZlibCompressionStreamResponse)
    : option (list (option StreamBuffer) * ZlibCompressionStreamResponse) :=
  match n with
  | O => Some ([], s)
  | S k =>
      match zl_nextBuffer fuel s with
      | None => None
      | Some p =>
          match zl_pulls fuel k (p_state p) with
          | None => None
          | Some (rs, s') => Some (p_buffer p :: rs, s')
          end
      end
  end.

End Zlib.

(** The bytes of the buffers of a run, in pull order. *)
Definition payload (bufs : list StreamBuffer) : list byte :=
  concat (map (fun b => firstn (size b) (data b)) bufs).

(** ** Concrete compressors

    [Stored] frames its input between a header and a trailer and copies it
    through a pending queue.  It follows zlib's protocol: no input after a
    finish; a call that asks to finish first hands out what is pending, and
    when that fills the output buffer it answers [Z_OK] and does nothing
    else, also when nothing is then left to write; [Z_STREAM_END] is the
    answer once the queue is empty, with the last bytes or, after such a
    call, with none. *)

Module Stored.

Inductive phase : Type := Open | Closing | Closed.

Record st : Type := mk { pend : list byte; ph : phase }.

Definition header (w : Z) : list byte :=
  if Z.eqb w kGzipWindow then [x1f; x8b] else [x78; xda].

Definition trailer : list byte := [x00; xff].

Definition init (level w mem : Z) : ZCode * option st :=
  (Z_OK, Some (mk (header w) Open)).

Definition step (s : st) (inp : list byte) (room : nat) (flush : FlushMode)
    : ZCode * st * nat * list byte :=
  match ph s, flush with
  | Open, Z_NO_FLUSH =>
      let out := firstn room (pend s ++ inp) in
      match out with
      | [] => (Z_BUF_ERROR, s, 0, [])
      | _ => (Z_OK, mk (skipn room (pend s)) Open,
              length out - length (pend s), out)
      end
  | Closed, Z_FINISH => (Z_STREAM_END, s, 0, [])
  | _, Z_FINISH =>
      match room with
      | O => (Z_BUF_ERROR, s, 0, [])
      | _ =>
          if Nat.leb room (length (pend s)) then
            (* what is pending fills the output buffer: the call hands it
               out and does nothing else *)
            let rest := skipn room (pend s) in
            (Z_OK,
             mk rest match ph s, rest with
                     | Closing, [] => Closed
                     | p, _ => p
                     end,
             0, firstn room (pend s))
          else
            let all := match ph s with
                       | Open => pend s ++ inp ++ trailer
                       | _ => pend s
                       end in
            let k := match ph s with Open => length inp | _ => 0 end in
            match skipn room all with
            | [] => (Z_STREAM_END, mk [] Closed, k, firstn room all)
            | rest => (Z_OK, mk rest Closing, k, firstn room all)
            end
      end
  | _, Z_NO_FLUSH => (Z_STREAM_ERROR, s, 0, [])
  end.

Fixpoint bytes_eqb (a b : list byte) : bool :=
  match a, b with
  | [], [] => true
  | x :: a', y :: b' => Byte.eqb x y && bytes_eqb a' b'
  | _, _ => false
  end.

Fixpoint strip_prefix (p l : list byte) : option (list byte) :=
  match p, l with
  | [], _ => Some l
  | x :: p', y :: l' => if Byte.eqb x y then strip_prefix p' l' else None
  | _ :: _, [] => None
  end.

Definition inflate (w : Z) (l : list byte) : option (list byte) :=
  match strip_prefix (header w) l with
  | None => None
  | Some r =>
      let n := length r - length trailer in
      if bytes_eqb (skipn n r) trailer then Some (firstn n r) else None
  end.

Definition codec : Compressor := mkCompressor init step inflate.

End Stored.

(** A library whose [deflateInit2] runs out of memory. *)
Module NoMemory.

Definition init (level w mem : Z) : ZCode * option unit := (Z_MEM_ERROR, None).

Definition step (s : unit) (inp : list byte) (room : nat) (flush : FlushMode)
    : ZCode * unit * nat * list byte :=
  (Z_STREAM_ERROR, s, 0, []).

Definition codec : Compressor :=
  mkCompressor init step (fun _ _ => None).

End NoMemory.

(** ** What the round trip asks of a compressor

    [Rep st i o fin]: the internal state [st] has consumed exactly [i], has
    emitted exactly [o], and has ([fin]) or has not yet been asked to finish.
    [owed] bounds the output still to come; [expansion] bounds what one input
    byte can add to it.

    A call that is given input and room answers [Z_OK], and takes all the
    input unless it fills the output buffer.  A call that asks to finish
    answers [Z_OK] only when it has filled the output buffer, and
    [Z_STREAM_END] when everything is out: what was emitted then inflates to
    what was consumed and the stream has ended.  The first such call always
    writes something; a later one may find nothing left to write, because
    the call before it filled the buffer with the last bytes, and then
    answers [Z_STREAM_END] with no output. *)
Record DeflateContract (C : Compressor) (w : Z) : Type := mkContract {
  Rep : cstate C -> list byte -> list byte -> bool -> Prop;
  owed : cstate C -> nat;
  expansion : nat;
  rep_init : forall level mem res o,
    c_deflateInit2 C level w mem = (res, o) -> res = Z_OK ->
    exists st, o = Some st /\ Rep st [] [] false;
  rep_feed : forall st i o inp room res st' k out,
    Rep st i o false -> inp <> [] -> 0 < room ->
    c_deflate C st inp room Z_NO_FLUSH = (res, st', k, out) ->
    res = Z_OK /\ k <= length inp /\ length out <= room /\
    (length out < room -> k = length inp) /\
    Rep st' (i ++ firstn k inp) (o ++ out) false /\
    owed st' + length out <= owed st + expansion * k;
  rep_finish : forall st i o fin room res st' k out,
    Rep st i o fin -> 0 < room ->
    c_deflate C st [] room Z_FINISH = (res, st', k, out) ->
    length out <= room /\
    owed st' + length out <= owed st /\
    (fin = false -> 0 < length out) /\
    ((res = Z_OK /\ length out = room /\ Rep st' i (o ++ out) true) \/
     (res = Z_STREAM_END /\ c_inflate C w (o ++ out) = Some i /\
      @stream_ended C st'))
}.

(** ** Headers *)

Record Header : Type := mkHeader { name : string; value : string }.

Definition Headers : Type := list Header.

(** Modelled from the spec: the header operations of [Message] (Message.hpp
    is not among the sources).  The header list is ordered and may hold a
    name several times; adding appends ([push_header]), setting overwrites the
    first entry of that name or appends ([put_header]), removing drops every
    entry of that name ([erase_header]), [headerValue] reads the first entry
    and is empty when there is none. *)
Definition push_header (n v : string) (hs : Headers) : Headers :=
  hs ++ [mkHeader n v].

Fixpoint containsHeader (n : string) (hs : Headers) : bool :=
  match hs with
  | [] => false
  | h :: t => String.eqb (name h) n || containsHeader n t
  end.

Fixpoint replace_header (n v : string) (hs : Headers) : Headers :=
  match hs with
  | [] => []
  | h :: t =>
      if String.eqb (name h) n then mkHeader n v :: t
      else h :: replace_header n v t
  end.

Definition put_header (n v : string) (hs : Headers) : Headers :=
  if containsHeader n hs then replace_header n v hs else push_header n v hs.

Definition erase_header (n : string) (hs : Headers) : Headers :=
  filter (fun h => negb (String.eqb (name h) n)) hs.

Fixpoint headerValue (n : string) (hs : Headers) : string :=
  match hs with
  | [] => EmptyString
  | h :: t => if String.eqb (name h) n then value h else headerValue n t
  end.

(** Unsigned decimal rendering, as [boost::format] and the stream inserters
    print a [size_t]. *)
Definition decimal (z : Z) : string :=
  NilZero.string_of_uint (N.to_uint (Z.to_N z)).

(** ** Requests and cookies *)

(** Modelled from the spec: [Request] (Request.hpp is not among the
    sources): header lookup by name and the [acceptsEncoding] negotiation,
    which is all that is read of a request here. *)
Record Request : Type := mkRequest {
  requestHeaders : Headers;
  acceptsEncoding : string -> bool
}.

Inductive SameSite : Type :=
  | SameSiteUndefined | SameSiteNone | SameSiteLax | SameSiteStrict.

(** Modelled from the spec: [Cookie] (Cookie.hpp is not among the sources), a
    name, a value and attributes, SameSite among them. *)
Record Cookie : Type := mkCookie {
  cookieName : string;
  cookieValue : string;
  cookieDomain : string;
  cookiePath : string;
  cookieExpires : string;
  cookieSameSite : SameSite;
  cookieHttpOnly : bool;
  cookieSecure : bool
}.

Definition setName (c : Cookie) (n : string) : Cookie :=
  mkCookie n (cookieValue c) (cookieDomain c) (cookiePath c) (cookieExpires c)
           (cookieSameSite c) (cookieHttpOnly c) (cookieSecure c).

Definition setSameSite (c : Cookie) (s : SameSite) : Cookie :=
  mkCookie (cookieName c) (cookieValue c) (cookieDomain c) (cookiePath c)
           (cookieExpires c) s (cookieHttpOnly c) (cookieSecure c).

(** Modelled from the spec: the encoding and transfer tokens of Util.hpp. *)
Definition kGzipEncoding : string := "gzip".
Definition kDeflateEncoding : string := "deflate".
Definition kTransferEncoding : string := "Transfer-Encoding".
Definition kChunkedTransferEncoding : string := "chunked".

(** Modelled from the spec: the status codes of Response.hpp. *)
Definition PartialContent : Z := 206.
Definition RangeNotSatisfiable : Z := 416.
Definition InternalServerError : Z := 500.
Definition Ok : Z := 200.

(** ** Strings as the source uses them *)

Definition is_space (c : ascii) : bool :=
  let n := nat_of_ascii c in
  Nat.eqb n 32 || (Nat.leb 9 n && Nat.leb n 13).

Fixpoint trim_left (l : list ascii) : list ascii :=
  match l with
  | c :: t => if is_space c then trim_left t else l
  | [] => []
  end.

(** [boost::algorithm::trim_copy]. *)
Definition trim_copy (s : string) : string :=
  string_of_list_ascii
    (rev (trim_left (rev (trim_left (list_ascii_of_string s))))).

(** [s.find_first_of(' ') == std::string::npos]. *)
Fixpoint has_no_space (s : string) : bool :=
  match s with
  | EmptyString => true
  | String c t => negb (Ascii.eqb c " ") && has_no_space t
  end.

Definition is_empty (s : string) : bool :=
  match s with EmptyString => true | _ => false end.

(** [size_t] arithmetic. *)
Definition size_max : Z := 2 ^ 64.
Definition wrap (z : Z) : Z := z mod size_max.
Definition kNone : Z := wrap (-1).

Definition is_digit (c : ascii) : bool :=
  let n := nat_of_ascii c in Nat.leb 48 n && Nat.leb n 57.

Fixpoint digits_value (acc : Z) (s : string) : Z :=
  match s with
  | EmptyString => acc
  | String c t => digits_value (10 * acc + Z.of_nat (nat_of_ascii c - 48)) t
  end.

Fixpoint all_digits (s : string) : bool :=
  match s with
  | EmptyString => true
  | String c t => is_digit c && all_digits t
  end.

(** Modelled from the spec: [safe_convert::stringTo<size_t>] (SafeConvert.hpp
    is not among the sources): the number the digits spell, or the default
    when there are no digits or the number does not fit a [size_t]. *)
Definition stringTo_size_t (s : string) (dflt : Z) : Z :=
  if is_empty s || negb (all_digits s) then dflt
  else
    let v := digits_value 0 s in
    if Z.ltb v size_max then v else dflt.

(** Longest prefix of digits, and the rest. *)
Fixpoint span_digits (s : string) : string * string :=
  match s with
  | EmptyString => (EmptyString, EmptyString)
  | String c t =>
      if is_digit c
      then let '(d, r) := span_digits t in (String c d, r)
      else (EmptyString, s)
  end.

Fixpoint strip_string_prefix (p s : string) : option string :=
  match p, s with
  | EmptyString, _ => Some s
  | String a p', String b s' =>
      if Ascii.eqb a b then strip_string_prefix p' s' else None
  | String _ _, EmptyString => None
  end.

(** Modelled from the spec: [regex_utils::match] (RegexUtils.hpp is not among
    the sources) on the one pattern it is given here: the text bytes=, a
    group of zero or more digits, a dash, a second group of zero or more
    digits.  The whole string has to match; the two groups are returned. *)
Definition match_range (range : string) : option (string * string) :=
  match strip_string_prefix "bytes=" range with
  | None => None
  | Some r =>
      let '(g1, r1) := span_digits r in
      match r1 with
      | String c r2 =>
          if Ascii.eqb c "-" then
            let '(g2, r3) := span_digits r2 in
            if is_empty r3 then Some (g1, g2) else None
          else None
      | EmptyString => None
      end
  end.

(** [std::string::substr(pos, count)]: [None] stands for the
    [std::out_of_range] it throws when [pos] is past the end. *)
Definition substr (s : string) (pos count : Z) : option string :=
  if Z.ltb (Z.of_nat (String.length s)) pos then None
  else Some (String.substring (Z.to_nat pos) (Z.to_nat count) s).

(** [gsl::narrow_cast<int>]. *)
Definition narrow_cast_int (z : Z) : Z :=
  (z + 2 ^ 31) mod 2 ^ 32 - 2 ^ 31.

(** ** Response *)

Section Response.

Variable C : Compressor.
Variable systemError : Z -> string -> Error.

(** The producers behind [StreamResponse]. *)
Inductive StreamResponse : Type :=
  | FileStream (s : FileStreamResponse)
  | ZlibStream (s : ZlibCompressionStreamResponse C).

Definition sr_initialize (p : StreamResponse) : option Error * StreamResponse :=
  match p with
  | FileStream s => let '(e, s') := fs_initialize s in (e, FileStream s')
  | ZlibStream s =>
      let '(e, s') := zl_initialize systemError s in (e, ZlibStream s')
  end.

Record Response : Type := mkResponse {
  statusCode_ : Z;
  headers_ : Headers;
  body_ : string;
  streamResponse_ : option StreamResponse
}.

Definition setStatusCode (code : Z) (r : Response) : Response :=
  mkResponse code (headers_ r) (body_ r) (streamResponse_ r).
Definition with_headers (f : Headers -> Headers) (r : Response) : Response :=
  mkResponse (statusCode_ r) (f (headers_ r)) (body_ r) (streamResponse_ r).
Definition with_body (b : string) (r : Response) : Response :=
  mkResponse (statusCode_ r) (headers_ r) b (streamResponse_ r).
Definition with_streamResponse (p : option StreamResponse) (r : Response)
    : Response :=
  mkResponse (statusCode_ r) (headers_ r) (body_ r) p.

Definition addHeader (n v : string) : Response -> Response :=
  with_headers (push_header n v).
Definition setHeader (n v : string) : Response -> Response :=
  with_headers (put_header n v).
Definition removeHeader (n : string) : Response -> Response :=
  with_headers (erase_header n).

(** Modelled from the spec: the content headers of [Message]. *)
Definition setContentType (t : string) : Response -> Response :=
  setHeader "Content-Type" t.
Definition setContentLength (n : Z) : Response -> Response :=
  setHeader "Content-Length" (decimal n).

Definition setContentEncoding (encoding : string) : Response -> Response :=
  setHeader "Content-Encoding" encoding.

(** Collaborators that are called but not defined in Response.cpp. *)
Variable htmlEscape : string -> string.
Variable cookieHeaderValue : Cookie -> string.
Variable kLegacyCookieSuffix : string.
Variable getMimeContentType : FilePath -> string -> string.
Variable usePadding : Request -> FilePath -> bool.
(** The stream overload of [setBody] behind [Response::setBody(string)]. *)
Variable setBody : string -> Response -> Response.

(** [Response::setFrameOptionHeaders]. *)
Definition setFrameOptionHeaders (options : string) (r : Response) : Response :=
  let '(option, r1) :=
    if is_empty options || String.eqb options "none" then ("DENY"%string, r)
    else if String.eqb options "same" then ("SAMEORIGIN"%string, r)
    else if negb (String.eqb options "any") then
      (("ALLOW-FROM " ++ options)%string,
       setHeader "Content-Security-Policy"
                 ("frame-ancestors " ++ options)%string r)
    else (EmptyString, r) in
  if negb (is_empty option) && has_no_space (trim_copy options)
  then setHeader "X-Frame-Options" option r1
  else r1.

(** [Response::addCookie]. *)
Definition addCookie (cookie : Cookie) (r : Response) : Response :=
  let r1 := addHeader "Set-Cookie" (cookieHeaderValue cookie) r in
  match cookieSameSite cookie with
  | SameSiteNone =>
      let legacyCookie :=
        setSameSite
          (setName cookie (cookieName cookie ++ kLegacyCookieSuffix)%string)
          SameSiteUndefined in
      addHeader "Set-Cookie" (cookieHeaderValue legacyCookie) r1
  | _ => r1
  end.

(** [Response::setRangeableFile(contents, mimeType, request)]; [None] when
    [substr] throws. *)
Definition setRangeableFile (contents mimeType : string) (request : Request)
    (r : Response) : option Response :=
  let r := setContentType mimeType r in
  let range := headerValue "Range" (requestHeaders request) in
  let total := Z.of_nat (String.length contents) in
  match match_range range with
  | Some (m1, m2) =>
      let r := setStatusCode PartialContent r in
      let begin0 := stringTo_size_t m1 kNone in
      let end0 := stringTo_size_t m2 kNone in
      let end1 := if Z.eqb end0 kNone then wrap (total - 1) else end0 in
      let '(begin_, end_) :=
        if Z.eqb begin0 kNone then (wrap (total - end1), wrap (total - 1))
        else (begin0, end1) in
      let r := addHeader "Accept-Ranges" "bytes" r in
      let r := addHeader "Content-Range"
                 ("bytes " ++ decimal begin_ ++ "-" ++ decimal end_ ++ "/"
                  ++ decimal total)%string r in
      let r := if acceptsEncoding request kGzipEncoding
               then setContentEncoding kGzipEncoding r else r in
      if Z.eqb begin_ 0 && Z.eqb end_ (wrap (total - 1))
      then Some (setBody contents r)
      else
        match substr contents begin_ (wrap (end_ - begin_ + 1)) with
        | Some part => Some (setBody part r)
        | None => None
        end
  | None =>
      let r := setStatusCode RangeNotSatisfiable r in
      Some (addHeader "Content-Range" ("bytes */" ++ decimal total)%string r)
  end.

(** The 206 response for the range [begin_ .. end_] of [total] bytes, as it
    stands when the body is about to be set. *)
Definition partialContent (mimeType : string) (request : Request)
    (begin_ end_ total : Z) (r : Response) : Response :=
  let r1 :=
    addHeader "Content-Range"
      ("bytes " ++ decimal begin_ ++ "-" ++ decimal end_ ++ "/"
       ++ decimal total)%string
      (addHeader "Accept-Ranges" "bytes"
         (setStatusCode PartialContent (setContentType mimeType r))) in
  if acceptsEncoding request kGzipEncoding
  then setContentEncoding kGzipEncoding r1 else r1.

(** [Response::setBodyUnencoded]. *)
Definition setBodyUnencoded (body : string) (r : Response) : Response :=
  let r := removeHeader "Content-Encoding" r in
  let r := with_body body r in
  setContentLength (narrow_cast_int (Z.of_nat (String.length (body_ r)))) r.

(** [Response::removeCachingHeaders]. *)
Definition removeCachingHeaders (r : Response) : Response :=
  removeHeader "ETag"
    (removeHeader "Last-Modified"
      (removeHeader "Cache-Control"
        (removeHeader "Pragma" (removeHeader "Expires" r)))).

(** [Response::setError(int, const std::string&)]. *)
Definition setError (statusCode : Z) (message : string) (r : Response)
    : Response :=
  let r := setStatusCode statusCode r in
  let r := removeCachingHeaders r in
  let r := setContentType "text/html" r in
  setBodyUnencoded (htmlEscape message) r.

(** [Response::setStreamFile], as built where zlib is available. *)
Definition setStreamFile (filePath : FilePath) (request : Request)
    (buffSize : nat) (r : Response) : Response :=
  let contentType := getMimeContentType filePath "application/octet-stream" in
  let r := setContentType contentType r in
  let compress :=
    negb (String.eqb contentType "application/x-gzip") &&
    negb (String.eqb contentType "application/zip") &&
    negb (String.eqb contentType "application/x-bzip") &&
    negb (String.eqb contentType "application/x-bzip2") &&
    negb (String.eqb contentType "application/x-tar") in
  let '(r, compressionType) :=
    if acceptsEncoding request kGzipEncoding && compress
    then (setContentEncoding kGzipEncoding r, Some Gzip)
    else if acceptsEncoding request kDeflateEncoding && compress
    then (setContentEncoding kDeflateEncoding r, Some Deflate)
    else (r, None) in
  let r := setHeader kTransferEncoding kChunkedTransferEncoding r in
  let fileStream :=
    newFileStreamResponse filePath buffSize (usePadding request filePath) in
  let producer :=
    match compressionType with
    | Some t => ZlibStream (newZlibCompressionStreamResponse C fileStream buffSize t)
    | None => FileStream fileStream
    end in
  let '(error, producer) := sr_initialize producer in
  let r := with_streamResponse (Some producer) r in
  match error with
  | Some e => setError InternalServerError (getMessage e) r
  | None => r
  end.

End Response.

(** The invariant of a padded producer on a short file: it can only be in
    front of the end of the file, or at it. *)
Definition padded_short (s : FileStreamResponse) : Prop :=
  exists bytes,
    fs_fileStream_ s = Some bytes /\ fs_padding_ s = true /\
    length bytes < 1024 /\ fs_totalRead_ s <= length bytes /\
    0 < fs_bufferSize_ s.

(** ** Invariants of a compressing run

    [bytes] is the content of the file, [K] the contract of the compressor. *)

Section RunInvariants.

Variable C : Compressor.
Variable w : Z.
Variable K : DeflateContract C w.
Variable bytes : list byte.
Variable inSize outSize : nat.

(** Input handed to zlib and not consumed yet. *)
Definition pending_input (s : ZlibCompressionStreamResponse C) : list byte :=
  match fileBuffer_ s with
  | Some fb => deflate_input (zStream_ s) (Some fb)
  | None => []
  end.

(** File bytes not read yet. *)
Definition unread (fs : FileStreamResponse) : list byte :=
  skipn (fs_totalRead_ fs) bytes.

(** A leftover buffer always has input left, inside the buffer. *)
Definition leftover_ok (s : ZlibCompressionStreamResponse C) : Prop :=
  match fileBuffer_ s with
  | Some fb =>
      0 < avail_in (zStream_ s) /\
      next_in (zStream_ s) + avail_in (zStream_ s) <= length (data fb)
  | None => True
  end.

(** What never changes during a run that has not finished, and the empty
    output buffer at the head of the loop. *)
Definition running (s : ZlibCompressionStreamResponse C) : Prop :=
  finished_ s = false /\ bufferSize_ s = outSize /\ 0 < outSize /\
  fs_fileStream_ (fileStream_ s) = Some bytes /\
  fs_bufferSize_ (fileStream_ s) = inSize /\ 0 < inSize /\
  fs_totalRead_ (fileStream_ s) <= length bytes.

Definition at_loop_head (s : ZlibCompressionStreamResponse C) : Prop :=
  avail_out (zStream_ s) = outSize /\ next_out (zStream_ s) = [].

(** No padding will be handed out at the end of the file. *)
Definition no_padding_due (s : ZlibCompressionStreamResponse C) : Prop :=
  fs_padding_ (fileStream_ s) = false \/ 1024 <= length bytes.

(** The compressor has consumed [i] and emitted [o], and has not been asked
    to finish. *)
Definition in_progress (s : ZlibCompressionStreamResponse C)
    (i o : list byte) : Prop :=
  running s /\ leftover_ok s /\
  exists st, state (zStream_ s) = Some st /\ Rep K st i o false.

(** ... and what it has consumed, what it holds and what is unread make up
    the file. *)
Definition feeding (s : ZlibCompressionStreamResponse C)
    (i o : list byte) : Prop :=
  in_progress s i o /\ no_padding_due s /\
  i ++ pending_input s ++ unread (fileStream_ s) = bytes.

(** The whole file has been consumed and the finish has been requested. *)
Definition finishing (s : ZlibCompressionStreamResponse C)
    (o : list byte) : Prop :=
  running s /\ no_padding_due s /\ fileBuffer_ s = None /\
  fs_totalRead_ (fileStream_ s) = length bytes /\
  exists st, state (zStream_ s) = Some st /\ Rep K st bytes o true.

(** The stream has ended and what was emitted inflates to the file. *)
Definition ended (s : ZlibCompressionStreamResponse C) (o : list byte) : Prop :=
  finished_ s = true /\ c_inflate C w o = Some bytes.

(** An upper bound on the output still to come. *)
Definition potential (s : ZlibCompressionStreamResponse C) : nat :=
  match state (zStream_ s) with Some st => owed K st | None => 0 end
  + expansion K * (length (pending_input s) + length (unread (fileStream_ s))).

(** Input bytes not consumed yet, pending or unread. *)
Definition remaining (s : ZlibCompressionStreamResponse C) : nat :=
  length (pending_input s) + length (unread (fileStream_ s)).

(** The state a turn that compressed input leaves behind: [k] bytes of the
    buffer [fb] consumed, [out] written. *)
Definition after_feed (s0 : ZlibCompressionStreamResponse C)
    (fb : StreamBuffer) (st' : cstate C) (k : nat) (out : list byte)
    : ZlibCompressionStreamResponse C :=
  let z0 := zStream_ s0 in
  let z1 := mk_z_stream C (Some st') (next_in z0 + k) (avail_in z0 - k)
                        (next_out z0 ++ out) (avail_out z0 - length out) in
  if Nat.eqb (avail_in z0 - k) 0 then set_zStream s0 z1
  else set_fileBuffer (set_zStream s0 z1) (Some fb).

(** A run on a short file with padding on, before any finish. *)
Definition padded_run (s : ZlibCompressionStreamResponse C) : Prop :=
  finished_ s = false /\ bufferSize_ s = outSize /\ 0 < outSize /\
  leftover_ok s /\ padded_short (fileStream_ s) /\
  exists st i o, state (zStream_ s) = Some st /\ Rep K st i o false.

(** The buffers of a run: the first pulls return [bufs], in order, and after
    them no pull returns a buffer, because [finished_] is set or because no
    pull returns at all. *)
Definition runs_out (fuel : nat) (s : ZlibCompressionStreamResponse C)
    (bufs : list StreamBuffer) : Prop :=
  exists s',
    zl_pulls fuel (length bufs) s = Some (map Some bufs, s') /\
    (finished_ s' = true \/ forall fuel', zl_nextBuffer fuel' s' = None).

(** The buffers of a finished run: [n] pulls that each returned a buffer and
    one more that returned none. *)
Definition exhausts (fuel : nat) (s : ZlibCompressionStreamResponse C)
    (bufs : list StreamBuffer) : Prop :=
  exists s', zl_pulls fuel (S (length bufs)) s
             = Some (map Some bufs ++ [None], s').

End RunInvariants.

(** How the stored compressor meets the contract: what it has emitted and
    what it still holds is the framed input. *)
Definition Stored_Rep (w : Z) (st : Stored.st) (i o : list byte) (fin : bool)
    : Prop :=
  match Stored.ph st with
  | Stored.Open => o ++ Stored.pend st = Stored.header w ++ i
  | Stored.Closing =>
      fin = true /\
      o ++ Stored.pend st = Stored.header w ++ i ++ Stored.trailer
  | Stored.Closed =>
      fin = true /\ Stored.pend st = [] /\
      o = Stored.header w ++ i ++ Stored.trailer
  end.

Definition Stored_owed (st : Stored.st) : nat :=
  length (Stored.pend st)
  + match Stored.ph st with Stored.Open => length Stored.trailer | _ => 0 end.

(** ** Sample collaborators and inputs, for the closed statements *)

Module Sample.

Definition systemError (code : Z) (description : string) : Error :=
  mkError code description.

Definition htmlEscape (s : string) : string := s.

Definition sameSiteText (s : SameSite) : string :=
  match s with
  | SameSiteUndefined => ""
  | SameSiteNone => "; SameSite=None"
  | SameSiteLax => "; SameSite=Lax"
  | SameSiteStrict => "; SameSite=Strict"
  end.

Definition cookieHeaderValue (c : Cookie) : string :=
  (cookieName c ++ "=" ++ cookieValue c ++ sameSiteText (cookieSameSite c))%string.

Definition getMimeContentType (f : FilePath) (dflt : string) : string := dflt.

Definition usePadding (r : Request) (f : FilePath) : bool := false.

Definition setBody (C : Compressor) (b : string) (r : Response C) : Response C :=
  with_body b r.

Definition emptyResponse (C : Compressor) : Response C :=
  mkResponse Ok [] EmptyString None.

Definition rangeRequest (range : string) : Request :=
  mkRequest [mkHeader "Range" range] (fun _ => false).

Definition gzipRequest : Request :=
  mkRequest [] (fun e => String.eqb e kGzipEncoding).

Definition hundred : string := string_of_list_ascii (repeat "x"%char 100).

Definition missingFile : FilePath :=
  mkFilePath "/srv/missing.bin" (inl (mkError 2 "No such file or directory")).

Definition hello : list byte := [x68; x65; x6c; x6c; x6f].

Definition helloFile : FilePath := mkFilePath "/srv/hello.txt" (inr hello).

(** An opened file producer on [bytes]. *)
Definition openedFile (bytes : list byte) (bufferSize : nat) (padding : bool)
    : FileStreamResponse :=
  snd (fs_initialize
         (newFileStreamResponse (mkFilePath "/srv/file" (inr bytes))
                                bufferSize padding)).

(** An initialised compressing producer on [bytes]. *)
Definition compressing (C : Compressor) (bytes : list byte)
    (inSize outSize : nat) (padding : bool) (t : CompressionType)
    : ZlibCompressionStreamResponse C :=
  snd (zl_initialize systemError
         (newZlibCompressionStreamResponse C
            (newFileStreamResponse (mkFilePath "/srv/file" (inr bytes))
                                   inSize padding)
            outSize t)).

End Sample.

(** ** Response: cookies, caching presets, redirects *)

Section ResponseRest.

Variable C : Compressor.
Variable htmlEscape : string -> string.
Variable kLegacyCookieSuffix : string.

(** [boost::algorithm::starts_with(s, p)]. *)
Definition starts_with (s p : string) : bool := String.prefix p s.

(** [Response::getCookies]: the Set-Cookie headers, in order; with names
    given, a header is pushed once for every name it starts with. *)
Definition getCookies (names : list string) (r : Response C) : Headers :=
  flat_map
    (fun header =>
       if String.eqb (name header) "Set-Cookie" then
         match names with
         | [] => [header]
         | _ =>
             flat_map
               (fun n =>
                  if starts_with (value header) n then [header]
                  else if starts_with (value header)
                                      (n ++ kLegacyCookieSuffix)%string
                  then [header]
                  else [])
               names
         end
       else [])
    (headers_ r).

(** [Response::clearCookies]. *)
Definition clearCookies (r : Response C) : Response C :=
  with_headers
    (filter (fun h => negb (String.eqb (name h) "Set-Cookie"))) r.

(** [Response::setNoCacheHeaders]. *)
Definition setNoCacheHeaders (r : Response C) : Response C :=
  setHeader "Cache-Control" "no-cache, no-store, max-age=0, must-revalidate"
    (setHeader "Pragma" "no-cache"
       (setHeader "Expires" "Fri, 01 Jan 1990 00:00:00 GMT" r)).

(** [boost::algorithm::split(lines, s, is_any_of("\r\n"))]: the pieces
    between separators, empty pieces included; never an empty list. *)
Definition is_line_break (c : ascii) : bool :=
  Ascii.eqb c "013" || Ascii.eqb c "010".

Fixpoint split_lines (s : string) : list string :=
  match s with
  | EmptyString => [EmptyString]
  | String c t =>
      if is_line_break c then EmptyString :: split_lines t
      else
        match split_lines t with
        | l :: ls => String c l :: ls
        | [] => [String c EmptyString]
        end
  end.

(** [safeLocation]. *)
Definition safeLocation (location : string) : string :=
  match split_lines location with
  | l :: _ => l
  | [] => EmptyString
  end.

(** Collaborators of the redirects: [URL(location).protocol()],
    [URL::complete], [Request::rootPath], [Request::baseUri] and the two
    status codes of Response.hpp. *)
Variable urlProtocol : string -> string.
Variable urlComplete : string -> string -> string.
Variable rootPath : Request -> string.
Variable baseUri : Request -> string.

Variable MovedPermanently MovedTemporarily : Z.

(** [Response::setMovedPermanently]. *)
Definition setMovedPermanently (request : Request) (location : string)
    (r : Response C) : Response C :=
  let path :=
    if negb (is_empty (urlProtocol location)) then location
    else (rootPath request ++ "/" ++ safeLocation location)%string in
  let uri := urlComplete (baseUri request) path in
  let r := setError htmlEscape MovedPermanently uri r in
  setHeader "Location" uri r.

(** [Response::setMovedTemporarily]. *)
Definition setMovedTemporarily (request : Request) (location : string)
    (r : Response C) : Response C :=
  let path :=
    if negb (is_empty (urlProtocol location)) then location
    else (rootPath request ++ "/" ++ safeLocation location)%string in
  let uri := urlComplete (baseUri request) path in
  let r := setError htmlEscape MovedTemporarily uri r in
  setHeader "Location" uri r.

End ResponseRest.

(** Sample collaborators of the redirects. *)
Module SampleUrl.

Definition urlProtocol (location : string) : string :=
  if String.prefix "http://" location then "http"%string
  else if String.prefix "https://" location then "https"%string
  else EmptyString.

Definition urlComplete (base path : string) : string :=
  if is_empty (urlProtocol path) then (base ++ path)%string else path.

Definition rootPath (request : Request) : string := "/app".

Definition baseUri (request : Request) : string := "http://localhost:8787".

Definition MovedPermanently : Z := 301.
Definition MovedTemporarily : Z := 302.

End SampleUrl.

(* ================================================================== *)
(** * Part II: what the code does                                       *)
(* ================================================================== *)

(** ** Header lists *)

Lemma headerValue_put_same (n v : string) (hs : Headers) :
  headerValue n (put_header n v hs) = v.
Proof.
  unfold put_header.
  destruct (containsHeader n hs) eqn:Hc.
  - induction hs as [|h t IH]; simpl in *; [discriminate|].
    destruct (String.eqb (name h) n) eqn:E; simpl.
    + now rewrite String.eqb_refl.
    + rewrite E. now apply IH.
  - unfold push_header.
    induction hs as [|h t IH]; simpl in *.
    + now rewrite String.eqb_refl.
    + destruct (String.eqb (name h) n) eqn:E; simpl in *; [discriminate|].
      now apply IH.
Qed.

Lemma replace_header_other (n m v : string) (hs : Headers) :
  String.eqb n m = false ->
  headerValue m (replace_header n v hs) = headerValue m hs.
Proof.
  intros Hnm. induction hs as [|h t IH]; simpl; [reflexivity|].
  destruct (String.eqb (name h) n) eqn:E; simpl.
  - rewrite Hnm. apply String.eqb_eq in E. now rewrite E, Hnm.
  - now rewrite IH.
Qed.

Lemma headerValue_put_other (n m v : string) (hs : Headers) :
  String.eqb n m = false ->
  headerValue m (put_header n v hs) = headerValue m hs.
Proof.
  intros Hnm. unfold put_header.
  destruct (containsHeader n hs).
  - now apply replace_header_other.
  - unfold push_header. induction hs as [|h t IH]; simpl.
    + now rewrite Hnm.
    + now rewrite IH.
Qed.

Lemma headerValue_erase_other (n m : string) (hs : Headers) :
  String.eqb n m = false ->
  headerValue m (erase_header n hs) = headerValue m hs.
Proof.
  intros Hnm. induction hs as [|h t IH]; simpl; [reflexivity|].
  destruct (String.eqb (name h) n) eqn:E; simpl.
  - apply String.eqb_eq in E. now rewrite E, Hnm.
  - now rewrite IH.
Qed.

(** ** FileStreamResponse *)

Lemma stream_read_length (bytes : list byte) (pos n : nat) :
  length (stream_read bytes pos n) = Nat.min n (length bytes - pos).
Proof. unfold stream_read. now rewrite length_firstn, length_skipn. Qed.

(** A pull that reads nothing leaves the producer as it was. *)
Lemma fs_nextBuffer_eof (s : FileStreamResponse) :
  length (stream_read (match fs_fileStream_ s with Some b => b | None => [] end)
                      (fs_totalRead_ s) (fs_bufferSize_ s)) = 0 ->
  fs_nextBuffer s =
    (if (fs_totalRead_ s <? 1024) && fs_padding_ s
     then Some (makePaddingBuffer (1024 - fs_totalRead_ s)) else None, s).
Proof.
  intros H. unfold fs_nextBuffer. rewrite H. cbn [Nat.eqb].
  rewrite Nat.add_0_r. destruct s as [f st b p t].
  cbn [fs_file_ fs_fileStream_ fs_bufferSize_ fs_padding_ fs_totalRead_].
  now destruct ((t <? 1024) && p).
Qed.

(** Idempotent exhaustion of the file producer: after an empty result the
    state is unchanged and the next result is empty again. *)
Lemma fs_exhausted_stays (s s' : FileStreamResponse) :
  fs_nextBuffer s = (None, s') ->
  s' = s /\ fs_nextBuffer s' = (None, s').
Proof.
  intros H. unfold fs_nextBuffer in H.
  destruct (Nat.eqb (length _) 0) eqn:E in H.
  - apply Nat.eqb_eq in E.
    pose proof (fs_nextBuffer_eof s E) as Heof.
    rewrite E, Nat.add_0_r in H.
    destruct ((fs_totalRead_ s <? 1024) && fs_padding_ s) eqn:P;
      [discriminate|].
    injection H as <-.
    assert (Hs : mkFileStream (fs_file_ s) (fs_fileStream_ s) (fs_bufferSize_ s)
                   (fs_padding_ s) (fs_totalRead_ s) = s) by now destruct s.
    rewrite Hs. split; [reflexivity|]. exact Heof.
  - discriminate.
Qed.

Lemma fs_exhausted_forever (n : nat) (s s' : FileStreamResponse) :
  fs_nextBuffer s = (None, s') ->
  fs_pulls n s' = (repeat None n, s').
Proof.
  intros H. apply fs_exhausted_stays in H as [_ H].
  induction n as [|n IH]; cbn; [reflexivity|].
  now rewrite H, IH.
Qed.

(** At end of file, with padding on and fewer than 1024 bytes read, every
    pull hands out the padding buffer and changes nothing. *)
Lemma fs_padding_again (s : FileStreamResponse) (bytes : list byte) :
  fs_fileStream_ s = Some bytes ->
  length bytes <= fs_totalRead_ s ->
  fs_totalRead_ s < 1024 ->
  fs_padding_ s = true ->
  fs_nextBuffer s = (Some (makePaddingBuffer (1024 - fs_totalRead_ s)), s).
Proof.
  intros Hst Hlen Hlt Hp.
  rewrite fs_nextBuffer_eof.
  - apply Nat.ltb_lt in Hlt. now rewrite Hlt, Hp.
  - rewrite Hst, stream_read_length. lia.
Qed.

Lemma fs_padding_forever (n : nat) (s : FileStreamResponse) (bytes : list byte) :
  fs_fileStream_ s = Some bytes ->
  length bytes <= fs_totalRead_ s ->
  fs_totalRead_ s < 1024 ->
  fs_padding_ s = true ->
  fs_pulls n s =
    (repeat (Some (makePaddingBuffer (1024 - fs_totalRead_ s))) n, s).
Proof.
  intros Hst Hlen Hlt Hp.
  induction n as [|n IH]; cbn [fs_pulls repeat]; [reflexivity|].
  now rewrite (fs_padding_again s Hst Hlen Hlt Hp), IH.
Qed.

(** A pull that reads something hands out exactly what it read. *)
Lemma fs_nextBuffer_data (s : FileStreamResponse) (bytes : list byte) :
  fs_fileStream_ s = Some bytes ->
  fs_totalRead_ s < length bytes ->
  0 < fs_bufferSize_ s ->
  let chunk := stream_read bytes (fs_totalRead_ s) (fs_bufferSize_ s) in
  chunk <> [] /\
  fs_nextBuffer s =
    (Some (mkStreamBuffer chunk (length chunk)),
     mkFileStream (fs_file_ s) (fs_fileStream_ s) (fs_bufferSize_ s)
                  (fs_padding_ s) (fs_totalRead_ s + length chunk)).
Proof.
  intros Hst Hlt Hb chunk.
  assert (Hlen : 0 < length chunk).
  { unfold chunk. rewrite stream_read_length. lia. }
  split.
  - intros E. rewrite E in Hlen. cbn in Hlen. lia.
  - unfold fs_nextBuffer. rewrite Hst. fold chunk.
    destruct (Nat.eqb (length chunk) 0) eqn:E; [|reflexivity].
    apply Nat.eqb_eq in E. lia.
Qed.

Lemma padded_short_pull (s : FileStreamResponse) :
  padded_short s ->
  exists b s',
    fs_nextBuffer s = (Some b, s') /\ 0 < size b /\ size b = length (data b) /\
    padded_short s'.
Proof.
  intros (bytes & Hst & Hp & Hshort & Hpos & Hb).
  destruct (Nat.eq_dec (fs_totalRead_ s) (length bytes)) as [Heq|Hne].
  - exists (makePaddingBuffer (1024 - fs_totalRead_ s)), s.
    split; [apply (fs_padding_again s Hst); lia || assumption|].
    unfold makePaddingBuffer; cbn [size data]. rewrite repeat_length.
    repeat split; try lia. now exists bytes.
  - destruct (fs_nextBuffer_data s Hst) as [Hne' Hpull]; [lia|assumption|].
    eexists _, _. split; [exact Hpull|]. cbn [size data].
    pose proof (stream_read_length bytes (fs_totalRead_ s) (fs_bufferSize_ s)).
    repeat split; try lia.
    exists bytes. cbn. repeat split; try assumption; lia.
Qed.

(** Such a producer never signals exhaustion. *)
Lemma padded_short_never_empty (n : nat) (s : FileStreamResponse) :
  padded_short s ->
  Forall (fun r => r <> None) (fst (fs_pulls n s)).
Proof.
  revert s. induction n as [|n IH]; intros s Hs; cbn; [constructor|].
  destruct (padded_short_pull Hs) as (b & s' & Hpull & _ & _ & Hs').
  rewrite Hpull. specialize (IH s' Hs').
  destruct (fs_pulls n s') as [rs s2]; cbn in *.
  constructor; [discriminate|assumption].
Qed.

(** C4 (the code at the failing input).  A 10-byte file read with padding
    on: the first pull hands out the 10 bytes, and every later pull hands out
    1014 padding bytes again, so four pulls have already delivered 3052
    bytes instead of 1024 and the producer is not exhausted. *)
Theorem C4_padding_repeats_on_every_eof_pull :
  fst (fs_pulls 4 (Sample.openedFile (repeat x61 10) 4096 true)) =
    [Some (mkStreamBuffer (repeat x61 10) 10);
     Some (makePaddingBuffer 1014);
     Some (makePaddingBuffer 1014);
     Some (makePaddingBuffer 1014)] /\
  delivered (fst (fs_pulls 4 (Sample.openedFile (repeat x61 10) 4096 true)))
    = 3052.
Proof. split; vm_compute; reflexivity. Qed.

(** With padding off, or 1024 bytes or more read, the pull at end of file
    hands out nothing (the part of C4 the code keeps). *)
Lemma fs_eof_without_padding (s : FileStreamResponse) (bytes : list byte) :
  fs_fileStream_ s = Some bytes ->
  length bytes <= fs_totalRead_ s ->
  fs_padding_ s = false \/ 1024 <= fs_totalRead_ s ->
  fs_nextBuffer s = (None, s).
Proof.
  intros Hst Hlen Hor. rewrite fs_nextBuffer_eof.
  - destruct Hor as [-> | H]; [now rewrite andb_false_r|].
    apply Nat.ltb_ge in H. now rewrite H.
  - rewrite Hst, stream_read_length. lia.
Qed.

(** ** Response: frame options, cookies, failed initialisation *)

Section ResponseFacts.

Variable C : Compressor.
Variable systemError : Z -> string -> Error.
Variable htmlEscape : string -> string.
Variable cookieHeaderValue : Cookie -> string.
Variable kLegacyCookieSuffix : string.
Variable getMimeContentType : FilePath -> string -> string.
Variable usePadding : Request -> FilePath -> bool.
Variable setBody : string -> Response C -> Response C.

(** [has_no_space] is the absence of the space character. *)
Lemma has_no_space_iff (s : string) :
  has_no_space s = true <-> ~ In " "%char (list_ascii_of_string s).
Proof.
  induction s as [|c s IH]; cbn [has_no_space list_ascii_of_string In].
  - split; [intros _ []|reflexivity].
  - rewrite andb_true_iff, negb_true_iff, IH. split.
    + intros [Hc Hs] [->|Hin]; [|now apply Hs].
      now rewrite Ascii.eqb_refl in Hc.
    + intros H. split.
      * apply Ascii.eqb_neq. intros ->. apply H. now left.
      * intros Hin. apply H. now right.
Qed.

(** C9, as the code has it.  Empty or "none" sets X-Frame-Options: DENY,
    "same" sets SAMEORIGIN, "any" sets nothing, and any other value sets
    Content-Security-Policy: frame-ancestors <value> and then X-Frame-Options:
    ALLOW-FROM <value>, unless the value still holds a space once the white
    space at its two ends is taken off: then only the
    Content-Security-Policy header is set, as for "a.com b.com". *)
Theorem C9_frame_option_headers (options : string) (r : Response C) :
  (options = EmptyString \/ options = "none"%string ->
   setFrameOptionHeaders options r = setHeader "X-Frame-Options" "DENY" r) /\
  (options = "same"%string ->
   setFrameOptionHeaders options r
     = setHeader "X-Frame-Options" "SAMEORIGIN" r) /\
  (options = "any"%string -> setFrameOptionHeaders options r = r) /\
  (options <> EmptyString -> options <> "none"%string ->
   options <> "same"%string -> options <> "any"%string ->
   let r1 := setHeader "Content-Security-Policy"
                       ("frame-ancestors " ++ options)%string r in
   (~ In " "%char (list_ascii_of_string (trim_copy options)) ->
    setFrameOptionHeaders options r
      = setHeader "X-Frame-Options" ("ALLOW-FROM " ++ options)%string r1) /\
   (In " "%char (list_ascii_of_string (trim_copy options)) ->
    setFrameOptionHeaders options r = r1)) /\
  headers_ (setFrameOptionHeaders "a.com b.com" (Sample.emptyResponse C)) =
    [mkHeader "Content-Security-Policy" "frame-ancestors a.com b.com"].
Proof.
  split; [|split; [|split; [|split; [|reflexivity]]]].
  - intros [->| ->]; reflexivity.
  - intros ->. reflexivity.
  - intros ->. reflexivity.
  - intros Hne Hnone Hsame Hany r1. unfold setFrameOptionHeaders.
    assert (E1 : is_empty options || String.eqb options "none" = false).
    { apply orb_false_iff. split.
      - destruct options; [contradiction|reflexivity].
      - now apply String.eqb_neq. }
    apply String.eqb_neq in Hsame, Hany.
    rewrite E1, Hsame, Hany. cbn [negb is_empty append andb]. fold r1.
    split; intros Hsp.
    + apply has_no_space_iff in Hsp. now rewrite Hsp.
    + destruct (has_no_space (trim_copy options)) eqn:E; [|reflexivity].
      apply has_no_space_iff in E. contradiction.
Qed.

(** C8.  [addCookie] appends to the header list: for SameSite=None the
    cookie's Set-Cookie header followed at once by the Set-Cookie header of
    its legacy duplicate (suffixed name, SameSite cleared), and for any other
    SameSite value the one Set-Cookie header of the cookie. *)
Theorem C8_addCookie_set_cookie_headers (cookie : Cookie) (r : Response C) :
  headers_ (addCookie cookieHeaderValue kLegacyCookieSuffix cookie r) =
    headers_ r ++
    match cookieSameSite cookie with
    | SameSiteNone =>
        [mkHeader "Set-Cookie" (cookieHeaderValue cookie);
         mkHeader "Set-Cookie"
           (cookieHeaderValue
              (setSameSite
                 (setName cookie
                          (cookieName cookie ++ kLegacyCookieSuffix)%string)
                 SameSiteUndefined))]
    | _ => [mkHeader "Set-Cookie" (cookieHeaderValue cookie)]
    end /\
  (let legacyCookie :=
     setSameSite
       (setName cookie (cookieName cookie ++ kLegacyCookieSuffix)%string)
       SameSiteUndefined in
   cookieName legacyCookie = (cookieName cookie ++ kLegacyCookieSuffix)%string /\
   cookieSameSite legacyCookie = SameSiteUndefined /\
   cookieValue legacyCookie = cookieValue cookie) /\
  statusCode_ (addCookie cookieHeaderValue kLegacyCookieSuffix cookie r)
    = statusCode_ r /\
  body_ (addCookie cookieHeaderValue kLegacyCookieSuffix cookie r) = body_ r.
Proof.
  split; [|split; [repeat split|]].
  - unfold addCookie, addHeader, with_headers, push_header.
    destruct (cookieSameSite cookie); cbn; try reflexivity.
    now rewrite <- app_assoc.
  - unfold addCookie. now destruct (cookieSameSite cookie).
Qed.

(** [setError] on any response: the status, the escaped message as the
    body, and the fields it leaves alone. *)
Lemma setError_fields (code : Z) (message : string) (r : Response C) :
  let r' := setError htmlEscape code message r in
  statusCode_ r' = code /\ body_ r' = htmlEscape message /\
  streamResponse_ r' = streamResponse_ r /\
  headerValue kTransferEncoding (headers_ r')
    = headerValue kTransferEncoding (headers_ r).
Proof.
  cbv zeta. do 3 (split; [reflexivity|]).
  unfold setError, setBodyUnencoded, setContentLength, setContentType,
    removeCachingHeaders, setHeader, removeHeader, with_headers, with_body,
    setStatusCode.
  cbn [headers_ body_ statusCode_ streamResponse_].
  rewrite headerValue_put_other by reflexivity.
  rewrite headerValue_erase_other by reflexivity.
  rewrite headerValue_put_other by reflexivity.
  now rewrite !headerValue_erase_other by reflexivity.
Qed.

Lemma sr_initialize_open_failure (p : StreamResponse C) (e : Error) :
  openForRead
    (fs_file_ match p with FileStream _ s => s | ZlibStream s => fileStream_ s end)
    = inl e ->
  exists p', sr_initialize systemError p = (Some e, p').
Proof.
  intros H. destruct p as [s|s];
    unfold sr_initialize, zl_initialize, fs_initialize; rewrite H;
    eexists; reflexivity.
Qed.

Lemma sr_initialize_deflateInit2_failure (s : ZlibCompressionStreamResponse C)
    (bytes : list byte) (res : ZCode) (st : option (cstate C)) :
  openForRead (fs_file_ (fileStream_ s)) = inr bytes ->
  c_deflateInit2 C Z_BEST_COMPRESSION (windowBits (compressionType_ s))
                 kDefaultMemoryUsage = (res, st) ->
  zcode_eqb res Z_OK = false ->
  exists p',
    sr_initialize systemError (ZlibStream s) =
      (Some (systemError (zcode_value res) "ZLib initialization error"), p').
Proof.
  intros Hopen Hinit Hres.
  unfold sr_initialize, zl_initialize, fs_initialize.
  rewrite Hopen, Hinit, Hres. eexists; reflexivity.
Qed.

(** After a failed [initialize] the response of [setStreamFile] is the
    error response built on top of the streaming response. *)
Lemma failed_stream_response (e : Error) (p : StreamResponse C)
    (r : Response C) :
  let r' := setError htmlEscape InternalServerError (getMessage e)
              (with_streamResponse (Some p)
                 (setHeader kTransferEncoding kChunkedTransferEncoding r)) in
  statusCode_ r' = InternalServerError /\
  body_ r' = htmlEscape (getMessage e) /\
  streamResponse_ r' <> None /\
  headerValue kTransferEncoding (headers_ r') = kChunkedTransferEncoding.
Proof.
  intros r'.
  destruct (setError_fields InternalServerError (getMessage e)
              (with_streamResponse (Some p)
                 (setHeader kTransferEncoding kChunkedTransferEncoding r)))
    as (H1 & H2 & H3 & H4).
  fold r' in H1, H2, H3, H4.
  split; [exact H1|]. split; [exact H2|].
  split; [rewrite H3; discriminate|].
  rewrite H4. cbn [with_streamResponse headers_ setHeader with_headers].
  apply headerValue_put_same.
Qed.

(** C7 (what the code does when initialisation fails).  Whether the file
    cannot be opened or [deflateInit2] does not return [Z_OK], the response
    comes back with status 500 and the escaped message as its body, but
    the producer whose initialisation failed is still installed as
    [streamResponse_] and Transfer-Encoding is still chunked. *)
Theorem C7_failed_initialize_keeps_producer
    (filePath : FilePath) (request : Request) (buffSize : nat)
    (r : Response C) :
  let r' := setStreamFile systemError htmlEscape getMimeContentType usePadding
                          filePath request buffSize r in
  (forall e, openForRead filePath = inl e ->
     statusCode_ r' = InternalServerError /\
     body_ r' = htmlEscape (getMessage e) /\
     streamResponse_ r' <> None /\
     headerValue kTransferEncoding (headers_ r') = kChunkedTransferEncoding) /\
     (forall bytes res st,
     openForRead filePath = inr bytes ->
     acceptsEncoding request kGzipEncoding = true ->
     getMimeContentType filePath "application/octet-stream"
       = "application/octet-stream"%string ->
     c_deflateInit2 C Z_BEST_COMPRESSION kGzipWindow kDefaultMemoryUsage
       = (res, st) ->
     zcode_eqb res Z_OK = false ->
     statusCode_ r' = InternalServerError /\
     body_ r' = htmlEscape
                  (getMessage (systemError (zcode_value res)
                                           "ZLib initialization error")) /\
     streamResponse_ r' <> None /\
     headerValue kTransferEncoding (headers_ r') = kChunkedTransferEncoding).
Proof.
  intros r'. split.
  - intros e Hopen. subst r'. unfold setStreamFile.
    set (ct := getMimeContentType filePath _).
    set (compress := (_ && _ && _ && _ && _)%bool).
    destruct (acceptsEncoding request kGzipEncoding && compress);
      [|destruct (acceptsEncoding request kDeflateEncoding && compress)];
      match goal with
      | |- context [sr_initialize _ ?p] =>
          destruct (@sr_initialize_open_failure p e Hopen) as [p' ->]
      end;
      apply failed_stream_response.
  - intros bytes res st Hopen Hgz Hct Hinit Hres. subst r'.
    unfold setStreamFile. rewrite Hct, Hgz.
    cbn [String.eqb Ascii.eqb Bool.eqb negb andb].
    match goal with
    | |- context [sr_initialize _ (ZlibStream ?s)] =>
        destruct (@sr_initialize_deflateInit2_failure s bytes res st
                    Hopen Hinit Hres) as [p' ->]
    end.
    apply failed_stream_response.
Qed.

End ResponseFacts.

(** The claim of C9 as the specification words it fails on a value with a
    space at its end: "x.com " contains a space, and X-Frame-Options is set
    all the same, because the space test is made on the trimmed value. *)
Lemma C9_trailing_space_keeps_x_frame_options :
  In " "%char (list_ascii_of_string "x.com ") /\
  In " "%char (list_ascii_of_string "ALLOW-FROM x.com ") /\
  headers_ (setFrameOptionHeaders "x.com " (Sample.emptyResponse Stored.codec)) =
    [mkHeader "Content-Security-Policy" "frame-ancestors x.com ";
     mkHeader "X-Frame-Options" "ALLOW-FROM x.com "].
Proof.
  split; [cbn; tauto|]. split; [cbn; tauto|]. reflexivity.
Qed.

Lemma C9_frame_option_headers_witness :
  setFrameOptionHeaders "x.com" (Sample.emptyResponse Stored.codec)
  = setHeader "X-Frame-Options" "ALLOW-FROM x.com"
      (setHeader "Content-Security-Policy" "frame-ancestors x.com"
         (Sample.emptyResponse Stored.codec)).
Proof.
  refine (proj1 (proj1 (proj2 (proj2 (proj2
            (@C9_frame_option_headers Stored.codec "x.com"
               (Sample.emptyResponse Stored.codec))))) _ _ _ _) _).
  - discriminate.
  - discriminate.
  - discriminate.
  - discriminate.
  - vm_compute. intros H.
    repeat (destruct H as [H|H]; [discriminate H|]). exact H.
Defined.

Lemma C7_failed_initialize_keeps_producer_witness :
  (let r' := setStreamFile (C:=Stored.codec) Sample.systemError
               Sample.htmlEscape Sample.getMimeContentType Sample.usePadding
               Sample.missingFile Sample.gzipRequest 4096
               (Sample.emptyResponse _) in
   statusCode_ r' = InternalServerError /\
   body_ r' = "No such file or directory"%string /\
   streamResponse_ r' <> None /\
   headerValue kTransferEncoding (headers_ r') = kChunkedTransferEncoding) /\
  (let r' := setStreamFile (C:=NoMemory.codec) Sample.systemError
               Sample.htmlEscape Sample.getMimeContentType Sample.usePadding
               Sample.helloFile Sample.gzipRequest 4096
               (Sample.emptyResponse _) in
   statusCode_ r' = InternalServerError /\
   body_ r' = "ZLib initialization error"%string /\
   streamResponse_ r' <> None /\
   headerValue kTransferEncoding (headers_ r') = kChunkedTransferEncoding).
Proof.
  split.
  - exact (proj1 (@C7_failed_initialize_keeps_producer Stored.codec
                    Sample.systemError Sample.htmlEscape
                    Sample.getMimeContentType Sample.usePadding
                    Sample.missingFile Sample.gzipRequest 4096
                    (Sample.emptyResponse _))
                 (mkError 2 "No such file or directory") eq_refl).
  - exact (proj2 (@C7_failed_initialize_keeps_producer NoMemory.codec
                    Sample.systemError Sample.htmlEscape
                    Sample.getMimeContentType Sample.usePadding
                    Sample.helloFile Sample.gzipRequest 4096
                    (Sample.emptyResponse _))
                 Sample.hello Z_MEM_ERROR None eq_refl eq_refl eq_refl eq_refl
                 eq_refl).
Defined.

(** ** Range selection *)

Lemma kNone_value : kNone = 18446744073709551615%Z.
Proof. reflexivity. Qed.

Lemma wrap_small (z : Z) : (0 <= z < size_max)%Z -> wrap z = z.
Proof. intros H. unfold wrap. now apply Z.mod_small. Qed.

Lemma span_digits_all (d : string) :
  all_digits d = true -> span_digits d = (d, EmptyString).
Proof.
  induction d as [|c d IH]; cbn; [reflexivity|].
  intros H. apply andb_true_iff in H as [Hc Hd].
  now rewrite Hc, (IH Hd).
Qed.

(** The suffix form is matched with an empty first group. *)
Lemma match_range_suffix (d : string) :
  all_digits d = true ->
  match_range ("bytes=-" ++ d) = Some (EmptyString, d).
Proof.
  intros H. unfold match_range.
  cbn [append strip_string_prefix Ascii.eqb Bool.eqb span_digits].
  change (is_digit "-") with false. cbv iota.
  rewrite Ascii.eqb_refl.
  now rewrite (span_digits_all d H).
Qed.

Lemma stringTo_size_t_digits (d : string) (dflt : Z) :
  d <> EmptyString -> all_digits d = true ->
  (digits_value 0 d < size_max)%Z ->
  stringTo_size_t d dflt = digits_value 0 d.
Proof.
  intros Hne Hd Hlt. unfold stringTo_size_t.
  destruct d; [contradiction|]. cbn [is_empty orb]. rewrite Hd. cbn [negb].
  apply Z.ltb_lt in Hlt. now rewrite Hlt.
Qed.

Lemma digits_value_nonneg (d : string) (acc : Z) :
  (0 <= acc)%Z -> (0 <= digits_value acc d)%Z.
Proof.
  revert acc. induction d as [|c d IH]; intros acc H; cbn [digits_value];
    [assumption|].
  apply IH. lia.
Qed.

Lemma substring_all (s : string) : String.substring 0 (String.length s) s = s.
Proof. induction s as [|c s IH]; cbn; [reflexivity|]. now rewrite IH. Qed.

Section RangeFacts.

Variable C : Compressor.
Variable setBody : string -> Response C -> Response C.

(** C6, as the code has it.  For a Range header bytes=-<n> with n no
    larger than the length of a non-empty content, the status is 206, the
    range is begin = total-n and end = total-1, Content-Range is
    bytes <begin>-<end>/<total>, and the body is set from the n bytes of the
    content that start at begin. *)
Theorem C6_suffix_range_within_content
    (contents mimeType : string) (request : Request) (r : Response C)
    (digits : string) :
  let total := Z.of_nat (String.length contents) in
  let n := digits_value 0 digits in
  headerValue "Range" (requestHeaders request) = ("bytes=-" ++ digits)%string ->
  digits <> EmptyString ->
  all_digits digits = true ->
  (n <= total)%Z -> (0 < total)%Z -> (total < kNone)%Z ->
  setRangeableFile setBody contents mimeType request r =
    Some (setBody (String.substring (Z.to_nat (total - n)) (Z.to_nat n) contents)
                  (partialContent mimeType request (total - n) (total - 1)
                                  total r)) /\
  statusCode_ (partialContent mimeType request (total - n) (total - 1) total r)
    = PartialContent.
Proof.
  intros total n Hrange Hne Hdigits Hn Hpos Hmax.
  rewrite kNone_value in Hmax.
  assert (Hn0 : (0 <= n)%Z) by (apply digits_value_nonneg; lia).
  split.
  2:{ unfold partialContent. now destruct (acceptsEncoding request kGzipEncoding). }
  unfold setRangeableFile. rewrite Hrange, (match_range_suffix digits Hdigits).
  change (stringTo_size_t EmptyString kNone) with kNone.
  rewrite (stringTo_size_t_digits kNone Hne Hdigits)
    by (fold n; unfold size_max; lia).
  fold n. fold total.
  assert (Hk : (n =? kNone)%Z = false).
  { apply Z.eqb_neq. rewrite kNone_value. lia. }
  rewrite Hk, Z.eqb_refl.
  rewrite (@wrap_small (total - n)%Z) by (unfold size_max; lia).
  rewrite (@wrap_small (total - 1)%Z) by (unfold size_max; lia).
  fold (partialContent mimeType request (total - n)%Z (total - 1)%Z total r).
  rewrite Z.eqb_refl, andb_true_r.
  destruct (Z.eqb_spec (total - n)%Z 0%Z) as [E|E].
  - assert (n = total) by lia. rewrite E.
    replace (Z.to_nat n) with (String.length contents) by lia.
    cbn [Z.to_nat]. now rewrite substring_all.
  - unfold substr. fold total.
    replace (total - 1 - (total - n) + 1)%Z with n by lia.
    rewrite (@wrap_small n) by (unfold size_max; lia).
    assert (Hlt : (total <? total - n)%Z = false) by (apply Z.ltb_ge; lia).
    now rewrite Hlt.
Qed.

(** C10.  For the Range header bytes=- on a content of at least two bytes,
    the header matches, the status is 206, the range is begin = 1 and
    end = total-1, and the body is set from the content without its first
    byte. *)
Theorem C10_empty_groups_drop_first_byte
    (contents mimeType : string) (request : Request) (r : Response C) :
  let total := Z.of_nat (String.length contents) in
  headerValue "Range" (requestHeaders request) = "bytes=-"%string ->
  (2 <= total)%Z -> (total < kNone)%Z ->
  match_range "bytes=-" = Some (EmptyString, EmptyString) /\
  setRangeableFile setBody contents mimeType request r =
    Some (setBody (String.substring 1 (String.length contents - 1) contents)
                  (partialContent mimeType request 1 (total - 1) total r)) /\
  statusCode_ (partialContent mimeType request 1 (total - 1) total r)
    = PartialContent.
Proof.
  intros total Hrange Hmin Hmax. rewrite kNone_value in Hmax.
  split; [reflexivity|]. split.
  2:{ unfold partialContent. now destruct (acceptsEncoding request kGzipEncoding). }
  unfold setRangeableFile. rewrite Hrange.
  change (match_range "bytes=-") with (Some (EmptyString, EmptyString)).
  cbv iota.
  change (stringTo_size_t EmptyString kNone) with kNone.
  fold total. rewrite Z.eqb_refl.
  rewrite (@wrap_small (total - 1)%Z) by (unfold size_max; lia).
  replace (total - (total - 1))%Z with 1%Z by lia.
  change (wrap 1%Z) with 1%Z.
  fold (partialContent mimeType request 1%Z (total - 1)%Z total r).
  change (1 =? 0)%Z with false. cbn [andb].
  unfold substr. fold total.
  assert (Hlt : (total <? 1)%Z = false) by (apply Z.ltb_ge; lia).
  rewrite Hlt.
  replace (total - 1 - 1 + 1)%Z with (total - 1)%Z by lia.
  rewrite (@wrap_small (total - 1)%Z) by (unfold size_max; lia).
  replace (Z.to_nat (total - 1)) with (String.length contents - 1) by lia.
  reflexivity.
Qed.

End RangeFacts.

(** C6 at the example of the specification: bytes=-10 on a 100-byte body
    gives Content-Range bytes 90-99/100 and a body of 10 bytes. *)
Lemma C6_suffix_range_within_content_witness :
  setRangeableFile (Sample.setBody (C:=Stored.codec)) Sample.hundred
                   "text/plain" (Sample.rangeRequest "bytes=-10")
                   (Sample.emptyResponse _) =
    Some (Sample.setBody (String.substring 90 10 Sample.hundred)
            (partialContent "text/plain" (Sample.rangeRequest "bytes=-10")
                            90 99 100 (Sample.emptyResponse _))) /\
  statusCode_ (partialContent "text/plain" (Sample.rangeRequest "bytes=-10")
                              90 99 100 (Sample.emptyResponse Stored.codec))
    = PartialContent.
Proof.
  apply (@C6_suffix_range_within_content Stored.codec
           (Sample.setBody (C:=Stored.codec)) Sample.hundred "text/plain"
           (Sample.rangeRequest "bytes=-10") (Sample.emptyResponse _) "10").
  - reflexivity.
  - discriminate.
  - reflexivity.
  - vm_compute; discriminate.
  - vm_compute; reflexivity.
  - vm_compute; reflexivity.
Defined.

Lemma suffix_range_example :
  option_map (fun r => (statusCode_ r, headers_ r, String.length (body_ r)))
    (setRangeableFile (Sample.setBody (C:=Stored.codec)) Sample.hundred
                      "text/plain" (Sample.rangeRequest "bytes=-10")
                      (Sample.emptyResponse _)) =
  Some (206%Z,
        [mkHeader "Content-Type" "text/plain";
         mkHeader "Accept-Ranges" "bytes";
         mkHeader "Content-Range" "bytes 90-99/100"],
        10).
Proof. vm_compute. reflexivity. Qed.

(** C6 fails as stated when the suffix is longer than the content: for
    bytes=-5 on a 3-byte body begin wraps around to 2^64-2, Content-Range
    would read bytes 18446744073709551614-2/3, and [substr] throws, so no
    response with the stated range and body comes back. *)
Lemma C6_suffix_longer_than_content :
  setRangeableFile (Sample.setBody (C:=Stored.codec)) "abc" "text/plain"
                   (Sample.rangeRequest "bytes=-5") (Sample.emptyResponse _)
    = None /\
  wrap (3 - 5) = 18446744073709551614%Z.
Proof. split; vm_compute; reflexivity. Qed.

Lemma C10_empty_groups_drop_first_byte_witness :
  match_range "bytes=-" = Some (EmptyString, EmptyString) /\
  setRangeableFile (Sample.setBody (C:=Stored.codec)) "abc" "text/plain"
                   (Sample.rangeRequest "bytes=-") (Sample.emptyResponse _) =
    Some (Sample.setBody "bc"
            (partialContent "text/plain" (Sample.rangeRequest "bytes=-")
                            1 2 3 (Sample.emptyResponse _))) /\
  statusCode_ (partialContent "text/plain" (Sample.rangeRequest "bytes=-")
                              1 2 3 (Sample.emptyResponse Stored.codec))
    = PartialContent.
Proof.
  apply (@C10_empty_groups_drop_first_byte Stored.codec
           (Sample.setBody (C:=Stored.codec)) "abc" "text/plain"
           (Sample.rangeRequest "bytes=-") (Sample.emptyResponse _)).
  - reflexivity.
  - vm_compute; discriminate.
  - vm_compute; reflexivity.
Defined.

(** ** ZlibCompressionStreamResponse: one turn of the loop *)

Section FeedFacts.

Variable C : Compressor.

Let producer := ZlibCompressionStreamResponse C.

(** What [deflate] does to the read cursor: it advances [next_in] by what it
    takes off [avail_in], and by no more than the input it was shown. *)
Lemma deflate_cursor (z z' : z_stream C) (mem : list byte) (flush : FlushMode)
    (res : ZCode) :
  deflate z mem flush = (res, z') ->
  exists k,
    k <= length (firstn (avail_in z) (skipn (next_in z) mem)) /\
    next_in z' = next_in z + k /\ avail_in z' = avail_in z - k.
Proof.
  unfold deflate. destruct (state z) as [st|].
  - destruct (c_deflate C st _ (avail_out z) flush) as [[[r st'] k] out].
    intros H. injection H as _ <-. cbn [next_in avail_in].
    eexists. split; [apply Nat.le_min_r|]. split; reflexivity.
  - intros H. injection H as _ <-. exists 0.
    repeat split; try lia.
Qed.

Lemma deflate_input_advance (mem : list byte) (n a k : nat) :
  firstn (a - k) (skipn (n + k) mem) = skipn k (firstn a (skipn n mem)).
Proof.
  rewrite skipn_firstn_comm, skipn_skipn. f_equal. f_equal. lia.
Qed.

(** A state with a leftover buffer takes that buffer as its input: nothing is
    fetched, and neither the file producer nor zlib's cursor is touched. *)
Lemma zl_input_leftover (s : producer) (fb : StreamBuffer) (flush : FlushMode) :
  fileBuffer_ s = Some fb ->
  zl_input s flush = (Some fb, set_fileBuffer s None, flush, []).
Proof. intros H. unfold zl_input. now rewrite H. Qed.

(** When a turn of the loop leaves [avail_in] nonzero, the buffer it fed is
    kept in [fileBuffer_]; what zlib's cursor then designates in it is the
    fed input without the bytes consumed; and the next turn, whether in the
    same pull or after the next pull has set up its output buffer, takes
    that very buffer with the cursor as zlib left it, and fetches nothing
    from the file producer. *)
Lemma zl_feed_keeps_unconsumed_input
    (s s1 : producer) (flush flush1 : FlushMode) (res : ZCode) (written : nat)
    (evs : list Event) :
  zl_feed s flush = Fed s1 flush1 res written evs ->
  avail_in (zStream_ s1) <> 0 ->
  exists fb s0 evs0,
    zl_input s flush = (Some fb, s0, flush1, evs0) /\
    fileBuffer_ s1 = Some fb /\
    fileStream_ s1 = fileStream_ s0 /\
    deflate_input (zStream_ s1) (Some fb) =
      skipn (avail_in (zStream_ s0) - avail_in (zStream_ s1))
            (deflate_input (zStream_ s0) (Some fb)) /\
    forall flush',
      zl_input s1 flush' = (Some fb, set_fileBuffer s1 None, flush', []) /\
      zl_input (new_output s1) flush'
        = (Some fb, set_fileBuffer (new_output s1) None, flush', []) /\
      deflate_input (zStream_ (new_output s1)) (Some fb)
        = deflate_input (zStream_ s1) (Some fb).
Proof.
  intros Hfeed Hin. unfold zl_feed in Hfeed.
  destruct (zl_input s flush) as [[[fileBuffer s0] fl] evs0] eqn:Hinput.
  destruct (deflate (zStream_ s0) (buffer_memory fileBuffer) fl) as [r z] eqn:Hd.
  destruct (zcode_eqb r Z_STREAM_ERROR); [discriminate|].
  injection Hfeed as <- <- <- <- <-.
  destruct (Nat.eqb (avail_in z) 0) eqn:Hz.
  { apply Nat.eqb_eq in Hz. cbn in Hin. contradiction. }
  destruct (deflate_cursor _ _ _ Hd) as (k & Hk & Hn & Ha).
  destruct fileBuffer as [fb|].
  - exists fb, s0, evs0. cbn [fileBuffer_ set_fileBuffer set_zStream zStream_
                               fileStream_].
    split; [reflexivity|]. split; [reflexivity|]. split; [reflexivity|].
    split.
    + unfold deflate_input. cbn [buffer_memory] in *.
      rewrite Hn, Ha.
      assert (Hle : k <= avail_in (zStream_ s0)).
      { rewrite length_firstn in Hk. lia. }
      replace (avail_in (zStream_ s0) - (avail_in (zStream_ s0) - k)) with k
        by lia.
      apply deflate_input_advance.
    + intros flush'. split; [|split]; try reflexivity.
  - (* no buffer: [avail_in] was set to 0 and cannot have become nonzero *)
    exfalso. unfold zl_input in Hinput.
    destruct (fileBuffer_ s); [discriminate|].
    destruct (fs_nextBuffer (fileStream_ s)) as [[b|] fs]; [discriminate|].
    injection Hinput as <- <- <-. cbn in Ha.
    apply Nat.eqb_neq in Hz. lia.
Qed.

End FeedFacts.



(** ** ZlibCompressionStreamResponse: what ends a stream *)

Section PullFacts.

Variable C : Compressor.

Let producer := ZlibCompressionStreamResponse C.

Lemma zcode_eqb_eq (a b : ZCode) : zcode_eqb a b = true <-> a = b.
Proof. destruct a, b; cbn; split; intros H; try reflexivity; discriminate. Qed.

(** Once [finished_] is set, every pull is empty and changes nothing. *)
Lemma zl_finished_stays (fuel : nat) (s : producer) :
  finished_ s = true -> zl_nextBuffer fuel s = Some (mkPull None s []).
Proof. intros H. unfold zl_nextBuffer. now rewrite H. Qed.

Lemma zl_finished_forever (fuel n : nat) (s : producer) :
  finished_ s = true -> zl_pulls fuel n s = Some (repeat None n, s).
Proof.
  intros H. induction n as [|n IH]; cbn [zl_pulls repeat]; [reflexivity|].
  rewrite (zl_finished_stays fuel s H). cbn [p_state p_buffer]. now rewrite IH.
Qed.

(** A turn of the loop does not touch [finished_]; it aborts exactly when its
    [deflate] reports [Z_STREAM_ERROR], and then it logs the failure. *)
Lemma zl_feed_aborted (s s' : producer) (flush : FlushMode) (evs : list Event) :
  zl_feed s flush = Aborted s' evs ->
  finished_ s' = finished_ s /\
  exists evs0 input flush1 msg,
    evs = evs0 ++ [EvDeflate input flush1 Z_STREAM_ERROR; EvLogError msg].
Proof.
  unfold zl_feed.
  destruct (zl_input s flush) as [[[fileBuffer s0] fl] evs0] eqn:Hinput.
  destruct (deflate _ _ fl) as [r z].
  destruct (zcode_eqb r Z_STREAM_ERROR) eqn:E; [|discriminate].
  apply zcode_eqb_eq in E. subst r. intros H. injection H as <- <-.
  split; [|now eexists _, _, _, _].
  unfold zl_input in Hinput. destruct (fileBuffer_ s).
  - now injection Hinput as _ <- _ _.
  - destruct (fs_nextBuffer (fileStream_ s)) as [[b|] fs];
      now injection Hinput as _ <- _ _.
Qed.

Lemma zl_feed_fed (s s' : producer) (flush flush1 : FlushMode) (res : ZCode)
    (written : nat) (evs : list Event) :
  zl_feed s flush = Fed s' flush1 res written evs ->
  finished_ s' = finished_ s /\ res <> Z_STREAM_ERROR /\
  forall input fl, ~ In (EvDeflate input fl Z_STREAM_ERROR) evs.
Proof.
  unfold zl_feed.
  destruct (zl_input s flush) as [[[fileBuffer s0] fl] evs0] eqn:Hinput.
  destruct (deflate _ _ fl) as [r z].
  destruct (zcode_eqb r Z_STREAM_ERROR) eqn:E; [discriminate|].
  assert (Hr : r <> Z_STREAM_ERROR).
  { intros ->. discriminate. }
  intros H. injection H as <- <- <- <- <-.
  assert (Hfin : finished_ s0 = finished_ s /\
                 forall e, In e evs0 -> exists b, e = EvFetch b).
  { unfold zl_input in Hinput. destruct (fileBuffer_ s).
    - injection Hinput as _ <- _ <-. split; [reflexivity|]. intros e [].
    - destruct (fs_nextBuffer (fileStream_ s)) as [[b|] fs];
        injection Hinput as _ <- _ <-; (split; [reflexivity|]);
        intros e [<-|[]]; now eexists. }
  destruct Hfin as [Hfin Hev]. split; [|split; [exact Hr|]].
  - now destruct (Nat.eqb (avail_in z) 0).
  - intros input fl' Hin. apply in_app_or in Hin as [Hin|[Hin|[]]].
    + destruct (Hev _ Hin) as [b Hb]. discriminate.
    + injection Hin as _ _ ->. now apply Hr.
Qed.

(** The part of C5 that holds for every compressor: a pull in which
    [deflate] reports [Z_STREAM_ERROR] ends there, with the failure logged
    last, no buffer returned and [finished_] left as it was. *)
Lemma zl_loop_stream_error (fuel : nat) (s : producer) (flush : FlushMode)
    (trace : list Event) (p : Pull C) (input : list byte) (fl : FlushMode) :
  zl_loop fuel s flush trace = Some p ->
  ~ In (EvDeflate input fl Z_STREAM_ERROR) trace ->
  In (EvDeflate input fl Z_STREAM_ERROR) (p_trace p) ->
  p_buffer p = None /\ finished_ (p_state p) = finished_ s /\
  exists tr msg, p_trace p = tr ++ [EvLogError msg].
Proof.
  revert s flush trace. induction fuel as [|fuel IH]; intros s flush trace;
    cbn [zl_loop]; [discriminate|].
  destruct (zl_feed s flush) as [s' evs|s' flush' res written evs] eqn:Hfeed.
  - intros H _ _. injection H as <-. cbn [p_buffer p_state p_trace].
    destruct (zl_feed_aborted _ _ Hfeed) as (Hfin & evs0 & i & f & msg & ->).
    split; [reflexivity|]. split; [exact Hfin|].
    exists (trace ++ evs0 ++ [EvDeflate i f Z_STREAM_ERROR]), msg.
    now rewrite <- !app_assoc.
  - destruct (zl_feed_fed _ _ Hfeed) as (Hfin & _ & Hno).
    destruct (Nat.eqb written 0).
    + intros H Htr Hin.
      destruct (IH s' flush' (trace ++ evs) H) as (H1 & H2 & H3).
      * intros Hc. apply in_app_or in Hc as [Hc|Hc]; [now apply Htr|].
        now apply (Hno input fl).
      * exact Hin.
      * split; [exact H1|]. split; [now rewrite H2|exact H3].
    + intros H Htr Hin. injection H as <-. cbn [p_trace] in Hin.
      exfalso. apply in_app_or in Hin as [Hc|Hc]; [now apply Htr|].
      now apply (Hno input fl).
Qed.

Lemma zl_stream_error_aborts_pull (fuel : nat) (s : producer) (p : Pull C)
    (input : list byte) (fl : FlushMode) :
  zl_nextBuffer fuel s = Some p ->
  In (EvDeflate input fl Z_STREAM_ERROR) (p_trace p) ->
  p_buffer p = None /\ finished_ (p_state p) = false /\
  exists tr msg, p_trace p = tr ++ [EvLogError msg].
Proof.
  unfold zl_nextBuffer. destruct (finished_ s) eqn:Hf.
  - intros H. injection H as <-. intros [].
  - intros H Hin.
    destruct (@zl_loop_stream_error fuel (new_output s) Z_NO_FLUSH [] p input
                fl H (fun x => x) Hin) as (H1 & H2 & H3).
    split; [exact H1|]. split; [|exact H3]. now rewrite H2.
Qed.

(** A stream whose [deflateInit2] failed has no state; every turn on it
    aborts, so every pull is empty as long as the state stays away. *)
Lemma zl_feed_without_state (s : producer) (flush : FlushMode) :
  state (zStream_ s) = None ->
  exists s' evs,
    zl_feed s flush = Aborted s' evs /\ state (zStream_ s') = None /\
    finished_ s' = finished_ s.
Proof.
  intros Hst. unfold zl_feed.
  destruct (zl_input s flush) as [[[fileBuffer s0] fl] evs0] eqn:Hinput.
  assert (H0 : state (zStream_ s0) = None /\ finished_ s0 = finished_ s).
  { unfold zl_input in Hinput. destruct (fileBuffer_ s).
    - now injection Hinput as _ <- _ _.
    - destruct (fs_nextBuffer (fileStream_ s)) as [[b|] fs];
        now injection Hinput as _ <- _ _. }
  destruct H0 as [Hst0 Hfin0].
  unfold deflate. rewrite Hst0.
  change (zcode_eqb Z_STREAM_ERROR Z_STREAM_ERROR) with true. cbv iota.
  eexists _, _. split; [reflexivity|].
  cbn [set_zStream zStream_ finished_]. now split.
Qed.

Lemma zl_without_state_forever (fuel n : nat) :
  forall s : producer,
    state (zStream_ s) = None -> finished_ s = false ->
    exists s', zl_pulls (S fuel) n s = Some (repeat None n, s').
Proof.
  induction n as [|n IH]; intros s Hst Hfin; cbn [zl_pulls repeat].
  - now exists s.
  - unfold zl_nextBuffer. rewrite Hfin. cbn [zl_loop].
    destruct (@zl_feed_without_state (new_output s) Z_NO_FLUSH Hst)
      as (s1 & evs & -> & Hst1 & Hfin1).
    cbn [p_state p_buffer].
    destruct (IH s1 Hst1) as [s' ->]; [now rewrite Hfin1|].
    now exists s'.
Qed.

(** A broken stream stays broken: every turn on it aborts, so that every
    pull on it is empty. *)
Lemma zl_feed_broken (s : producer) (flush : FlushMode) :
  stream_broken (zStream_ s) ->
  exists s' evs,
    zl_feed s flush = Aborted s' evs /\ stream_broken (zStream_ s') /\
    finished_ s' = finished_ s.
Proof.
  intros Hb. unfold zl_feed.
  destruct (zl_input s flush) as [[[fileBuffer s0] fl] evs0] eqn:Hinput.
  assert (H0 : state (zStream_ s0) = state (zStream_ s) /\
               finished_ s0 = finished_ s).
  { unfold zl_input in Hinput. destruct (fileBuffer_ s).
    - now injection Hinput as _ <- _ _.
    - destruct (fs_nextBuffer (fileStream_ s)) as [[b|] fs];
        now injection Hinput as _ <- _ _. }
  destruct H0 as [Hst0 Hfin0].
  unfold stream_broken in Hb. rewrite <- Hst0 in Hb.
  unfold deflate. destruct (state (zStream_ s0)) as [st|] eqn:Hst.
  - rewrite Hb.
    change (zcode_eqb Z_STREAM_ERROR Z_STREAM_ERROR) with true. cbv iota.
    eexists _, _. split; [reflexivity|].
    unfold stream_broken. cbn [set_zStream zStream_ finished_ state].
    now split.
  - change (zcode_eqb Z_STREAM_ERROR Z_STREAM_ERROR) with true. cbv iota.
    eexists _, _. split; [reflexivity|].
    unfold stream_broken. cbn [set_zStream zStream_ finished_].
    rewrite Hst. now split.
Qed.

Lemma zl_broken_forever (fuel n : nat) :
  forall s : producer,
    stream_broken (zStream_ s) -> finished_ s = false ->
    exists s', zl_pulls (S fuel) n s = Some (repeat None n, s').
Proof.
  induction n as [|n IH]; intros s Hst Hfin; cbn [zl_pulls repeat].
  - now exists s.
  - unfold zl_nextBuffer. rewrite Hfin. cbn [zl_loop].
    destruct (@zl_feed_broken (new_output s) Z_NO_FLUSH Hst)
      as (s1 & evs & -> & Hst1 & Hfin1).
    cbn [p_state p_buffer].
    destruct (IH s1 Hst1) as [s' ->]; [now rewrite Hfin1|].
    now exists s'.
Qed.

(** Whatever made a pull return nothing, the pulls after it return nothing:
    either [finished_] is set, or the stream is broken. *)
Lemma zl_empty_forever (fuel n : nat) (s : producer) :
  (finished_ s = false -> stream_broken (zStream_ s)) ->
  option_map fst (zl_pulls (S fuel) n s) = Some (repeat None n).
Proof.
  intros H. destruct (finished_ s) eqn:Hfin.
  - now rewrite (zl_finished_forever (S fuel) n s Hfin).
  - destruct (@zl_broken_forever fuel n s (H eq_refl) Hfin) as [s' ->].
    reflexivity.
Qed.

End PullFacts.

(** ** Buffers of the file producer *)

Lemma makePaddingBuffer_size (n : nat) : size (makePaddingBuffer n) = n.
Proof. reflexivity. Qed.

Lemma makePaddingBuffer_data (n : nat) :
  data (makePaddingBuffer n) = repeat x30 n.
Proof. reflexivity. Qed.

Lemma fs_nextBuffer_some (fs fs' : FileStreamResponse) (fb : StreamBuffer) :
  fs_nextBuffer fs = (Some fb, fs') ->
  0 < size fb /\ size fb = length (data fb).
Proof.
  unfold fs_nextBuffer.
  destruct (Nat.eqb (length _) 0) eqn:E.
  - destruct ((_ <? 1024) && fs_padding_ fs) eqn:P; [|discriminate].
    intros H. apply andb_true_iff in P as [P _]. apply Nat.ltb_lt in P.
    assert (Hb : fb = makePaddingBuffer
                        (1024 - (fs_totalRead_ fs + length
                           (stream_read
                              match fs_fileStream_ fs with
                              | Some b => b
                              | None => []
                              end (fs_totalRead_ fs) (fs_bufferSize_ fs))))).
    { congruence. }
    rewrite Hb, makePaddingBuffer_size, makePaddingBuffer_data, repeat_length.
    lia.
  - intros H. injection H as <- _. cbn [size data].
    apply Nat.eqb_neq in E. lia.
Qed.

Lemma skipn_read (l : list byte) (t n : nat) :
  skipn t l = stream_read l t n ++ skipn (t + length (stream_read l t n)) l.
Proof.
  unfold stream_read. rewrite Nat.add_comm, <- skipn_skipn.
  rewrite <- (firstn_skipn n (skipn t l)) at 1. f_equal.
  rewrite length_firstn.
  destruct (Nat.le_ge_cases n (length (skipn t l))) as [H|H].
  - now rewrite Nat.min_l.
  - rewrite Nat.min_r by assumption.
    rewrite !skipn_all2; [reflexivity|lia|lia].
Qed.

(** ** ZlibCompressionStreamResponse: a stream that has ended *)
Section Ended.

Variable C : Compressor.

Let producer := ZlibCompressionStreamResponse C.

(** A stream that has ended, on a file producer that is exhausted: the loop
    asks to finish, is told [Z_STREAM_END], finds nothing written, and goes
    round again, in the state it was in. *)
Lemma zl_feed_ended (s : producer) (flush : FlushMode) (st : cstate C) :
  fileBuffer_ s = None ->
  fs_nextBuffer (fileStream_ s) = (None, fileStream_ s) ->
  state (zStream_ s) = Some st -> @stream_ended C st ->
  avail_out (zStream_ s) = bufferSize_ s -> 0 < bufferSize_ s ->
  exists s' evs,
    zl_feed s flush = Fed s' Z_FINISH Z_STREAM_END 0 evs /\
    fileBuffer_ s' = None /\
    fileStream_ s' = fileStream_ s /\
    state (zStream_ s') = Some st /\
    avail_out (zStream_ s') = bufferSize_ s' /\
    bufferSize_ s' = bufferSize_ s.
Proof.
  intros Hfb Hfs Hst Hend Hao Hpos.
  unfold zl_feed, zl_input. rewrite Hfb, Hfs.
  unfold deflate.
  cbn [set_fileStream set_zStream set_avail_in zStream_ state avail_in
       next_in avail_out next_out buffer_memory].
  rewrite Hst. cbn [firstn].
  rewrite (Hend (avail_out (zStream_ s))) by lia.
  change (zcode_eqb Z_STREAM_END Z_STREAM_ERROR) with false. cbv iota.
  cbn [Nat.min length firstn set_zStream zStream_ avail_in avail_out
       bufferSize_ Nat.sub Nat.eqb].
  rewrite firstn_nil, Nat.sub_0_r, Hao, Nat.sub_diag.
  eexists _, _. split; [reflexivity|].
  cbn [fileBuffer_ fileStream_ zStream_ state avail_out bufferSize_].
  repeat split; assumption || reflexivity.
Qed.

Lemma zl_loop_ended (fuel : nat) :
  forall (s : producer) (flush : FlushMode) (trace : list Event)
         (st : cstate C),
    fileBuffer_ s = None ->
    fs_nextBuffer (fileStream_ s) = (None, fileStream_ s) ->
    state (zStream_ s) = Some st -> @stream_ended C st ->
    avail_out (zStream_ s) = bufferSize_ s -> 0 < bufferSize_ s ->
    zl_loop fuel s flush trace = None.
Proof.
  induction fuel as [|fuel IH]; intros s flush trace st Hfb Hfs Hst Hend Hao
    Hpos; cbn [zl_loop]; [reflexivity|].
  destruct (@zl_feed_ended s flush st Hfb Hfs Hst Hend Hao Hpos)
    as (s' & evs & -> & Hfb' & Hfs' & Hst' & Hao' & Hbs').
  cbn [Nat.eqb]. apply (IH s' Z_FINISH _ st); try assumption.
  - now rewrite Hfs'.
  - now rewrite Hbs'.
Qed.

End Ended.

(** ** ZlibCompressionStreamResponse: a run against the contract *)

Section Run.
Variable C : Compressor.
Variable w : Z.
Variable K : DeflateContract C w.
Variable bytes : list byte.
Variable inSize outSize : nat.

Let producer := ZlibCompressionStreamResponse C.

Lemma deflate_feeds (z : z_stream C) (mem : list byte) (st : cstate C)
    (i o : list byte) :
  state z = Some st -> Rep K st i o false ->
  firstn (avail_in z) (skipn (next_in z) mem) <> [] ->
  0 < avail_out z ->
  exists st' k out,
    deflate z mem Z_NO_FLUSH =
      (Z_OK, mk_z_stream C (Some st') (next_in z + k) (avail_in z - k)
                         (next_out z ++ out) (avail_out z - length out)) /\
    k <= length (firstn (avail_in z) (skipn (next_in z) mem)) /\
    length out <= avail_out z /\
    (length out < avail_out z ->
     k = length (firstn (avail_in z) (skipn (next_in z) mem))) /\
    Rep K st' (i ++ firstn k (firstn (avail_in z) (skipn (next_in z) mem)))
        (o ++ out) false /\
    owed K st' + length out <= owed K st + expansion K * k.
Proof.
  intros Hst Hrep Hin Hroom. unfold deflate. rewrite Hst.
  destruct (c_deflate C st _ (avail_out z) Z_NO_FLUSH) as [[[res st'] k] out]
    eqn:Hd.
  destruct (rep_feed K _ _ _ Hrep Hin Hroom Hd) as (-> & Hk & Hout & Hall & Hrep' & Howed).
  exists st', k, out.
  rewrite (Nat.min_l _ _ Hk), (firstn_all2 out) by exact Hout.
  repeat split; assumption.
Qed.

Lemma deflate_finishes (z : z_stream C) (mem : list byte) (st : cstate C)
    (i o : list byte) (fin : bool) :
  state z = Some st -> Rep K st i o fin -> avail_in z = 0 ->
  0 < avail_out z ->
  exists res st' out,
    deflate z mem Z_FINISH =
      (res, mk_z_stream C (Some st') (next_in z + 0) 0
                        (next_out z ++ out) (avail_out z - length out)) /\
    (fin = false -> 0 < length out) /\ length out <= avail_out z /\
    owed K st' + length out <= owed K st /\
    ((res = Z_OK /\ length out = avail_out z /\ Rep K st' i (o ++ out) true) \/
     (res = Z_STREAM_END /\ c_inflate C w (o ++ out) = Some i /\
      @stream_ended C st')).
Proof.
  intros Hst Hrep Hin Hroom. unfold deflate. rewrite Hst, Hin.
  cbn [firstn length].
  destruct (c_deflate C st [] (avail_out z) Z_FINISH) as [[[res st'] k] out]
    eqn:Hd.
  destruct (rep_finish K _ _ _ _ Hrep Hroom Hd) as (Hout & Howed & Hpos & Hres).
  exists res, st', out.
  rewrite Nat.min_0_r, (firstn_all2 out) by exact Hout.
  repeat split; assumption.
Qed.


(** What the first half of a turn leaves behind. *)
Lemma zl_input_shape (s : producer) (fl : FlushMode) :
  leftover_ok s ->
  exists fbo s0 fl1 evs0,
    zl_input s fl = (fbo, s0, fl1, evs0) /\
    finished_ s0 = finished_ s /\ bufferSize_ s0 = bufferSize_ s /\
    fileBuffer_ s0 = None /\
    state (zStream_ s0) = state (zStream_ s) /\
    avail_out (zStream_ s0) = avail_out (zStream_ s) /\
    next_out (zStream_ s0) = next_out (zStream_ s) /\
    match fbo with
    | Some fb =>
        fl1 = fl /\ 0 < avail_in (zStream_ s0) /\
        next_in (zStream_ s0) + avail_in (zStream_ s0) <= length (data fb) /\
        ((fileBuffer_ s = Some fb /\ fileStream_ s0 = fileStream_ s /\
          zStream_ s0 = zStream_ s) \/
         (fileBuffer_ s = None /\
          fs_nextBuffer (fileStream_ s) = (Some fb, fileStream_ s0) /\
          next_in (zStream_ s0) = 0 /\ avail_in (zStream_ s0) = length (data fb)))
    | None =>
        fl1 = Z_FINISH /\ avail_in (zStream_ s0) = 0 /\ fileBuffer_ s = None /\
        fs_nextBuffer (fileStream_ s) = (None, fileStream_ s0)
    end.
Proof.
  intros Hleft. unfold zl_input, leftover_ok in *.
  destruct (fileBuffer_ s) as [fb|] eqn:Hfb.
  - exists (Some fb), (set_fileBuffer s None), fl, [].
    cbn. repeat split; try tauto.
  - destruct (fs_nextBuffer (fileStream_ s)) as [[fb|] fs] eqn:Hpull.
    + destruct (fs_nextBuffer_some _ Hpull) as [Hpos Hsize].
      eexists _, _, _, _. split; [reflexivity|]. cbn.
      repeat split; try assumption; try lia. right. repeat split; assumption.
    + eexists _, _, _, _. split; [reflexivity|]. cbn.
      repeat split; assumption.
Qed.

Lemma deflate_input_nonempty (z : z_stream C) (fb : StreamBuffer) :
  0 < avail_in z -> next_in z + avail_in z <= length (data fb) ->
  length (deflate_input z (Some fb)) = avail_in z /\
  deflate_input z (Some fb) <> [].
Proof.
  intros Hpos Hle. unfold deflate_input. cbn [buffer_memory].
  assert (H : length (firstn (avail_in z) (skipn (next_in z) (data fb)))
              = avail_in z).
  { rewrite length_firstn, length_skipn. lia. }
  split; [exact H|]. intros E. rewrite E in H. cbn in H. lia.
Qed.

Lemma zl_feed_compresses (s s0 : producer) (fb : StreamBuffer)
    (evs0 : list Event) (st : cstate C) (i o : list byte) :
  zl_input s Z_NO_FLUSH = (Some fb, s0, Z_NO_FLUSH, evs0) ->
  state (zStream_ s0) = Some st -> Rep K st i o false ->
  0 < avail_in (zStream_ s0) ->
  next_in (zStream_ s0) + avail_in (zStream_ s0) <= length (data fb) ->
  0 < avail_out (zStream_ s0) ->
  exists st' k out evs,
    zl_feed s Z_NO_FLUSH =
      Fed (after_feed s0 fb st' k out) Z_NO_FLUSH Z_OK
          (bufferSize_ s0 - (avail_out (zStream_ s0) - length out)) evs /\
    k <= avail_in (zStream_ s0) /\
    length out <= avail_out (zStream_ s0) /\
    (length out < avail_out (zStream_ s0) -> k = avail_in (zStream_ s0)) /\
    Rep K st' (i ++ firstn k (deflate_input (zStream_ s0) (Some fb)))
        (o ++ out) false /\
    owed K st' + length out <= owed K st + expansion K * k.
Proof.
  intros Hinput Hst Hrep Hpos Hle Hroom.
  destruct (deflate_input_nonempty _ _ Hpos Hle) as [Hlen Hne].
  destruct (@deflate_feeds (zStream_ s0) (data fb) st i o Hst Hrep Hne Hroom)
    as (st' & k & out & Hd & Hk & Hout & Hall & Hrep' & Howed).
  change (firstn (avail_in (zStream_ s0))
            (skipn (next_in (zStream_ s0)) (data fb)))
    with (deflate_input (zStream_ s0) (Some fb)) in Hk, Hall, Hrep'.
  rewrite Hlen in Hk, Hall.
  exists st', k, out. eexists.
  split; [|repeat split; assumption].
  unfold zl_feed. rewrite Hinput. cbn [buffer_memory]. rewrite Hd.
  cbn [zcode_eqb zcode_value Z.eqb]. unfold after_feed.
  cbn [set_zStream zStream_ avail_in avail_out bufferSize_].
  destruct (Nat.eqb (avail_in (zStream_ s0) - k) 0); reflexivity.
Qed.


Lemma zl_feed_finishes (s s0 : producer) (fl : FlushMode) (evs0 : list Event)
    (st : cstate C) (i o : list byte) (fin : bool) :
  zl_input s fl = (None, s0, Z_FINISH, evs0) ->
  state (zStream_ s0) = Some st -> Rep K st i o fin ->
  avail_in (zStream_ s0) = 0 -> 0 < avail_out (zStream_ s0) ->
  exists res st' out evs,
    zl_feed s fl =
      Fed (set_zStream s0
             (mk_z_stream C (Some st') (next_in (zStream_ s0) + 0) 0
                          (next_out (zStream_ s0) ++ out)
                          (avail_out (zStream_ s0) - length out)))
          Z_FINISH res
          (bufferSize_ s0 - (avail_out (zStream_ s0) - length out)) evs /\
    (fin = false -> 0 < length out) /\ length out <= avail_out (zStream_ s0) /\
    owed K st' + length out <= owed K st /\
    ((res = Z_OK /\ length out = avail_out (zStream_ s0) /\
      Rep K st' i (o ++ out) true) \/
     (res = Z_STREAM_END /\ c_inflate C w (o ++ out) = Some i /\
      @stream_ended C st')).
Proof.
  intros Hinput Hst Hrep Hin Hroom.
  destruct (@deflate_finishes (zStream_ s0) [] st i o fin Hst Hrep Hin Hroom)
    as (res & st' & out & Hd & Hpos & Hout & Howed & Hres).
  exists res, st', out. eexists.
  split; [|split; [exact Hpos|split; [exact Hout|split; [exact Howed|exact Hres]]]].
  unfold zl_feed. rewrite Hinput. cbn [buffer_memory]. rewrite Hd.
  assert (E : zcode_eqb res Z_STREAM_ERROR = false)
    by (destruct Hres as [[-> _]|[-> _]]; reflexivity).
  rewrite E. cbn [set_zStream zStream_ avail_in avail_out bufferSize_ Nat.eqb].
  reflexivity.
Qed.

(** With no padding due, the file producer hands out the next bytes of the
    file, or nothing once they have all been read. *)
Lemma fs_nextBuffer_unread (s : producer) :
  running bytes inSize outSize s -> no_padding_due bytes s ->
  match fs_nextBuffer (fileStream_ s) with
  | (Some fb, fs') =>
      unread bytes (fileStream_ s) = data fb ++ unread bytes fs' /\
      fs_fileStream_ fs' = Some bytes /\ fs_bufferSize_ fs' = inSize /\
      fs_padding_ fs' = fs_padding_ (fileStream_ s) /\
      fs_totalRead_ fs' <= length bytes
  | (None, fs') =>
      fs' = fileStream_ s /\ fs_totalRead_ (fileStream_ s) = length bytes
  end.
Proof.
  intros (_ & _ & _ & Hst & Hsz & Hin & Hle) Hpad.
  destruct (Nat.eq_dec (fs_totalRead_ (fileStream_ s)) (length bytes))
    as [Heq|Hne].
  - rewrite (@fs_eof_without_padding (fileStream_ s) bytes Hst).
    + split; [reflexivity|exact Heq].
    + lia.
    + destruct Hpad as [H|H]; [now left|right; lia].
  - destruct (@fs_nextBuffer_data (fileStream_ s) bytes Hst) as [_ ->];
      [lia|lia|].
    cbn [data fs_fileStream_ fs_bufferSize_ fs_padding_ fs_totalRead_].
    unfold unread. cbn [fs_totalRead_].
    split; [apply skipn_read|]. repeat split; try assumption.
    rewrite stream_read_length. lia.
Qed.


Lemma after_feed_fields (s0 : producer) (fb : StreamBuffer) (st' : cstate C)
    (k : nat) (out : list byte) :
  let s1 := after_feed s0 fb st' k out in
  finished_ s1 = finished_ s0 /\ bufferSize_ s1 = bufferSize_ s0 /\
  fileStream_ s1 = fileStream_ s0 /\
  zStream_ s1 =
    mk_z_stream C (Some st') (next_in (zStream_ s0) + k)
                (avail_in (zStream_ s0) - k) (next_out (zStream_ s0) ++ out)
                (avail_out (zStream_ s0) - length out) /\
  fileBuffer_ s1 =
    if Nat.eqb (avail_in (zStream_ s0) - k) 0 then fileBuffer_ s0 else Some fb.
Proof.
  unfold after_feed. cbv zeta.
  destruct (Nat.eqb (avail_in (zStream_ s0) - k) 0); repeat split.
Qed.

Lemma running_same (s s' : producer) :
  finished_ s' = finished_ s -> bufferSize_ s' = bufferSize_ s ->
  fs_fileStream_ (fileStream_ s') = fs_fileStream_ (fileStream_ s) ->
  fs_bufferSize_ (fileStream_ s') = fs_bufferSize_ (fileStream_ s) ->
  fs_totalRead_ (fileStream_ s') <= length bytes ->
  running bytes inSize outSize s -> running bytes inSize outSize s'.
Proof.
  intros H1 H2 H3 H4 H5 (R1 & R2 & R3 & R4 & R5 & R6 & R7).
  unfold running. rewrite H1, H2, H3, H4. repeat split; assumption.
Qed.

(** The input a turn works on, when there is any, together with what is
    still unread, is what was pending and unread before the turn. *)
Lemma zl_input_accounts (s s0 : producer) (fb : StreamBuffer)
    (fl : FlushMode) (evs0 : list Event) :
  running bytes inSize outSize s -> no_padding_due bytes s -> leftover_ok s ->
  zl_input s Z_NO_FLUSH = (Some fb, s0, fl, evs0) ->
  pending_input s ++ unread bytes (fileStream_ s)
    = deflate_input (zStream_ s0) (Some fb) ++ unread bytes (fileStream_ s0) /\
  running bytes inSize outSize s0 /\ no_padding_due bytes s0.
Proof.
  intros Hrun Hpad Hleft Hinput.
  destruct (@zl_input_shape s Z_NO_FLUSH Hleft)
    as (fbo & s0' & fl1 & evs0' & Hinput' & Hfin & Hbs & _ & _ & _ & _ & Hcase).
  rewrite Hinput in Hinput'. injection Hinput' as <- <- <- <-.
  destruct Hcase as (_ & Hpos & Hle & [(Hfb & Hfs & Hz)|(Hfb & Hpull & Hn & Ha)]).
  - unfold pending_input. rewrite Hfb, Hfs, Hz. split; [reflexivity|].
    split.
    + apply (@running_same s s0); try assumption; try (now rewrite Hfs).
      rewrite Hfs. apply Hrun.
    + unfold no_padding_due in *. now rewrite Hfs.
  - pose proof (@fs_nextBuffer_unread s Hrun Hpad) as Hun. rewrite Hpull in Hun.
    destruct Hun as (Hun & F1 & F2 & F3 & F4).
    unfold pending_input. rewrite Hfb. cbn [app]. rewrite Hun.
    unfold deflate_input. cbn [buffer_memory]. rewrite Hn, Ha.
    cbn [skipn]. rewrite firstn_all. split; [reflexivity|].
    destruct Hrun as (R1 & R2 & R3 & R4 & R5 & R6 & R7). split.
    + unfold running. rewrite Hfin, Hbs, F1, F2. repeat split; assumption.
    + unfold no_padding_due in *. now rewrite F3.
Qed.


Lemma pending_after_feed (s0 : producer) (fb : StreamBuffer) (st' : cstate C)
    (k : nat) (out : list byte) :
  fileBuffer_ s0 = None -> k <= avail_in (zStream_ s0) ->
  next_in (zStream_ s0) + avail_in (zStream_ s0) <= length (data fb) ->
  pending_input (after_feed s0 fb st' k out)
    = skipn k (deflate_input (zStream_ s0) (Some fb)) /\
  leftover_ok (after_feed s0 fb st' k out).
Proof.
  intros Hfb Hk Hle.
  destruct (after_feed_fields s0 fb st' k out) as (_ & _ & _ & Hz & Hb).
  unfold pending_input, leftover_ok. rewrite Hb, Hz, Hfb.
  destruct (Nat.eqb (avail_in (zStream_ s0) - k) 0) eqn:E.
  - apply Nat.eqb_eq in E. split; [|exact I].
    symmetry. apply skipn_all2. unfold deflate_input.
    rewrite length_firstn. lia.
  - apply Nat.eqb_neq in E. cbn [next_in avail_in]. split; [|lia].
    unfold deflate_input. cbn [buffer_memory next_in avail_in].
    apply deflate_input_advance.
Qed.

Lemma feeding_turn (s : producer) (i o : list byte) :
  feeding K bytes inSize outSize s i o -> at_loop_head outSize s ->
  exists s1 fl res out evs,
    zl_feed s Z_NO_FLUSH = Fed s1 fl res (length out) evs /\
    next_out (zStream_ s1) = out /\
    potential K bytes s1 + length out <= potential K bytes s /\
    ((fl = Z_NO_FLUSH /\ res = Z_OK /\
      (exists i', feeding K bytes inSize outSize s1 i' (o ++ out)) /\
      avail_out (zStream_ s1) = outSize - length out /\
      (out = [] -> remaining bytes s1 < remaining bytes s)) \/
     (fl = Z_FINISH /\ 0 < length out /\
      ((res = Z_OK /\ finishing K bytes inSize outSize s1 (o ++ out)) \/
       (res = Z_STREAM_END /\ finished_ s1 = false /\
        c_inflate C w (o ++ out) = Some bytes)))).
Proof.
  intros ((Hrun & Hleft & st & Hst & Hrep) & Hpad & Hdata) (Hao & Hno).
  destruct (@zl_input_shape s Z_NO_FLUSH Hleft)
    as (fbo & s0 & fl1 & evs0 & Hinput & Hfin & Hbs & Hfb0 & Hst0 & Hao0
        & Hno0 & Hcase).
  pose proof Hrun as (R1 & R2 & R3 & R4 & R5 & R6 & R7).
  rewrite Hst in Hst0. rewrite Hao in Hao0. rewrite Hno in Hno0.
  destruct fbo as [fb|].
  - (* there is input *)
    destruct Hcase as (-> & Hpos & Hle & _).
    destruct (@zl_input_accounts s s0 fb Z_NO_FLUSH evs0 Hrun Hpad Hleft Hinput)
      as (Hacc & Hrun0 & Hpad0).
    destruct (@zl_feed_compresses s s0 fb evs0 st i o Hinput Hst0 Hrep Hpos Hle)
      as (st' & k & out & evs & Hfeed & Hk & Hout & Hall & Hrep' & Howed);
      [lia|].
    rewrite Hao0, Hbs, R2 in Hfeed. rewrite Hao0 in Hout, Hall.
    replace (outSize - (outSize - length out)) with (length out) in Hfeed
      by lia.
    destruct (after_feed_fields s0 fb st' k out) as (F1 & F2 & F3 & F4 & F5).
    destruct (@pending_after_feed s0 fb st' k out Hfb0 Hk Hle) as [Hpend Hleft1].
    destruct (@deflate_input_nonempty (zStream_ s0) fb Hpos Hle) as [Hlen _].
    set (s1 := after_feed s0 fb st' k out) in *.
    set (input := deflate_input (zStream_ s0) (Some fb)) in *.
    assert (Hrem : remaining bytes s = length input + length (unread bytes (fileStream_ s0))).
    { unfold remaining. rewrite <- !length_app. now rewrite Hacc. }
    assert (Hrem1 : remaining bytes s1
                    = length input - k + length (unread bytes (fileStream_ s0))).
    { unfold remaining. now rewrite Hpend, length_skipn, F3. }
    exists s1, Z_NO_FLUSH, Z_OK, out, evs.
    split; [exact Hfeed|]. split; [now rewrite F4, Hno0|]. split.
    + unfold potential. fold (remaining bytes s) (remaining bytes s1).
      rewrite Hrem, Hrem1, F4, Hst. cbn [state]. nia.
    + left. split; [reflexivity|]. split; [reflexivity|]. split; [|split].
      * exists (i ++ firstn k input). split; [split; [|split]|split].
        -- apply (@running_same s0 s1); try assumption; try (now rewrite F3).
           rewrite F3. apply Hrun0.
        -- exact Hleft1.
        -- exists st'. now rewrite F4.
        -- unfold no_padding_due in *. now rewrite F3.
        -- rewrite Hpend, F3, <- app_assoc, (app_assoc (firstn k input)),
             firstn_skipn, <- Hacc. exact Hdata.
      * now rewrite F4, Hao0.
      * intros ->. cbn [length] in Hall. rewrite Hrem, Hrem1. lia.
  - (* the file is exhausted: finish *)
    destruct Hcase as (-> & Hin0 & Hfb & Hpull).
    pose proof (@fs_nextBuffer_unread s Hrun Hpad) as Hun. rewrite Hpull in Hun.
    destruct Hun as [Hfs Heof].
    assert (Hi : i = bytes).
    { unfold pending_input in Hdata. rewrite Hfb in Hdata. unfold unread in Hdata.
      rewrite Heof, skipn_all, !app_nil_r in Hdata. exact Hdata. }
    subst i.
    destruct (@zl_feed_finishes s s0 Z_NO_FLUSH evs0 st bytes o false Hinput
                Hst0 Hrep Hin0)
      as (res & st' & out & evs & Hfeed & Hpos & Hout & Howed & Hres); [lia|].
    specialize (Hpos eq_refl).
    rewrite Hao0, Hbs, R2 in Hfeed. rewrite Hao0 in Hout.
    replace (outSize - (outSize - length out)) with (length out) in Hfeed
      by lia.
    eexists _, Z_FINISH, res, out, evs.
    split; [exact Hfeed|].
    split; [cbn [set_zStream zStream_ next_out]; now rewrite Hno0|].
    split.
    + unfold potential, pending_input, unread.
      cbn [set_zStream zStream_ state fileBuffer_ fileStream_].
      rewrite Hfb0, Hfb, Hst, Hfs, Heof, skipn_all. cbn [length]. lia.
    + right. split; [reflexivity|]. split; [exact Hpos|].
      destruct Hres as [(-> & _ & Hrep')|(-> & Hinf & _)].
      * left. split; [reflexivity|].
        unfold finishing.
        cbn [set_zStream zStream_ state fileBuffer_ fileStream_ finished_
             bufferSize_].
        split; [|split; [|split; [exact Hfb0|split]]].
        -- unfold running.
           cbn [set_zStream zStream_ state fileBuffer_ fileStream_ finished_
                bufferSize_].
           rewrite Hfin, Hbs, Hfs. exact Hrun.
        -- unfold no_padding_due in *. cbn [set_zStream fileStream_].
           now rewrite Hfs.
        -- now rewrite Hfs.
        -- now exists st'.
      * right. split; [reflexivity|]. split; [|exact Hinf].
        cbn [set_zStream finished_]. now rewrite Hfin.
Qed.


Lemma feeding_loop (fuel : nat) :
  forall (s : producer) (i o : list byte) (trace : list Event),
    feeding K bytes inSize outSize s i o -> at_loop_head outSize s ->
    remaining bytes s < fuel ->
    exists p out,
      zl_loop fuel s Z_NO_FLUSH trace = Some p /\
      p_buffer p = Some (mkStreamBuffer out (length out)) /\
      0 < length out /\
      potential K bytes (p_state p) + length out <= potential K bytes s /\
      ((exists i', feeding K bytes inSize outSize (p_state p) i' (o ++ out)) \/
       finishing K bytes inSize outSize (p_state p) (o ++ out) \/
       ended w bytes (p_state p) (o ++ out)).
Proof.
  induction fuel as [|fuel IH]; intros s i o trace Hfeed Hhead Hfuel; [lia|].
  destruct (@feeding_turn s i o Hfeed Hhead)
    as (s1 & fl & res & out & evs & Hturn & Hout & Hpot & Hcase).
  cbn [zl_loop]. rewrite Hturn.
  destruct Hcase as [(-> & -> & [i' Hfeed1] & Hao & Hrem)
                    |(-> & Hpos & Hres)].
  - destruct out as [|b out].
    + cbn [length Nat.eqb]. rewrite app_nil_r in Hfeed1.
      destruct (IH s1 i' o (trace ++ evs) Hfeed1) as (p & out' & H1 & H2 & H3 & H4 & H5).
      * split; [rewrite Hao; cbn [length]; lia|exact Hout].
      * specialize (Hrem eq_refl). lia.
      * exists p, out'. repeat split; try assumption. cbn [length] in Hpot. lia.
    + cbn [length Nat.eqb zcode_eqb zcode_value Z.eqb].
      eexists _, (b :: out). split; [reflexivity|].
      cbn [p_buffer p_state]. rewrite Hout.
      split; [reflexivity|]. split; [cbn [length]; lia|].
      split; [exact Hpot|]. left. now exists i'.
  - destruct (Nat.eqb (length out) 0) eqn:E;
      [apply Nat.eqb_eq in E; lia|].
    destruct Hres as [[-> Hfin]|(-> & Hfin & Hinf)].
    + cbn [zcode_eqb zcode_value Z.eqb].
      eexists _, out. split; [reflexivity|].
      cbn [p_buffer p_state]. rewrite Hout.
      repeat split; try assumption. right. now left.
    + cbn [zcode_eqb zcode_value Z.eqb].
      eexists _, out. split; [reflexivity|].
      cbn [p_buffer p_state]. rewrite Hout.
      repeat split; try assumption. right. right.
      split; [reflexivity|exact Hinf].
Qed.

Lemma feeding_new_output (s : producer) (i o : list byte) :
  feeding K bytes inSize outSize s i o ->
  feeding K bytes inSize outSize (new_output s) i o /\
  at_loop_head outSize (new_output s) /\
  potential K bytes (new_output s) = potential K bytes s /\
  remaining bytes (new_output s) <= length bytes.
Proof.
  intros Hfeed.
  pose proof Hfeed as ((Hrun & Hleft & Hst) & Hpad & Hdata).
  assert (Hp : pending_input (new_output s) = pending_input s) by reflexivity.
  split; [|split; [|split]].
  - exact Hfeed.
  - split; [apply Hrun|reflexivity].
  - reflexivity.
  - unfold remaining. rewrite Hp.
    apply (f_equal (@length byte)) in Hdata. rewrite !length_app in Hdata.
    cbn [new_output set_zStream fileStream_]. lia.
Qed.

Lemma feeding_pull (s : producer) (i o : list byte) (fuel : nat) :
  feeding K bytes inSize outSize s i o -> length bytes < fuel ->
  exists p out,
    zl_nextBuffer fuel s = Some p /\
    p_buffer p = Some (mkStreamBuffer out (length out)) /\
    0 < length out /\
    potential K bytes (p_state p) + length out <= potential K bytes s /\
    ((exists i', feeding K bytes inSize outSize (p_state p) i' (o ++ out)) \/
     finishing K bytes inSize outSize (p_state p) (o ++ out) \/
     ended w bytes (p_state p) (o ++ out)).
Proof.
  intros Hfeed Hfuel.
  destruct (feeding_new_output Hfeed) as (Hfeed' & Hhead & Hpot & Hrem).
  unfold zl_nextBuffer.
  replace (finished_ s) with false by (symmetry; apply Hfeed).
  rewrite <- Hpot. apply (@feeding_loop fuel (new_output s) i o []);
    [exact Hfeed'|exact Hhead|lia].
Qed.


Lemma finishing_pull (s : producer) (o : list byte) (fuel : nat) :
  finishing K bytes inSize outSize s o -> 0 < fuel ->
  (exists p out,
     zl_nextBuffer fuel s = Some p /\
     p_buffer p = Some (mkStreamBuffer out (length out)) /\
     0 < length out /\
     potential K bytes (p_state p) + length out <= potential K bytes s /\
     (finishing K bytes inSize outSize (p_state p) (o ++ out) \/
      ended w bytes (p_state p) (o ++ out))) \/
  (c_inflate C w o = Some bytes /\
   forall fuel', zl_nextBuffer fuel' s = None).
Proof.
  intros (Hrun & Hpad & Hfb & Heof & st & Hst & Hrep) Hfuel.
  pose proof Hrun as (R1 & R2 & R3 & R4 & R5 & R6 & R7).
  assert (Hfs : fs_nextBuffer (fileStream_ s) = (None, fileStream_ s)).
  { apply (@fs_eof_without_padding (fileStream_ s) bytes R4);
      [lia|destruct Hpad as [H|H]; [now left|right; lia]]. }
  assert (Hinput : zl_input (new_output s) Z_NO_FLUSH =
            (None,
             set_zStream (new_output s) (set_avail_in (zStream_ (new_output s)) 0),
             Z_FINISH, [EvFetch None])).
  { unfold zl_input. cbn [new_output set_zStream fileBuffer_ fileStream_].
    rewrite Hfb, Hfs.
    cbn [set_fileStream set_zStream zStream_]. now destruct s. }
  destruct (@zl_feed_finishes (new_output s) _ Z_NO_FLUSH _ st bytes o true
              Hinput Hst Hrep eq_refl)
    as (res & st' & out & evs & Hfeed & _ & Hout & Howed & Hres).
  { cbn. rewrite R2. exact R3. }
  cbn [new_output set_zStream zStream_ set_avail_in set_output avail_out
       next_out bufferSize_ next_in app] in Hfeed, Hout, Hres.
  rewrite R2 in Hfeed, Hout, Hres.
  replace (outSize - (outSize - length out)) with (length out) in Hfeed by lia.
  assert (Hp0 : potential K bytes s = owed K st).
  { unfold potential, pending_input, unread.
    rewrite Hst, Hfb, Heof, skipn_all. cbn [length]. lia. }
  destruct (Nat.eqb (length out) 0) eqn:E.
  - (* nothing written: the stream has ended, and the loop goes on *)
    apply Nat.eqb_eq in E. right.
    destruct Hres as [(_ & Hfull & _)|(-> & Hinf & Hend)]; [lia|].
    destruct out; [|discriminate]. rewrite app_nil_r in Hinf.
    split; [exact Hinf|]. intros fuel'.
    unfold zl_nextBuffer. rewrite R1.
    destruct fuel' as [|fuel']; [reflexivity|].
    cbn [zl_loop]. rewrite Hfeed. cbn [length Nat.eqb].
    apply (@zl_loop_ended C fuel' _ Z_FINISH _ st').
    + cbn [new_output set_zStream fileBuffer_]. exact Hfb.
    + cbn [new_output set_zStream fileStream_]. exact Hfs.
    + reflexivity.
    + exact Hend.
    + cbn [new_output set_zStream zStream_ avail_out bufferSize_ length].
      rewrite R2. lia.
    + cbn [new_output set_zStream bufferSize_]. now rewrite R2.
  - apply Nat.eqb_neq in E. left.
    destruct fuel as [|fuel]; [lia|].
    unfold zl_nextBuffer. rewrite R1. cbn [zl_loop]. rewrite Hfeed.
    apply Nat.eqb_neq in E. rewrite E. apply Nat.eqb_neq in E.
    destruct Hres as [(-> & _ & Hrep')|(-> & Hinf & _)];
      [change (zcode_eqb Z_OK Z_STREAM_END) with false
      |change (zcode_eqb Z_STREAM_END Z_STREAM_END) with true];
      cbv iota; eexists _, out; (split; [reflexivity|]);
      cbn [p_buffer p_state set_zStream zStream_ next_out];
      (split; [reflexivity|]); (split; [lia|]); split.
    + rewrite Hp0. unfold potential, pending_input, unread.
      cbn [new_output set_zStream set_avail_in set_output zStream_ state
           fileBuffer_ fileStream_].
      rewrite Hfb, Heof, skipn_all. cbn [length]. lia.
    + left. unfold finishing, running, no_padding_due.
      cbn [new_output set_zStream set_avail_in set_output zStream_ state
           fileBuffer_ fileStream_ finished_ bufferSize_].
      repeat split; try assumption. now exists st'.
    + rewrite Hp0. unfold potential, pending_input, unread.
      cbn [new_output set_finished set_zStream set_avail_in set_output zStream_
           state fileBuffer_ fileStream_].
      rewrite Hfb, Heof, skipn_all. cbn [length]. lia.
    + right. split; [reflexivity|exact Hinf].
Qed.

Lemma payload_cons (out : list byte) (bufs : list StreamBuffer) :
  payload (mkStreamBuffer out (length out) :: bufs) = out ++ payload bufs.
Proof. unfold payload. cbn. now rewrite firstn_all. Qed.

Lemma runs_out_nil (fuel : nat) (s : producer) :
  finished_ s = true \/ (forall fuel', zl_nextBuffer fuel' s = None) ->
  runs_out fuel s [].
Proof. intros H. now exists s. Qed.

Lemma runs_out_cons (fuel : nat) (s : producer) (p : Pull C)
    (b : StreamBuffer) (bufs : list StreamBuffer) :
  zl_nextBuffer fuel s = Some p -> p_buffer p = Some b ->
  runs_out fuel (p_state p) bufs -> runs_out fuel s (b :: bufs).
Proof.
  intros Hp Hb (s' & Hrest & Hover). exists s'. split; [|exact Hover].
  cbn [length map zl_pulls]. now rewrite Hp, Hrest, Hb.
Qed.

(** A producer that is feeding or finishing hands out finitely many more
    buffers, and what they carry completes the output to one that inflates to
    the file. *)
Lemma drain (m : nat) :
  (forall (s : producer) i o,
     feeding K bytes inSize outSize s i o -> potential K bytes s <= m ->
     exists bufs, runs_out (S (length bytes)) s bufs /\
                  c_inflate C w (o ++ payload bufs) = Some bytes) /\
  (forall (s : producer) o,
     finishing K bytes inSize outSize s o -> potential K bytes s <= m ->
     exists bufs, runs_out (S (length bytes)) s bufs /\
                  c_inflate C w (o ++ payload bufs) = Some bytes).
Proof.
  assert (Hended : forall (s : producer) o, ended w bytes s o ->
            exists bufs, runs_out (S (length bytes)) s bufs /\
                         c_inflate C w (o ++ payload bufs) = Some bytes).
  { intros s o [Hfin Hinf]. exists [].
    split; [apply runs_out_nil; now left|]. now rewrite app_nil_r. }
  assert (Hstuck : forall (s : producer) o,
            c_inflate C w o = Some bytes ->
            (forall fuel', zl_nextBuffer fuel' s = None) ->
            exists bufs, runs_out (S (length bytes)) s bufs /\
                         c_inflate C w (o ++ payload bufs) = Some bytes).
  { intros s o Hinf Hnone. exists [].
    split; [apply runs_out_nil; now right|]. now rewrite app_nil_r. }
  assert (Hnext : forall (s : producer) p out o,
            zl_nextBuffer (S (length bytes)) s = Some p ->
            p_buffer p = Some (mkStreamBuffer out (length out)) ->
            (exists bufs, runs_out (S (length bytes)) (p_state p) bufs /\
                          c_inflate C w ((o ++ out) ++ payload bufs)
                            = Some bytes) ->
            exists bufs, runs_out (S (length bytes)) s bufs /\
                         c_inflate C w (o ++ payload bufs) = Some bytes).
  { intros s p out o Hp Hb (bufs & Hex & Hinf).
    exists (mkStreamBuffer out (length out) :: bufs).
    split; [now apply (@runs_out_cons _ s p _ bufs Hp Hb)|].
    now rewrite payload_cons, app_assoc. }
  induction m as [|m [IHfeed IHfin]].
  - split.
    + intros s i o Hfeed Hpot.
      destruct (@feeding_pull s i o (S (length bytes)) Hfeed)
        as (p & out & _ & _ & Hpos & Hle & _); lia.
    + intros s o Hfin Hpot.
      destruct (@finishing_pull s o (S (length bytes)) Hfin)
        as [(p & out & _ & _ & Hpos & Hle & _)|[Hinf Hnone]]; [lia|lia|].
      now apply Hstuck.
  - split.
    + intros s i o Hfeed Hpot.
      destruct (@feeding_pull s i o (S (length bytes)) Hfeed)
        as (p & out & Hp & Hb & Hpos & Hle & Hcase); [lia|].
      apply (Hnext s p out o Hp Hb).
      destruct Hcase as [[i' H]|[H|H]].
      * apply (IHfeed _ _ _ H). lia.
      * apply (IHfin _ _ H). lia.
      * now apply Hended.
    + intros s o Hfin Hpot.
      destruct (@finishing_pull s o (S (length bytes)) Hfin)
        as [(p & out & Hp & Hb & Hpos & Hle & Hcase)|[Hinf Hnone]]; [lia| |].
      * apply (Hnext s p out o Hp Hb).
        destruct Hcase as [H|H].
        -- apply (IHfin _ _ H). lia.
        -- now apply Hended.
      * now apply Hstuck.
Qed.


Lemma padded_turn (s : producer) :
  padded_run K outSize s -> at_loop_head outSize s ->
  exists s1 out evs,
    zl_feed s Z_NO_FLUSH = Fed s1 Z_NO_FLUSH Z_OK (length out) evs /\
    next_out (zStream_ s1) = out /\
    avail_out (zStream_ s1) = outSize - length out /\
    padded_run K outSize s1.
Proof.
  intros (Hfin & Hbs & Hpos & Hleft & Hshort & st & i & o & Hst & Hrep)
         (Hao & Hno).
  destruct (@zl_input_shape s Z_NO_FLUSH Hleft)
    as (fbo & s0 & fl1 & evs0 & Hinput & Hfin0 & Hbs0 & Hfb0 & Hst0 & Hao0
        & Hno0 & Hcase).
  rewrite Hst in Hst0. rewrite Hao in Hao0. rewrite Hno in Hno0.
  destruct (padded_short_pull Hshort) as (b & fs' & Hpull & _ & _ & Hshort').
  destruct fbo as [fb|].
  - destruct Hcase as (-> & Hin & Hle & Hsrc).
    destruct (@zl_feed_compresses s s0 fb evs0 st i o Hinput Hst0 Hrep Hin Hle)
      as (st' & k & out & evs & Hfeed & Hk & Hout & Hall & Hrep' & Howed);
      [lia|].
    rewrite Hao0, Hbs0, Hbs in Hfeed. rewrite Hao0 in Hout.
    replace (outSize - (outSize - length out)) with (length out) in Hfeed
      by lia.
    destruct (after_feed_fields s0 fb st' k out) as (F1 & F2 & F3 & F4 & F5).
    destruct (@pending_after_feed s0 fb st' k out Hfb0 Hk Hle) as [_ Hleft1].
    exists (after_feed s0 fb st' k out), out, evs.
    split; [exact Hfeed|]. split; [now rewrite F4, Hno0|].
    split; [now rewrite F4, Hao0|].
    unfold padded_run. rewrite F1, F2, F3, F4, Hfin0, Hbs0.
    repeat split; try assumption.
    + destruct Hsrc as [(_ & -> & _)|(_ & Hpull' & _)]; [exact Hshort|].
      rewrite Hpull in Hpull'. now injection Hpull' as _ <-.
    + eexists _, _, _. split; [reflexivity|exact Hrep'].
  - destruct Hcase as (_ & _ & _ & Hpull'). rewrite Hpull in Hpull'.
    discriminate.
Qed.

Lemma padded_loop (fuel : nat) :
  forall (s : producer) (trace : list Event) (p : Pull C),
    padded_run K outSize s -> at_loop_head outSize s ->
    zl_loop fuel s Z_NO_FLUSH trace = Some p ->
    p_buffer p <> None /\ padded_run K outSize (p_state p).
Proof.
  induction fuel as [|fuel IH]; intros s trace p Hrun Hhead; cbn [zl_loop];
    [discriminate|].
  destruct (@padded_turn s Hrun Hhead)
    as (s1 & out & evs & -> & Hout & Hao & Hrun1).
  destruct out as [|b out]; cbn [length Nat.eqb].
  - apply IH; [exact Hrun1|].
    split; [rewrite Hao; cbn [length]; lia|exact Hout].
  - change (zcode_eqb Z_OK Z_STREAM_END) with false. cbv iota.
    intros H. injection H as <-. cbn [p_buffer p_state].
    split; [discriminate|exact Hrun1].
Qed.

Lemma padded_pull (fuel : nat) (s : producer) (p : Pull C) :
  padded_run K outSize s -> zl_nextBuffer fuel s = Some p ->
  p_buffer p <> None /\ padded_run K outSize (p_state p).
Proof.
  intros Hrun. unfold zl_nextBuffer.
  replace (finished_ s) with false by (symmetry; apply Hrun).
  apply padded_loop.
  - exact Hrun.
  - split; [apply Hrun|reflexivity].
Qed.

(** A compressing producer on a short file with padding on never returns an
    empty result. *)
Lemma padded_never_empty (fuel n : nat) :
  forall (s s' : producer) (rs : list (option StreamBuffer)),
    padded_run K outSize s -> zl_pulls fuel n s = Some (rs, s') ->
    Forall (fun r => r <> None) rs.
Proof.
  induction n as [|n IH]; intros s s' rs Hrun; cbn [zl_pulls].
  - intros H. injection H as <- _. constructor.
  - destruct (zl_nextBuffer fuel s) as [p|] eqn:Hp; [|discriminate].
    destruct (@padded_pull fuel s p Hrun Hp) as [Hb Hrun'].
    destruct (zl_pulls fuel n (p_state p)) as [[rs' s'']|] eqn:Hrest;
      [|discriminate].
    intros H. injection H as <- _. constructor; [exact Hb|].
    now apply (IH (p_state p) s'').
Qed.

Lemma padded_never_exhausts (fuel : nat) (s : producer)
    (bufs : list StreamBuffer) :
  padded_run K outSize s -> ~ exhausts fuel s bufs.
Proof.
  intros Hrun [s' H].
  pose proof (@padded_never_empty fuel _ s s' _ Hrun H) as Hall.
  apply Forall_app in Hall as [_ Hall].
  inversion Hall as [|x l Hx _]. now apply Hx.
Qed.

End Run.

Section Initialised.

Variable C : Compressor.
Variable systemError : Z -> string -> Error.

Lemma zl_initialize_success (t : CompressionType)
    (K : DeflateContract C (windowBits t)) (file : FilePath)
    (bytes : list byte) (inSize outSize : nat) (padding : bool)
    (s0 : ZlibCompressionStreamResponse C) :
  openForRead file = inr bytes ->
  zl_initialize systemError
    (newZlibCompressionStreamResponse C
       (newFileStreamResponse file inSize padding) outSize t) = (None, s0) ->
  exists st,
    Rep K st [] [] false /\
    s0 = mkZlib (mkFileStream file (Some bytes) inSize padding 0) outSize t
                (mk_z_stream C (Some st) 0 0 [] 0) None false.
Proof.
  intros Hopen. unfold zl_initialize, fs_initialize.
  cbn [newZlibCompressionStreamResponse newFileStreamResponse fileStream_
       fs_file_ compressionType_ fs_bufferSize_ fs_padding_ fs_totalRead_].
  rewrite Hopen.
  destruct (c_deflateInit2 C Z_BEST_COMPRESSION (windowBits t)
                           kDefaultMemoryUsage) as [res sto] eqn:Hinit.
  destruct (zcode_eqb res Z_OK) eqn:Hres; [|discriminate].
  apply zcode_eqb_eq in Hres.
  destruct (rep_init K _ _ Hinit Hres) as (st & -> & Hrep).
  intros H. injection H as <-. exists st. split; [exact Hrep|reflexivity].
Qed.

End Initialised.

(** ** The stored compressor keeps the contract *)

Lemma strip_prefix_app (p l : list byte) :
  Stored.strip_prefix p (p ++ l) = Some l.
Proof.
  induction p as [|x p IH]; cbn; [reflexivity|].
  now rewrite (Byte.byte_dec_lb eq_refl).
Qed.

Lemma Stored_inflate_framed (w : Z) (i : list byte) :
  Stored.inflate w (Stored.header w ++ i ++ Stored.trailer) = Some i.
Proof.
  unfold Stored.inflate. rewrite strip_prefix_app.
  rewrite length_app, Nat.add_sub.
  rewrite skipn_app, skipn_all, Nat.sub_diag. cbn [app skipn].
  change (Stored.bytes_eqb Stored.trailer Stored.trailer) with true.
  cbv iota. rewrite firstn_app, firstn_all, Nat.sub_diag. cbn [firstn].
  now rewrite app_nil_r.
Qed.

Lemma list_case_nonempty (A B : Type) (l : list A) (a b : B) :
  l <> [] -> match l with [] => a | _ :: _ => b end = b.
Proof. destruct l; [contradiction|reflexivity]. Qed.

Lemma Stored_feed (w : Z) (st : Stored.st) (i o inp : list byte) (room : nat)
    (res : ZCode) (st' : Stored.st) (k : nat) (out : list byte) :
  Stored_Rep w st i o false -> inp <> [] -> 0 < room ->
  Stored.step st inp room Z_NO_FLUSH = (res, st', k, out) ->
  res = Z_OK /\ k <= length inp /\ length out <= room /\
  (length out < room -> k = length inp) /\
  Stored_Rep w st' (i ++ firstn k inp) (o ++ out) false /\
  Stored_owed st' + length out <= Stored_owed st + 1 * k.
Proof.
  intros Hrep Hne Hroom. unfold Stored.step.
  destruct st as [pend ph]. unfold Stored_Rep in Hrep.
  cbn [Stored.pend Stored.ph] in *.
  destruct ph; [|destruct Hrep; discriminate|destruct Hrep; discriminate].
  rename Hrep into Hdata.
  assert (Hlen : length (firstn room (pend ++ inp))
                 = Nat.min room (length pend + length inp)).
  { now rewrite length_firstn, length_app. }
  rewrite list_case_nonempty.
  2:{ intros E. rewrite E in Hlen. cbn [length] in Hlen.
      destruct inp; [contradiction|]. cbn [length] in Hlen. lia. }
  intros H. injection H as <- <- <- <-.
  split; [reflexivity|]. split; [lia|]. split; [lia|]. split; [lia|].
  unfold Stored_Rep, Stored_owed. cbn [Stored.pend Stored.ph].
  rewrite length_skipn. split; [|lia].
  rewrite Hlen, firstn_app.
  destruct (Nat.le_ge_cases room (length pend)) as [Hle|Hge].
  - replace (room - length pend) with 0 by lia.
    replace (Nat.min room (length pend + length inp) - length pend) with 0
      by lia.
    cbn [firstn]. rewrite !app_nil_r, <- app_assoc, firstn_skipn. exact Hdata.
  - rewrite (firstn_all2 pend) by exact Hge.
    rewrite (skipn_all2 pend) by exact Hge. rewrite app_nil_r.
    replace (firstn (Nat.min room (length pend + length inp) - length pend) inp)
      with (firstn (room - length pend) inp).
    + now rewrite !app_assoc, Hdata.
    + destruct (Nat.le_ge_cases (room - length pend) (length inp)).
      * f_equal. lia.
      * rewrite !firstn_all2; [reflexivity|lia|lia].
Qed.

Lemma Stored_ended : @stream_ended Stored.codec (Stored.mk [] Stored.Closed).
Proof. intros room _. reflexivity. Qed.

Lemma Stored_finish (w : Z) (st : Stored.st) (i o : list byte) (fin : bool)
    (room : nat) (res : ZCode) (st' : Stored.st) (k : nat) (out : list byte) :
  Stored_Rep w st i o fin -> 0 < room ->
  Stored.step st [] room Z_FINISH = (res, st', k, out) ->
  length out <= room /\
  Stored_owed st' + length out <= Stored_owed st /\
  (fin = false -> 0 < length out) /\
  ((res = Z_OK /\ length out = room /\ Stored_Rep w st' i (o ++ out) true) \/
   (res = Z_STREAM_END /\ Stored.inflate w (o ++ out) = Some i /\
    @stream_ended Stored.codec st')).
Proof.
  intros Hrep Hroom. unfold Stored.step.
  destruct st as [pend ph]. unfold Stored_Rep in Hrep.
  cbn [Stored.pend Stored.ph] in *.
  destruct ph.
  - (* the finish has not been taken up yet *)
    destruct room as [|room]; [lia|].
    destruct (Nat.leb (S room) (length pend)) eqn:Hfill.
    + apply Nat.leb_le in Hfill.
      assert (Hlen : length (firstn (S room) pend) = S room)
        by (rewrite length_firstn; lia).
      pose proof (length_skipn (S room) pend) as Hrest.
      pose proof (firstn_skipn (S room) pend) as Hsplit.
      remember (firstn (S room) pend) as out0 eqn:Hout0.
      remember (skipn (S room) pend) as rest0 eqn:Hrest0.
      intros H. injection H as <- <- <- <-.
      rewrite Hlen. split; [lia|]. split.
      * unfold Stored_owed. cbn [Stored.pend Stored.ph]. lia.
      * split; [lia|]. left. split; [reflexivity|]. split; [reflexivity|].
        unfold Stored_Rep. cbn [Stored.pend Stored.ph].
        now rewrite <- app_assoc, Hsplit.
    + apply Nat.leb_gt in Hfill. cbn [app].
      set (all := pend ++ Stored.trailer).
      assert (Hall : length all = length pend + 2)
        by (unfold all; now rewrite length_app).
      assert (Hsplit : firstn (S room) all ++ skipn (S room) all = all)
        by apply firstn_skipn.
      assert (Hdata : o ++ all = Stored.header w ++ i ++ Stored.trailer).
      { unfold all. now rewrite !app_assoc, Hrep. }
      assert (Hout : length (firstn (S room) all) = Nat.min (S room) (length all))
        by apply length_firstn.
      assert (Hrest : length (skipn (S room) all) = length all - S room)
        by apply length_skipn.
      remember (firstn (S room) all) as out0 eqn:Hout0.
      remember (skipn (S room) all) as rest0 eqn:Hrest0.
      destruct rest0 as [|b rest]; intros H; injection H as <- <- <- <-;
        cbn [length] in *.
      * split; [lia|]. split.
        -- unfold Stored_owed. cbn [Stored.pend Stored.ph length].
           change (length Stored.trailer) with 2. lia.
        -- split; [lia|]. right. split; [reflexivity|].
           rewrite app_nil_r in Hsplit. rewrite Hsplit, Hdata.
           split; [apply Stored_inflate_framed|exact Stored_ended].
      * split; [lia|]. split.
        -- unfold Stored_owed. cbn [Stored.pend Stored.ph length].
           change (length Stored.trailer) with 2. lia.
        -- split; [lia|]. left. split; [reflexivity|]. split; [lia|].
           unfold Stored_Rep. cbn [Stored.pend Stored.ph].
           split; [reflexivity|]. now rewrite <- app_assoc, Hsplit.
  - (* the trailer is queued *)
    destruct Hrep as [-> Hdata].
    destruct room as [|room]; [lia|].
    destruct (Nat.leb (S room) (length pend)) eqn:Hfill.
    + apply Nat.leb_le in Hfill.
      assert (Hlen : length (firstn (S room) pend) = S room)
        by (rewrite length_firstn; lia).
      pose proof (length_skipn (S room) pend) as Hrest.
      pose proof (firstn_skipn (S room) pend) as Hsplit.
      remember (firstn (S room) pend) as out0 eqn:Hout0.
      remember (skipn (S room) pend) as rest0 eqn:Hrest0.
      destruct rest0 as [|b rest]; intros H; injection H as <- <- <- <-;
        rewrite Hlen; (split; [lia|]); (split;
          [unfold Stored_owed; cbn [Stored.pend Stored.ph length] in *; lia|]);
        (split; [discriminate|]); left; (split; [reflexivity|]);
        (split; [reflexivity|]); unfold Stored_Rep;
        cbn [Stored.pend Stored.ph].
      * rewrite app_nil_r in Hsplit. rewrite Hsplit.
        split; [reflexivity|]. split; [reflexivity|exact Hdata].
      * split; [reflexivity|]. now rewrite <- app_assoc, Hsplit.
    + apply Nat.leb_gt in Hfill.
      rewrite (skipn_all2 pend) by lia. rewrite (firstn_all2 pend) by lia.
      intros H. injection H as <- <- <- <-.
      split; [lia|]. split.
      * unfold Stored_owed. cbn [Stored.pend Stored.ph length]. lia.
      * split; [discriminate|]. right. split; [reflexivity|].
        rewrite Hdata. split; [apply Stored_inflate_framed|exact Stored_ended].
  - (* everything is out *)
    destruct Hrep as (-> & -> & ->).
    intros H. injection H as <- <- <- <-. cbn [length].
    split; [lia|]. split; [lia|]. split; [discriminate|].
    right. split; [reflexivity|]. rewrite app_nil_r.
    split; [apply Stored_inflate_framed|exact Stored_ended].
Qed.

Lemma Stored_contract (w : Z) : DeflateContract Stored.codec w.
Proof.
  refine (@mkContract Stored.codec w (Stored_Rep w) Stored_owed 1 _ _ _).
  - intros level mem res o H _. cbn in H. injection H as _ <-.
    eexists. split; [reflexivity|].
    unfold Stored_Rep. cbn. now rewrite app_nil_r.
  - intros st i o inp room res st' k out. apply Stored_feed.
  - intros st i o fin room res st' k out. apply Stored_finish.
Qed.

(** ** The round trip *)

Section RoundTrip.

Variable C : Compressor.
Variable systemError : Z -> string -> Error.

(** C1, as the code has it.  When no padding is due (padding is off, or
    the file has 1024 bytes or more), both chunk sizes are positive and the
    compressor follows the protocol of zlib's [deflate], the compressing
    producer returns finitely many buffers, and no pull after them returns a
    buffer: a later pull that returns gives the empty result and leaves the
    producer as it is.  The buffers, concatenated in pull order, inflate to
    the bytes of the file with the window bits the stream was opened with:
    31 for [Gzip], the gzip format, and 15 for [Deflate], which is the
    zlib-wrapped format and not raw deflate (raw deflate is asked for with
    negative window bits).  Whether a pull after the last buffer returns at
    all is not part of the statement. *)
Theorem C1_round_trip_when_no_padding_is_due
    (t : CompressionType) (K : DeflateContract C (windowBits t))
    (file : FilePath) (bytes : list byte) (inSize outSize : nat)
    (padding : bool) (s0 : ZlibCompressionStreamResponse C) :
  openForRead file = inr bytes ->
  0 < inSize -> 0 < outSize ->
  padding = false \/ 1024 <= length bytes ->
  zl_initialize systemError
    (newZlibCompressionStreamResponse C
       (newFileStreamResponse file inSize padding) outSize t) = (None, s0) ->
  exists fuel bufs s',
    zl_pulls fuel (length bufs) s0 = Some (map Some bufs, s') /\
    (forall fuel' p,
       zl_nextBuffer fuel' s' = Some p -> p_buffer p = None /\ p_state p = s') /\
    c_inflate C (windowBits t) (payload bufs) = Some bytes /\
    windowBits t = match t with Gzip => 31%Z | Deflate => 15%Z end.
Proof.
  intros Hopen Hin Hout Hpad Hinit.
  destruct (@zl_initialize_success C systemError t K file bytes inSize outSize
              padding s0 Hopen Hinit) as (st & Hrep & ->).
  set (s0 := mkZlib _ _ _ _ _ _).
  assert (Hfeed : feeding K bytes inSize outSize s0 [] []).
  { split; [split; [|split]|split].
    - unfold running. cbn. repeat split; try assumption. lia.
    - exact I.
    - now exists st.
    - exact Hpad.
    - reflexivity. }
  destruct (@drain C (windowBits t) K bytes inSize outSize
              (potential K bytes s0)) as [Hdrain _].
  destruct (Hdrain s0 [] [] Hfeed (Nat.le_refl _))
    as (bufs & (s' & Hrun & Hend) & Hinf).
  exists (S (length bytes)), bufs, s'.
  split; [exact Hrun|]. split; [|split; [exact Hinf|now destruct t]].
  intros fuel' p Hp. destruct Hend as [Hfin|Hnone].
  - unfold zl_nextBuffer in Hp. rewrite Hfin in Hp.
    injection Hp as <-. now split.
  - rewrite Hnone in Hp. discriminate.
Qed.

End RoundTrip.

Lemma C1_round_trip_when_no_padding_is_due_witness :
  let s0 := Sample.compressing Stored.codec Sample.hello 3 4 false Gzip in
  exists fuel bufs s',
    zl_pulls fuel (length bufs) s0 = Some (map Some bufs, s') /\
    (forall fuel' p,
       zl_nextBuffer fuel' s' = Some p -> p_buffer p = None /\ p_state p = s') /\
    Stored.inflate kGzipWindow (payload bufs) = Some Sample.hello /\
    windowBits Gzip = 31%Z.
Proof.
  apply (@C1_round_trip_when_no_padding_is_due Stored.codec Sample.systemError
           Gzip (Stored_contract _)
           (mkFilePath "/srv/file" (inr Sample.hello)) Sample.hello 3 4 false).
  - reflexivity.
  - lia.
  - lia.
  - left. reflexivity.
  - reflexivity.
Defined.

(** The same run, computed: six buffers of at most four bytes, then the
    empty result, and the payload inflates to the file. *)
Lemma round_trip_example :
  option_map fst
    (zl_pulls 6 4 (Sample.compressing Stored.codec Sample.hello 3 4 false Gzip))
  = Some [Some (mkStreamBuffer [x1f; x8b; x68; x65] 4);
          Some (mkStreamBuffer [x6c] 1);
          Some (mkStreamBuffer [x6c; x6f] 2);
          Some (mkStreamBuffer [x00; xff] 2)] /\
  Stored.inflate kGzipWindow [x1f; x8b; x68; x65; x6c; x6c; x6f; x00; xff]
  = Some Sample.hello.
Proof. split; vm_compute; reflexivity. Qed.

(** C1 fails as stated when padding is due: on a 5-byte file read with
    padding on, the file producer hands the compressor one padding buffer
    after the other, no finish is ever requested, and the compressing
    producer never returns an empty result; there is no exhausted run whose
    buffers could inflate to the file. *)
Lemma C1_padded_short_file_never_exhausts :
  ~ exists fuel bufs,
      exhausts fuel
        (Sample.compressing Stored.codec Sample.hello 4 4 true Gzip) bufs /\
      c_inflate Stored.codec (windowBits Gzip) (payload bufs)
        = Some Sample.hello.
Proof.
  intros (fuel & bufs & Hex & _).
  destruct (@zl_initialize_success Stored.codec Sample.systemError Gzip
              (Stored_contract _) (mkFilePath "/srv/file" (inr Sample.hello))
              Sample.hello 4 4 true
              (Sample.compressing Stored.codec Sample.hello 4 4 true Gzip)
              eq_refl eq_refl) as (st & Hrep & Hs0).
  refine (@padded_never_exhausts Stored.codec _ (Stored_contract _) 4 fuel _
            bufs _ Hex).
  rewrite Hs0. unfold padded_run. cbn [finished_ bufferSize_ fileStream_].
  split; [reflexivity|]. split; [reflexivity|]. split; [lia|].
  split; [exact I|]. split.
  - exists Sample.hello.
    cbn [fs_fileStream_ fs_padding_ fs_totalRead_ fs_bufferSize_ Sample.hello
         length].
    repeat split; lia.
  - eexists _, _, _. split; [reflexivity|exact Hrep].
Qed.

(** ** FileStreamResponse: what a drain delivers *)

(** Every buffer the file producer returns is non-empty and as long as it
    says.  It is either the next bytes of the opened file, the ones that
    follow the [totalRead_] bytes read so far, at most [bufferSize_] of them,
    and they are counted in [totalRead_] while nothing else changes; or it is
    the padding buffer, which leaves the producer as it was. *)
Theorem fs_nextBuffer_buffer (s s' : FileStreamResponse) (b : StreamBuffer) :
  fs_nextBuffer s = (Some b, s') ->
  0 < size b /\ size b = length (data b) /\
  ((exists bytes,
      fs_fileStream_ s = Some bytes /\
      data b = firstn (fs_bufferSize_ s) (skipn (fs_totalRead_ s) bytes) /\
      size b <= fs_bufferSize_ s /\
      fs_totalRead_ s + size b <= length bytes /\
      s' = mkFileStream (fs_file_ s) (fs_fileStream_ s) (fs_bufferSize_ s)
                        (fs_padding_ s) (fs_totalRead_ s + size b)) \/
   (s' = s /\ fs_padding_ s = true /\ fs_totalRead_ s < 1024 /\
    b = makePaddingBuffer (1024 - fs_totalRead_ s))).
Proof.
  intros H. destruct (fs_nextBuffer_some _ H) as [Hpos Hlen].
  split; [exact Hpos|]. split; [exact Hlen|].
  unfold fs_nextBuffer in H.
  destruct (Nat.eqb (length _) 0) eqn:E in H.
  - apply Nat.eqb_eq in E. right.
    pose proof (fs_nextBuffer_eof s E) as Heof.
    rewrite E, Nat.add_0_r in H.
    destruct ((fs_totalRead_ s <? 1024) && fs_padding_ s) eqn:P;
      [|discriminate].
    apply andb_true_iff in P as [Plt Pp]. apply Nat.ltb_lt in Plt.
    assert (Hs : mkFileStream (fs_file_ s) (fs_fileStream_ s) (fs_bufferSize_ s)
                   (fs_padding_ s) (fs_totalRead_ s) = s) by now destruct s.
    rewrite Hs in H. repeat split; congruence || assumption.
  - left. apply Nat.eqb_neq in E.
    destruct (fs_fileStream_ s) as [bytes|] eqn:Hst.
    2:{ exfalso. apply E. unfold stream_read. now rewrite skipn_nil, firstn_nil. }
    exists bytes.
    assert (Hb : b = mkStreamBuffer
        (stream_read bytes (fs_totalRead_ s) (fs_bufferSize_ s))
        (length (stream_read bytes (fs_totalRead_ s) (fs_bufferSize_ s))))
      by congruence.
    assert (Hs' : s' = mkFileStream (fs_file_ s) (Some bytes) (fs_bufferSize_ s)
                                    (fs_padding_ s) (fs_totalRead_ s + size b)).
    { rewrite Hb. cbn [size]. injection H as _ <-. reflexivity. }
    split; [reflexivity|]. split; [now rewrite Hb|].
    split; [|split; [|exact Hs']].
    + rewrite Hb. cbn [size]. rewrite stream_read_length. lia.
    + rewrite Hb. cbn [size]. rewrite stream_read_length in *. lia.
Qed.

Lemma fs_nextBuffer_buffer_witness :
  let s := Sample.openedFile Sample.hello 3 false in
  let s' := snd (fs_nextBuffer s) in
  let b := mkStreamBuffer [x68; x65; x6c] 3 in
  0 < size b /\ size b = length (data b) /\
  ((exists bytes,
      fs_fileStream_ s = Some bytes /\
      data b = firstn (fs_bufferSize_ s) (skipn (fs_totalRead_ s) bytes) /\
      size b <= fs_bufferSize_ s /\
      fs_totalRead_ s + size b <= length bytes /\
      s' = mkFileStream (fs_file_ s) (fs_fileStream_ s) (fs_bufferSize_ s)
                        (fs_padding_ s) (fs_totalRead_ s + size b)) \/
   (s' = s /\ fs_padding_ s = true /\ fs_totalRead_ s < 1024 /\
    b = makePaddingBuffer (1024 - fs_totalRead_ s))).
Proof.
  exact (@fs_nextBuffer_buffer (Sample.openedFile Sample.hello 3 false)
           (snd (fs_nextBuffer (Sample.openedFile Sample.hello 3 false)))
           (mkStreamBuffer [x68; x65; x6c] 3) eq_refl).
Defined.

(** The same from any position of an opened file producer: what is still
    to come are the unread bytes of the file. *)
Lemma fs_drain_from (k : nat) :
  forall s bytes,
    fs_fileStream_ s = Some bytes -> 0 < fs_bufferSize_ s ->
    fs_padding_ s = false \/ 1024 <= length bytes ->
    fs_totalRead_ s <= length bytes ->
    length bytes - fs_totalRead_ s <= k ->
    exists bufs,
      concat (map data bufs) = skipn (fs_totalRead_ s) bytes /\
      Forall (fun b => 0 < size b <= fs_bufferSize_ s /\
                       size b = length (data b)) bufs /\
      forall m, fst (fs_pulls (length bufs + m) s)
                = map Some bufs ++ repeat None m.
Proof.
  induction k as [|k IH]; intros s bytes Hst Hb Hpad Hle Hk.
  - exists []. split; [|split; [constructor|]].
    + cbn. symmetry. apply skipn_all2. lia.
    + intros m. cbn [length Nat.add map app].
      assert (Hn : fs_nextBuffer s = (None, s)).
      { apply (fs_eof_without_padding s Hst); [lia|].
        destruct Hpad as [H|H]; [now left|right; lia]. }
      now rewrite (fs_exhausted_forever m _ Hn).
  - destruct (Nat.eq_dec (fs_totalRead_ s) (length bytes)) as [Heq|Hne].
    { apply (IH s bytes); try assumption. lia. }
    destruct (@fs_nextBuffer_data s bytes Hst) as [Hne' Hpull]; [lia|exact Hb|].
    set (chunk := stream_read bytes (fs_totalRead_ s) (fs_bufferSize_ s)) in *.
    set (s1 := mkFileStream _ _ _ _ _) in Hpull.
    assert (Hlen : 0 < length chunk <= fs_bufferSize_ s /\
                   length chunk <= length bytes - fs_totalRead_ s).
    { unfold chunk. rewrite stream_read_length. lia. }
    destruct (IH s1 bytes) as (bufs & Hcat & Hall & Hrun);
      try assumption; try (subst s1; cbn; lia).
    exists (mkStreamBuffer chunk (length chunk) :: bufs).
    split; [|split].
    + cbn [map concat data]. rewrite Hcat. subst s1. cbn [fs_totalRead_].
      symmetry. apply skipn_read.
    + constructor; [cbn [size data]; lia|exact Hall].
    + intros m. cbn [length Nat.add fs_pulls]. rewrite Hpull.
      specialize (Hrun m). destruct (fs_pulls (length bufs + m) s1) as [rs s2].
      cbn [fst] in *. now rewrite Hrun.
Qed.

(** A file producer opened on a file for which no padding is due, with a
    positive buffer size, hands out the file: its buffers, concatenated in
    pull order, are the bytes of the file; each holds between one and
    [bufferSize] bytes; and once they are out every further pull is empty. *)
Theorem fs_drain_delivers_the_file (file : FilePath) (bytes : list byte)
    (bufferSize : nat) (padding : bool) :
  openForRead file = inr bytes -> 0 < bufferSize ->
  padding = false \/ 1024 <= length bytes ->
  let s0 := snd (fs_initialize (newFileStreamResponse file bufferSize padding)) in
  exists bufs,
    concat (map data bufs) = bytes /\
    Forall (fun b => 0 < size b <= bufferSize /\ size b = length (data b)) bufs /\
    forall m, fst (fs_pulls (length bufs + m) s0) = map Some bufs ++ repeat None m.
Proof.
  intros Hopen Hb Hpad s0.
  assert (Hs0 : s0 = mkFileStream file (Some bytes) bufferSize padding 0).
  { subst s0. unfold fs_initialize, newFileStreamResponse. cbn [fs_file_].
    now rewrite Hopen. }
  rewrite Hs0.
  destruct (@fs_drain_from (length bytes)
              (mkFileStream file (Some bytes) bufferSize padding 0) bytes)
    as (bufs & H1 & H2 & H3); try reflexivity; try assumption;
    try (cbn [fs_totalRead_]; lia).
  exists bufs. split; [exact H1|]. split; [exact H2|exact H3].
Qed.

Lemma fs_drain_delivers_the_file_witness :
  exists bufs,
    concat (map data bufs) = Sample.hello /\
    Forall (fun b => 0 < size b <= 3 /\ size b = length (data b)) bufs /\
    forall m, fst (fs_pulls (length bufs + m)
                     (snd (fs_initialize
                             (newFileStreamResponse Sample.helloFile 3 false))))
              = map Some bufs ++ repeat None m.
Proof.
  apply (@fs_drain_delivers_the_file Sample.helloFile Sample.hello 3 false).
  - reflexivity.
  - lia.
  - left. reflexivity.
Defined.

(** ** ZlibCompressionStreamResponse: how a pull can end *)

Section PullOutcome.

Variable C : Compressor.

Let producer := ZlibCompressionStreamResponse C.

(** [deflate] moves room from [avail_out] to [next_out] and nothing else. *)
Lemma deflate_room (z z' : z_stream C) (mem : list byte) (flush : FlushMode)
    (res : ZCode) :
  deflate z mem flush = (res, z') ->
  avail_out z' + length (next_out z') = avail_out z + length (next_out z).
Proof.
  unfold deflate. destruct (state z) as [st|].
  - destruct (c_deflate C st _ (avail_out z) flush) as [[[r st'] k] out].
    intros H. injection H as _ <-. cbn [avail_out next_out].
    rewrite length_app.
    pose proof (firstn_le_length (avail_out z) out). lia.
  - intros H. now injection H as _ <-.
Qed.

Lemma zl_input_room (s s0 : producer) (fl fl1 : FlushMode)
    (fbo : option StreamBuffer) (evs : list Event) :
  zl_input s fl = (fbo, s0, fl1, evs) ->
  avail_out (zStream_ s0) = avail_out (zStream_ s) /\
  next_out (zStream_ s0) = next_out (zStream_ s) /\
  bufferSize_ s0 = bufferSize_ s /\ finished_ s0 = finished_ s.
Proof.
  unfold zl_input. destruct (fileBuffer_ s).
  - intros H. now injection H as _ <- _ _.
  - destruct (fs_nextBuffer (fileStream_ s)) as [[b|] fs];
      intros H; now injection H as _ <- _ _.
Qed.

(** A turn that did not abort: its events end with its [deflate], and the
    output buffer still adds up. *)
Lemma zl_feed_fed_shape (s s' : producer) (flush flush1 : FlushMode)
    (res : ZCode) (written : nat) (evs : list Event) :
  zl_feed s flush = Fed s' flush1 res written evs ->
  (exists evs0 input, evs = evs0 ++ [EvDeflate input flush1 res]) /\
  bufferSize_ s' = bufferSize_ s /\
  written = bufferSize_ s - avail_out (zStream_ s') /\
  avail_out (zStream_ s') + length (next_out (zStream_ s'))
    = avail_out (zStream_ s) + length (next_out (zStream_ s)).
Proof.
  unfold zl_feed.
  destruct (zl_input s flush) as [[[fileBuffer s0] fl] evs0] eqn:Hinput.
  destruct (zl_input_room _ _ Hinput) as (Ha & Hn & Hb & _).
  destruct (deflate _ _ fl) as [r z] eqn:Hd.
  pose proof (deflate_room _ _ _ Hd) as Hroom.
  destruct (zcode_eqb r Z_STREAM_ERROR); [discriminate|].
  intros H. injection H as <- <- <- <- <-.
  split; [now eexists _, _|].
  rewrite Ha, Hn in Hroom.
  destruct (Nat.eqb (avail_in z) 0);
    cbn [set_fileBuffer set_zStream bufferSize_ zStream_];
    (split; [exact Hb|]); (split; [now rewrite Hb|]); exact Hroom.
Qed.

(** How the loop can end. *)
Lemma zl_loop_outcome (fuel : nat) :
  forall (s : producer) (flush : FlushMode) (trace : list Event) (p : Pull C),
    zl_loop fuel s flush trace = Some p ->
    avail_out (zStream_ s) + length (next_out (zStream_ s)) = bufferSize_ s ->
    bufferSize_ (p_state p) = bufferSize_ s /\
    ((p_buffer p = None /\ finished_ (p_state p) = finished_ s /\
      exists tr input fl msg,
        p_trace p = tr ++ [EvDeflate input fl Z_STREAM_ERROR; EvLogError msg]) \/
     (exists b tr input fl res,
        p_buffer p = Some b /\
        0 < size b <= bufferSize_ s /\ size b = length (data b) /\
        p_trace p = tr ++ [EvDeflate input fl res] /\
        res <> Z_STREAM_ERROR /\
        finished_ (p_state p)
          = (if zcode_eqb res Z_STREAM_END then true else finished_ s))).
Proof.
  induction fuel as [|fuel IH]; intros s flush trace p; cbn [zl_loop];
    [discriminate|].
  destruct (zl_feed s flush) as [s' evs|s' flush' res written evs] eqn:Hfeed.
  - intros H _. injection H as <-. cbn [p_buffer p_state p_trace].
    destruct (zl_feed_aborted _ _ Hfeed) as (Hfin & evs0 & i & f & msg & ->).
    split.
    + unfold zl_feed in Hfeed.
      destruct (zl_input s flush) as [[[fileBuffer s0] fl] evs1] eqn:Hinput.
      destruct (zl_input_room _ _ Hinput) as (_ & _ & Hb & _).
      destruct (deflate _ _ fl) as [r z].
      destruct (zcode_eqb r Z_STREAM_ERROR); [|discriminate].
      injection Hfeed as <- _. exact Hb.
    + left. split; [reflexivity|]. split; [exact Hfin|].
      exists (trace ++ evs0), i, f, msg. now rewrite <- app_assoc.
  - destruct (zl_feed_fed _ _ Hfeed) as (Hfin & Hres & _).
    destruct (zl_feed_fed_shape _ _ Hfeed)
      as ((evs0 & input & ->) & Hbs & Hw & Hroom).
    intros H Hinv. rewrite Hinv in Hroom.
    destruct (Nat.eqb written 0) eqn:E.
    + destruct (IH s' flush' _ p H) as [Hb Hcase]; [now rewrite Hbs|].
      rewrite Hbs, Hfin in *. split; [exact Hb|exact Hcase].
    + apply Nat.eqb_neq in E. injection H as <-.
      cbn [p_buffer p_state p_trace].
      split; [destruct (zcode_eqb res Z_STREAM_END); cbn; exact Hbs|].
      right. exists (mkStreamBuffer (next_out (zStream_ s')) written),
               (trace ++ evs0), input, flush', res.
      split; [reflexivity|]. cbn [size data].
      split; [lia|]. split; [lia|].
      split; [now rewrite <- app_assoc|]. split; [exact Hres|].
      destruct (zcode_eqb res Z_STREAM_END); cbn [set_finished finished_];
        [reflexivity|exact Hfin].
Qed.

(** Every buffer the compressing producer returns holds between one and
    [bufferSize_] bytes, whatever the compressor does. *)
Theorem zl_buffer_is_bounded (fuel : nat) (s : producer) (p : Pull C)
    (b : StreamBuffer) :
  zl_nextBuffer fuel s = Some p -> p_buffer p = Some b ->
  0 < size b <= bufferSize_ s /\ size b = length (data b).
Proof.
  unfold zl_nextBuffer. destruct (finished_ s).
  - intros H Hb. injection H as <-. discriminate.
  - intros H Hb.
    destruct (zl_loop_outcome _ _ _ _ H) as [_ Hcase].
    { cbn. lia. }
    destruct Hcase as [(Hn & _)|(b' & tr & i & f & res & Hb' & H1 & H2 & _)].
    + rewrite Hn in Hb. discriminate.
    + rewrite Hb' in Hb. injection Hb as <-. cbn in H1. now split.
Qed.

(** A producer that has not finished returns no buffer exactly when its last
    [deflate] reported [Z_STREAM_ERROR], which it logs; no other return code
    ends a pull without a buffer. *)
Theorem zl_empty_result_means_stream_error (fuel : nat) (s : producer)
    (p : Pull C) :
  zl_nextBuffer fuel s = Some p -> finished_ s = false ->
  (p_buffer p = None <->
   exists tr input fl msg,
     p_trace p = tr ++ [EvDeflate input fl Z_STREAM_ERROR; EvLogError msg]).
Proof.
  intros H Hfin. split.
  - unfold zl_nextBuffer in H. rewrite Hfin in H.
    destruct (zl_loop_outcome _ _ _ _ H) as [_ Hcase]; [cbn; lia|].
    destruct Hcase as [(_ & _ & Htr)|(b' & _ & _ & _ & _ & Hb' & _)].
    + intros _. exact Htr.
    + intros Hn. rewrite Hn in Hb'. discriminate.
  - intros (tr & input & fl & msg & Htr).
    apply (@zl_stream_error_aborts_pull C fuel s p input fl H).
    rewrite Htr. apply in_or_app. right. now left.
Qed.

(** [finished_] is set by exactly those pulls that return a buffer after a
    [deflate] that answered [Z_STREAM_END]. *)
Theorem zl_finished_means_stream_end (fuel : nat) (s : producer) (p : Pull C) :
  zl_nextBuffer fuel s = Some p -> finished_ s = false ->
  (finished_ (p_state p) = true <->
   p_buffer p <> None /\
   exists tr input fl, p_trace p = tr ++ [EvDeflate input fl Z_STREAM_END]).
Proof.
  intros H Hfin. unfold zl_nextBuffer in H. rewrite Hfin in H.
  destruct (zl_loop_outcome _ _ _ _ H) as [_ Hcase]; [cbn; lia|].
  cbn [new_output set_zStream finished_] in Hcase. rewrite Hfin in Hcase.
  destruct Hcase as [(Hn & Hf & tr & i & f & msg & Htr)
                    |(b & tr & i & f & res & Hb & _ & _ & Htr & Hres & Hf)].
  - split.
    + intros Ht. rewrite Hf in Ht. discriminate.
    + intros [Hb _]. now rewrite Hn in Hb.
  - split.
    + intros Ht. rewrite Hf in Ht.
      destruct (zcode_eqb res Z_STREAM_END) eqn:E; [|discriminate].
      apply zcode_eqb_eq in E. subst res.
      split; [rewrite Hb; discriminate|]. now exists tr, i, f.
    + intros (_ & tr' & i' & f' & Htr'). rewrite Htr in Htr'.
      apply app_inj_tail in Htr' as [_ Hev]. injection Hev as _ _ ->.
      now rewrite Hf.
Qed.


(** C5.  A pull in which [deflate] answers [Z_STREAM_ERROR] reports the
    failure and returns no buffer: the failing call and its log entry are the
    last things it does.  And the stream is over: with the state of the
    library absent or broken, which is what that answer stands for, no later
    pull returns a buffer. *)
Theorem C5_stream_error_ends_the_stream (fuel : nat) (s : producer)
    (p : Pull C) (input : list byte) (fl : FlushMode) :
  zl_nextBuffer fuel s = Some p ->
  In (EvDeflate input fl Z_STREAM_ERROR) (p_trace p) ->
  stream_broken (zStream_ (p_state p)) ->
  p_buffer p = None /\
  (exists tr input' fl' msg,
     p_trace p = tr ++ [EvDeflate input' fl' Z_STREAM_ERROR; EvLogError msg]) /\
  forall fuel' n,
    option_map fst (zl_pulls (S fuel') n (p_state p)) = Some (repeat None n).
Proof.
  intros H Hin Hbroken.
  destruct (@zl_stream_error_aborts_pull C fuel s p input fl H Hin)
    as (Hnone & Hfin & _).
  split; [exact Hnone|]. split.
  - unfold zl_nextBuffer in H. destruct (finished_ s).
    { injection H as <-. destruct Hin. }
    destruct (zl_loop_outcome _ _ _ _ H) as [_ Hcase]; [cbn; lia|].
    destruct Hcase as [(_ & _ & Htr)|(b' & _ & _ & _ & _ & Hb' & _)];
      [exact Htr|].
    rewrite Hnone in Hb'. discriminate.
  - intros fuel' n. apply zl_empty_forever. intros _. exact Hbroken.
Qed.

End PullOutcome.

(** C3.  Once a pull has returned nothing, every later pull returns nothing.
    For the file producer the end of the file is all there is to it.  The
    compressing producer returns nothing when [finished_] is set, which then
    stays set, or when [deflate] answered [Z_STREAM_ERROR], and then with the
    state of the library absent or broken, which is what that answer stands
    for. *)
Theorem C3_empty_result_is_final :
  (forall (s s' : FileStreamResponse) (n : nat),
     fs_nextBuffer s = (None, s') ->
     fst (fs_pulls n s') = repeat None n) /\
  (forall (C : Compressor) (fuel : nat) (s : ZlibCompressionStreamResponse C)
          (p : Pull C),
     zl_nextBuffer fuel s = Some p ->
     p_buffer p = None ->
     (finished_ (p_state p) = false -> stream_broken (zStream_ (p_state p))) ->
     forall fuel' n,
       option_map fst (zl_pulls (S fuel') n (p_state p))
         = Some (repeat None n)).
Proof.
  split.
  - intros s s' n H. now rewrite (@fs_exhausted_forever n s s' H).
  - intros C fuel s p _ _ H fuel' n. now apply zl_empty_forever.
Qed.

Lemma C5_stream_error_ends_the_stream_witness :
  let s := Sample.compressing NoMemory.codec Sample.hello 3 16 false Gzip in
  let p := match zl_nextBuffer 1 s with
           | Some p => p
           | None => mkPull None s []
           end in
  p_buffer p = None /\
  (exists tr input' fl' msg,
     p_trace p = tr ++ [EvDeflate input' fl' Z_STREAM_ERROR; EvLogError msg]) /\
  forall fuel' n,
    option_map fst (zl_pulls (S fuel') n (p_state p)) = Some (repeat None n).
Proof.
  apply (@C5_stream_error_ends_the_stream NoMemory.codec 1
           (Sample.compressing NoMemory.codec Sample.hello 3 16 false Gzip)
           _ [x68; x65; x6c] Z_NO_FLUSH).
  - vm_compute. reflexivity.
  - cbn. right. left. reflexivity.
  - exact I.
Defined.

Lemma C3_empty_result_is_final_witness :
  let s := Sample.compressing NoMemory.codec Sample.hello 3 16 false Gzip in
  let p := match zl_nextBuffer 1 s with
           | Some p => p
           | None => mkPull None s []
           end in
  (forall n,
     fst (fs_pulls n (Sample.openedFile [] 4096 false)) = repeat None n) /\
  (forall fuel' n,
     option_map fst (zl_pulls (S fuel') n (p_state p)) = Some (repeat None n)).
Proof.
  cbv zeta. split.
  - intros n.
    refine (proj1 C3_empty_result_is_final
              (Sample.openedFile [] 4096 false)
              (Sample.openedFile [] 4096 false) n _).
    vm_compute. reflexivity.
  - refine (proj2 C3_empty_result_is_final NoMemory.codec 1
              (Sample.compressing NoMemory.codec Sample.hello 3 16 false Gzip)
              _ _ _ _).
    + vm_compute. reflexivity.
    + reflexivity.
    + intros _. exact I.
Defined.

(** ** ZlibCompressionStreamResponse: input that was not consumed *)

Section Leftover.

Variable C : Compressor.

Let producer := ZlibCompressionStreamResponse C.

(** The trace of a pull grows at its end. *)
Lemma zl_loop_trace (fuel : nat) :
  forall (s : producer) (flush : FlushMode) (trace : list Event) (p : Pull C),
    zl_loop fuel s flush trace = Some p ->
    exists tr, p_trace p = trace ++ tr.
Proof.
  induction fuel as [|fuel IH]; intros s flush trace p; cbn [zl_loop];
    [discriminate|].
  destruct (zl_feed s flush) as [s' evs|s' flush' res written evs].
  - intros H. injection H as <-. now exists evs.
  - destruct (Nat.eqb written 0).
    + intros H. destruct (IH _ _ _ _ H) as [tr Htr].
      exists (evs ++ tr). now rewrite Htr, app_assoc.
    + intros H. injection H as <-. now exists evs.
Qed.

(** The turn after which a pull returns its buffer. *)
Lemma zl_loop_last_turn (fuel : nat) :
  forall (s : producer) (flush : FlushMode) (trace : list Event) (p : Pull C),
    zl_loop fuel s flush trace = Some p -> p_buffer p <> None ->
    exists s_t fl_t s1 fl1 res written evs tr,
      zl_feed s_t fl_t = Fed s1 fl1 res written evs /\
      zStream_ (p_state p) = zStream_ s1 /\
      fileBuffer_ (p_state p) = fileBuffer_ s1 /\
      p_trace p = tr ++ evs.
Proof.
  induction fuel as [|fuel IH]; intros s flush trace p; cbn [zl_loop];
    [discriminate|].
  destruct (zl_feed s flush) as [s' evs|s' flush' res written evs] eqn:Hfeed.
  - intros H Hb. injection H as <-. now contradiction Hb.
  - destruct (Nat.eqb written 0).
    + intros H Hb. exact (IH _ _ _ _ H Hb).
    + intros H _. injection H as <-.
      exists s, flush, s', flush', res, written, evs, trace.
      split; [exact Hfeed|]. cbn [p_state p_trace].
      now destruct (zcode_eqb res Z_STREAM_END).
Qed.

(** A turn that leaves [avail_in] nonzero keeps the buffer it fed, and
    zlib's cursor designates in it the fed input without what was
    consumed. *)
Lemma zl_feed_fed_leftover (s s1 : producer) (flush flush1 : FlushMode)
    (res : ZCode) (written : nat) (evs : list Event) :
  zl_feed s flush = Fed s1 flush1 res written evs ->
  avail_in (zStream_ s1) <> 0 ->
  exists fb evs0 input k,
    fileBuffer_ s1 = Some fb /\
    evs = evs0 ++ [EvDeflate input flush1 res] /\
    k <= length input /\
    deflate_input (zStream_ s1) (Some fb) = skipn k input.
Proof.
  intros Hfeed Hin.
  destruct (@zl_feed_keeps_unconsumed_input C s s1 flush flush1 res written
              evs Hfeed Hin) as (fb & s0 & evs0 & Hinput & Hfb & _ & Hcur & _).
  unfold zl_feed in Hfeed. rewrite Hinput in Hfeed.
  destruct (deflate (zStream_ s0) (buffer_memory (Some fb)) flush1)
    as [r z] eqn:Hd.
  destruct (zcode_eqb r Z_STREAM_ERROR); [discriminate|].
  injection Hfeed as Hs1 <- _ <-.
  destruct (deflate_cursor _ _ _ Hd) as (k & Hk & Hn & Ha).
  exists fb, evs0, (deflate_input (zStream_ s0) (Some fb)),
         (avail_in (zStream_ s0) - avail_in (zStream_ s1)).
  split; [exact Hfb|]. split; [reflexivity|]. split; [|exact Hcur].
  assert (Hz : zStream_ s1 = z).
  { rewrite <- Hs1. now destruct (Nat.eqb (avail_in z) 0). }
  rewrite Hz, Ha. unfold deflate_input. cbn [buffer_memory] in *.
  lia.
Qed.

(** C2, as the code has it.  From one turn of the loop to the next: a turn
    that does not end on [Z_STREAM_ERROR] and leaves [avail_in] nonzero keeps
    the buffer it fed in [fileBuffer_]; what zlib's cursor then designates
    in it is the fed input without the bytes consumed; and the next turn
    takes that very buffer with the cursor as zlib left it and fetches
    nothing from the file producer.  From one pull to the next: when such a
    turn is the last of a pull that returns a buffer, the state the pull
    leaves holds that buffer, and the next pull begins with a [deflate] call
    on the unconsumed bytes, before anything is fetched. *)
Theorem C2_unconsumed_input_is_resubmitted :
  (forall (s s1 : producer) (flush flush1 : FlushMode) (res : ZCode)
          (written : nat) (evs : list Event),
     zl_feed s flush = Fed s1 flush1 res written evs ->
     avail_in (zStream_ s1) <> 0 ->
     exists fb s0 evs0,
       zl_input s flush = (Some fb, s0, flush1, evs0) /\
       fileBuffer_ s1 = Some fb /\
       fileStream_ s1 = fileStream_ s0 /\
       deflate_input (zStream_ s1) (Some fb) =
         skipn (avail_in (zStream_ s0) - avail_in (zStream_ s1))
               (deflate_input (zStream_ s0) (Some fb)) /\
       forall flush',
         zl_input s1 flush' = (Some fb, set_fileBuffer s1 None, flush', []) /\
         zl_input (new_output s1) flush'
           = (Some fb, set_fileBuffer (new_output s1) None, flush', []) /\
         deflate_input (zStream_ (new_output s1)) (Some fb)
           = deflate_input (zStream_ s1) (Some fb)) /\
  (forall (fuel fuel' : nat) (s : producer) (p p' : Pull C),
     zl_nextBuffer fuel s = Some p ->
     p_buffer p <> None ->
     finished_ (p_state p) = false ->
     avail_in (zStream_ (p_state p)) <> 0 ->
     zl_nextBuffer fuel' (p_state p) = Some p' ->
     exists fb tr input fl res k res' tr',
       fileBuffer_ (p_state p) = Some fb /\
       p_trace p = tr ++ [EvDeflate input fl res] /\
       k <= length input /\
       deflate_input (zStream_ (p_state p)) (Some fb) = skipn k input /\
       p_trace p' = EvDeflate (skipn k input) Z_NO_FLUSH res' :: tr').
Proof.
  split; [exact (@zl_feed_keeps_unconsumed_input C)|].
  intros fuel fuel' s p p' Hp Hbuf Hfin Hin Hp'.
  unfold zl_nextBuffer in Hp. destruct (finished_ s).
  { injection Hp as <-. now contradiction Hbuf. }
  destruct (zl_loop_last_turn _ _ _ _ Hp Hbuf)
    as (s_t & fl_t & s1 & fl1 & res & written & evs & tr & Hfeed & Hz & Hfb
        & Htr).
  rewrite Hz in Hin.
  destruct (zl_feed_fed_leftover _ _ Hfeed Hin)
    as (fb & evs0 & input & k & Hfb1 & -> & Hk & Hcur).
  rewrite <- Hz in Hcur. rewrite <- Hfb in Hfb1.
  unfold zl_nextBuffer in Hp'. rewrite Hfin in Hp'.
  destruct fuel' as [|fuel']; [discriminate|]. cbn [zl_loop] in Hp'.
  assert (Hinput : zl_input (new_output (p_state p)) Z_NO_FLUSH
                   = (Some fb, set_fileBuffer (new_output (p_state p)) None,
                      Z_NO_FLUSH, [])).
  { apply zl_input_leftover. exact Hfb1. }
  assert (Hsame : deflate_input
                    (zStream_ (set_fileBuffer (new_output (p_state p)) None))
                    (Some fb) = skipn k input).
  { rewrite <- Hcur. reflexivity. }
  unfold zl_feed in Hp'. rewrite Hinput, Hsame in Hp'.
  destruct (deflate _ (buffer_memory (Some fb)) Z_NO_FLUSH) as [r z].
  exists fb, (tr ++ evs0), input, fl1, res, k, r.
  destruct (zcode_eqb r Z_STREAM_ERROR).
  - injection Hp' as <-. eexists.
    split; [exact Hfb1|]. split; [now rewrite Htr, app_assoc|].
    split; [exact Hk|]. split; [exact Hcur|]. reflexivity.
  - match type of Hp' with
    | (if ?c then _ else _) = _ => destruct c
    end.
    + destruct (zl_loop_trace _ _ _ _ Hp') as [tr' Htr'].
      exists tr'. split; [exact Hfb1|]. split; [now rewrite Htr, app_assoc|].
      split; [exact Hk|]. split; [exact Hcur|]. exact Htr'.
    + injection Hp' as <-. eexists.
      split; [exact Hfb1|]. split; [now rewrite Htr, app_assoc|].
      split; [exact Hk|]. split; [exact Hcur|]. reflexivity.
Qed.

End Leftover.

Lemma C2_unconsumed_input_is_resubmitted_witness :
  let s := Sample.compressing Stored.codec Sample.hello 5 2 false Gzip in
  let p := match zl_nextBuffer 1 s with
           | Some p => p
           | None => mkPull None s []
           end in
  let p' := match zl_nextBuffer 1 (p_state p) with
            | Some p' => p'
            | None => mkPull None s []
            end in
  exists fb tr input fl res k res' tr',
    fileBuffer_ (p_state p) = Some fb /\
    p_trace p = tr ++ [EvDeflate input fl res] /\
    k <= length input /\
    deflate_input (zStream_ (p_state p)) (Some fb) = skipn k input /\
    p_trace p' = EvDeflate (skipn k input) Z_NO_FLUSH res' :: tr'.
Proof.
  apply (proj2 (@C2_unconsumed_input_is_resubmitted Stored.codec) 1 1
           (Sample.compressing Stored.codec Sample.hello 5 2 false Gzip)).
  - vm_compute. reflexivity.
  - vm_compute. discriminate.
  - reflexivity.
  - vm_compute. discriminate.
  - vm_compute. reflexivity.
Defined.

(** The claim of C2 as the specification words it fails on a turn that ends
    on [Z_STREAM_ERROR].  On a stream whose [deflateInit2] failed, the first
    pull feeds "hel", [deflate] answers [Z_STREAM_ERROR] and leaves
    [avail_in] at 3, the pull returns before the buffer is kept, and the
    second pull fetches "lo" from the file producer: "hel" is not
    resubmitted. *)
Lemma C2_stream_error_drops_the_input :
  let s := Sample.compressing NoMemory.codec Sample.hello 3 16 false Gzip in
  exists p1 p2,
    zl_nextBuffer 1 s = Some p1 /\
    zl_nextBuffer 1 (p_state p1) = Some p2 /\
    p_trace p1 =
      [EvFetch (Some (mkStreamBuffer [x68; x65; x6c] 3));
       EvDeflate [x68; x65; x6c] Z_NO_FLUSH Z_STREAM_ERROR;
       EvLogError "Could not compress file /srv/file - zlib stream error"] /\
    avail_in (zStream_ (p_state p1)) = 3 /\
    fileBuffer_ (p_state p1) = None /\
    p_trace p2 =
      [EvFetch (Some (mkStreamBuffer [x6c; x6f] 2));
       EvDeflate [x6c; x6f] Z_NO_FLUSH Z_STREAM_ERROR;
       EvLogError "Could not compress file /srv/file - zlib stream error"].
Proof.
  cbv zeta. eexists _, _.
  split; [vm_compute; reflexivity|].
  split; [vm_compute; reflexivity|].
  cbn [p_trace p_state zStream_ avail_in fileBuffer_]. repeat split.
Qed.


Lemma zl_buffer_is_bounded_witness :
  let b := mkStreamBuffer [x1f; x8b; x68; x65] 4 in
  0 < size b <= 4 /\ size b = length (data b).
Proof.
  refine (@zl_buffer_is_bounded Stored.codec 6
            (Sample.compressing Stored.codec Sample.hello 3 4 false Gzip) _
            (mkStreamBuffer [x1f; x8b; x68; x65] 4) _ _).
  - vm_compute. reflexivity.
  - reflexivity.
Defined.

Lemma zl_empty_result_means_stream_error_witness :
  let s := Sample.compressing NoMemory.codec Sample.hello 3 16 false Gzip in
  let p := match zl_nextBuffer 5 s with
           | Some p => p
           | None => mkPull None s []
           end in
  p_buffer p = None <->
  exists tr input fl msg,
    p_trace p = tr ++ [EvDeflate input fl Z_STREAM_ERROR; EvLogError msg].
Proof.
  apply (@zl_empty_result_means_stream_error NoMemory.codec 5
           (Sample.compressing NoMemory.codec Sample.hello 3 16 false Gzip)).
  - vm_compute. reflexivity.
  - reflexivity.
Defined.

Lemma zl_finished_means_stream_end_witness :
  let s := Sample.compressing Stored.codec [] 3 16 false Gzip in
  let p := match zl_nextBuffer 5 s with
           | Some p => p
           | None => mkPull None s []
           end in
  finished_ (p_state p) = true <->
  p_buffer p <> None /\
  exists tr input fl, p_trace p = tr ++ [EvDeflate input fl Z_STREAM_END].
Proof.
  apply (@zl_finished_means_stream_end Stored.codec 5
           (Sample.compressing Stored.codec [] 3 16 false Gzip)).
  - vm_compute. reflexivity.
  - reflexivity.
Defined.

(** ** ZlibCompressionStreamResponse: how a run ends *)

(** With a compressor that follows the protocol of zlib's [deflate], positive
    chunk sizes and no padding due, the compressing producer returns finitely
    many buffers, and then one of two things holds for good.  Either
    [finished_] is set, and every later pull returns the empty result; or
    [finished_] is not set and no later pull returns: the loop of
    [nextBuffer] asks to finish, [deflate] reports [Z_STREAM_END] with
    nothing written, and [written == 0] sends the loop round again. *)
Theorem zl_run_ends_or_stops_returning
    (C : Compressor) (systemError : Z -> string -> Error)
    (t : CompressionType) (K : DeflateContract C (windowBits t))
    (file : FilePath) (bytes : list byte) (inSize outSize : nat)
    (padding : bool) (s0 : ZlibCompressionStreamResponse C) :
  openForRead file = inr bytes ->
  0 < inSize -> 0 < outSize ->
  padding = false \/ 1024 <= length bytes ->
  zl_initialize systemError
    (newZlibCompressionStreamResponse C
       (newFileStreamResponse file inSize padding) outSize t) = (None, s0) ->
  exists fuel bufs s',
    zl_pulls fuel (length bufs) s0 = Some (map Some bufs, s') /\
    ((finished_ s' = true /\
      forall fuel' n, zl_pulls fuel' n s' = Some (repeat None n, s')) \/
     (finished_ s' = false /\
      forall fuel', zl_nextBuffer fuel' s' = None)).
Proof.
  intros Hopen Hin Hout Hpad Hinit.
  destruct (@zl_initialize_success C systemError t K file bytes inSize outSize
              padding s0 Hopen Hinit) as (st & Hrep & ->).
  set (s0 := mkZlib _ _ _ _ _ _).
  assert (Hfeed : feeding K bytes inSize outSize s0 [] []).
  { split; [split; [|split]|split].
    - unfold running. cbn. repeat split; try assumption. lia.
    - exact I.
    - now exists st.
    - exact Hpad.
    - reflexivity. }
  destruct (@drain C (windowBits t) K bytes inSize outSize
              (potential K bytes s0)) as [Hdrain _].
  destruct (Hdrain s0 [] [] Hfeed (Nat.le_refl _))
    as (bufs & (s' & Hrun & Hend) & _).
  exists (S (length bytes)), bufs, s'. split; [exact Hrun|].
  destruct (finished_ s') eqn:Hfin.
  - left. split; [reflexivity|]. intros fuel' n.
    now apply zl_finished_forever.
  - right. split; [reflexivity|]. destruct Hend as [H|H]; [discriminate|].
    exact H.
Qed.

Lemma zl_run_ends_or_stops_returning_witness :
  let s0 := Sample.compressing Stored.codec Sample.hello 3 1 false Gzip in
  exists fuel bufs s',
    zl_pulls fuel (length bufs) s0 = Some (map Some bufs, s') /\
    ((finished_ s' = true /\
      forall fuel' n, zl_pulls fuel' n s' = Some (repeat None n, s')) \/
     (finished_ s' = false /\
      forall fuel', zl_nextBuffer fuel' s' = None)).
Proof.
  apply (@zl_run_ends_or_stops_returning Stored.codec
           Sample.systemError Gzip (Stored_contract _)
           (mkFilePath "/srv/file" (inr Sample.hello)) Sample.hello 3 1 false).
  - reflexivity.
  - lia.
  - lia.
  - left. reflexivity.
  - reflexivity.
Defined.

(** A pull never returns once the file is read to its end and the compressor
    has handed out its whole stream while [finished_] is still unset: the
    file producer has nothing, so the loop asks to finish; [deflate] reports
    [Z_STREAM_END] and writes nothing; [written] is zero, and the loop goes
    round again in the same state.  No amount of fuel gives a result. *)
Theorem zl_stream_end_without_output_never_returns
    (C : Compressor) (s : ZlibCompressionStreamResponse C) (st : cstate C)
    (fuel : nat) :
  finished_ s = false ->
  fileBuffer_ s = None ->
  fs_nextBuffer (fileStream_ s) = (None, fileStream_ s) ->
  state (zStream_ s) = Some st ->
  @stream_ended C st ->
  0 < bufferSize_ s ->
  zl_nextBuffer fuel s = None.
Proof.
  intros Hfin Hfb Hfs Hst Hend Hpos. unfold zl_nextBuffer. rewrite Hfin.
  now apply (@zl_loop_ended C fuel (new_output s) Z_NO_FLUSH [] st).
Qed.

(** "hello" read three bytes at a time and compressed into buffers of one
    byte: nine pulls return the nine bytes of the stream, the last of them
    on [Z_OK], and the tenth pull does not return. *)
Lemma zl_stream_end_without_output_never_returns_witness :
  let s0 := Sample.compressing Stored.codec Sample.hello 3 1 false Gzip in
  let s9 := match zl_pulls 2 9 s0 with
            | Some (_, s) => s
            | None => s0
            end in
  option_map fst (zl_pulls 2 9 s0)
    = Some (map (fun b => Some (mkStreamBuffer [b] 1))
                [x1f; x8b; x68; x65; x6c; x6c; x6f; x00; xff]) /\
  finished_ s9 = false /\
  zl_nextBuffer 1000 s9 = None.
Proof.
  cbv zeta. split; [vm_compute; reflexivity|]. split; [vm_compute; reflexivity|].
  apply (@zl_stream_end_without_output_never_returns Stored.codec _
           (Stored.mk [] Stored.Closed) 1000).
  - vm_compute. reflexivity.
  - vm_compute. reflexivity.
  - vm_compute. reflexivity.
  - vm_compute. reflexivity.
  - intros room Hroom. destruct room as [|room]; [lia|reflexivity].
  - vm_compute. lia.
Defined.

(** ** Header lists: presence *)

Lemma containsHeader_app (n : string) (hs1 hs2 : Headers) :
  containsHeader n (hs1 ++ hs2) = containsHeader n hs1 || containsHeader n hs2.
Proof.
  induction hs1 as [|h t IH]; cbn; [reflexivity|].
  now rewrite IH, orb_assoc.
Qed.

Lemma containsHeader_push_other (n m v : string) (hs : Headers) :
  String.eqb n m = false ->
  containsHeader m (push_header n v hs) = containsHeader m hs.
Proof.
  intros H. unfold push_header. rewrite containsHeader_app. cbn.
  now rewrite H, !orb_false_r.
Qed.

Lemma containsHeader_replace_other (n m v : string) (hs : Headers) :
  String.eqb n m = false ->
  containsHeader m (replace_header n v hs) = containsHeader m hs.
Proof.
  intros H. induction hs as [|h t IH]; cbn; [reflexivity|].
  destruct (String.eqb (name h) n) eqn:E; cbn.
  - apply String.eqb_eq in E. now rewrite E, H.
  - now rewrite IH.
Qed.

Lemma containsHeader_put_other (n m v : string) (hs : Headers) :
  String.eqb n m = false ->
  containsHeader m (put_header n v hs) = containsHeader m hs.
Proof.
  intros H. unfold put_header. destruct (containsHeader n hs).
  - now apply containsHeader_replace_other.
  - now apply containsHeader_push_other.
Qed.

Lemma containsHeader_erase_same (n : string) (hs : Headers) :
  containsHeader n (erase_header n hs) = false.
Proof.
  induction hs as [|h t IH]; cbn; [reflexivity|].
  destruct (String.eqb (name h) n) eqn:E; cbn; [exact IH|].
  now rewrite E.
Qed.

Lemma containsHeader_erase_other (n m : string) (hs : Headers) :
  String.eqb n m = false ->
  containsHeader m (erase_header n hs) = containsHeader m hs.
Proof.
  intros H. unfold erase_header.
  induction hs as [|h t IH]; cbn; [reflexivity|].
  destruct (String.eqb (name h) n) eqn:E; cbn.
  - apply String.eqb_eq in E. now rewrite E, H.
  - now rewrite IH.
Qed.

Lemma headerValue_absent (n : string) (hs : Headers) :
  containsHeader n hs = false -> headerValue n hs = EmptyString.
Proof.
  induction hs as [|h t IH]; cbn; [reflexivity|].
  destruct (String.eqb (name h) n); cbn; [discriminate|exact IH].
Qed.

Lemma headerValue_push_absent (n v : string) (hs : Headers) :
  containsHeader n hs = false -> headerValue n (push_header n v hs) = v.
Proof.
  unfold push_header. induction hs as [|h t IH]; cbn.
  - now rewrite String.eqb_refl.
  - destruct (String.eqb (name h) n); cbn; [discriminate|exact IH].
Qed.

(** ** Range selection: a range with a begin *)

Lemma span_digits_dash (d rest : string) :
  all_digits d = true ->
  span_digits (d ++ String "-" rest) = (d, String "-" rest).
Proof.
  induction d as [|c d IH]; intros H.
  - reflexivity.
  - cbn [all_digits] in H. apply andb_true_iff in H as [Hc Hd].
    cbn [append span_digits]. now rewrite Hc, (IH Hd).
Qed.

Lemma match_range_groups (d1 d2 : string) :
  all_digits d1 = true -> all_digits d2 = true ->
  match_range ("bytes=" ++ d1 ++ "-" ++ d2) = Some (d1, d2).
Proof.
  intros H1 H2. unfold match_range.
  cbn [append strip_string_prefix Ascii.eqb Bool.eqb].
  rewrite (@span_digits_dash d1 d2 H1). rewrite Ascii.eqb_refl.
  now rewrite (@span_digits_all d2 H2).
Qed.

Lemma substring_beyond (s : string) (n m : nat) :
  String.length s - n <= m ->
  String.substring n m s = String.substring n (String.length s - n) s.
Proof.
  revert n m. induction s as [|c s IH]; intros n m H.
  - destruct n, m; reflexivity.
  - destruct n as [|n].
    + cbn [String.length Nat.sub] in *. destruct m as [|m]; [lia|].
      cbn [String.substring]. f_equal.
      rewrite (IH 0 m) by lia. now rewrite Nat.sub_0_r.
    + cbn [String.length Nat.sub String.substring] in *. now apply IH.
Qed.

Lemma strip_string_prefix_none (p s : string) :
  String.prefix p s = false -> strip_string_prefix p s = None.
Proof.
  revert s. induction p as [|a p IH]; intros s H.
  - destruct s; cbn in H; discriminate.
  - destruct s as [|b s]; [reflexivity|].
    cbn [String.prefix strip_string_prefix] in *.
    destruct (Ascii.ascii_dec a b) as [->|Hne].
    + rewrite Ascii.eqb_refl. now apply IH.
    + apply Ascii.eqb_neq in Hne. now rewrite Hne.
Qed.

Section RangeWithBegin.

Variable C : Compressor.
Variable setBody : string -> Response C -> Response C.

(** What the 206 branch does once the begin group holds a number. *)
Lemma range_with_begin
    (contents mimeType : string) (request : Request) (r : Response C)
    (db de : string) :
  let total := Z.of_nat (String.length contents) in
  let b := digits_value 0 db in
  let end0 := stringTo_size_t de kNone in
  let e := if Z.eqb end0 kNone then wrap (total - 1) else end0 in
  headerValue "Range" (requestHeaders request)
    = ("bytes=" ++ db ++ "-" ++ de)%string ->
  db <> EmptyString -> all_digits db = true -> all_digits de = true ->
  (b < kNone)%Z ->
  setRangeableFile setBody contents mimeType request r =
    if Z.eqb b 0 && Z.eqb e (wrap (total - 1))
    then Some (setBody contents (partialContent mimeType request b e total r))
    else
      match substr contents b (wrap (e - b + 1)) with
      | Some part =>
          Some (setBody part (partialContent mimeType request b e total r))
      | None => None
      end.
Proof.
  intros total b end0 e Hrange Hne Hdb Hde Hb.
  unfold setRangeableFile.
  rewrite Hrange, (@match_range_groups db de Hdb Hde).
  rewrite (@stringTo_size_t_digits db kNone Hne Hdb)
    by (fold b; rewrite kNone_value in Hb; unfold size_max; lia).
  fold b. fold total. fold end0.
  assert (Hk : (b =? kNone)%Z = false) by (apply Z.eqb_neq; lia).
  rewrite Hk. fold e.
  fold (partialContent mimeType request b e total r).
  reflexivity.
Qed.

(** A range [bytes=b-e] that is in order and begins inside the content is
    answered 206 with the bytes from [b] up to [e] (or up to the end of the
    content when [e] lies beyond it); the Content-Range header repeats [e] as
    it was asked for. *)
Theorem setRangeableFile_explicit_range
    (contents mimeType : string) (request : Request) (r : Response C)
    (db de : string) :
  let total := Z.of_nat (String.length contents) in
  let b := digits_value 0 db in
  let e := digits_value 0 de in
  headerValue "Range" (requestHeaders request)
    = ("bytes=" ++ db ++ "-" ++ de)%string ->
  db <> EmptyString -> de <> EmptyString ->
  all_digits db = true -> all_digits de = true ->
  (b <= e)%Z -> (e < kNone)%Z -> (b <= total)%Z -> (total < kNone)%Z ->
  setRangeableFile setBody contents mimeType request r =
    Some (setBody
            (String.substring (Z.to_nat b) (Z.to_nat (e - b + 1)) contents)
            (partialContent mimeType request b e total r)) /\
  statusCode_ (partialContent mimeType request b e total r) = PartialContent.
Proof.
  intros total b e Hrange Hnb Hne Hdb Hde Hbe He Htot Hmax.
  rewrite kNone_value in Hmax.
  assert (Hb0 : (0 <= b)%Z) by (apply digits_value_nonneg; lia).
  split.
  2:{ unfold partialContent. now destruct (acceptsEncoding request kGzipEncoding). }
  rewrite (@range_with_begin contents mimeType request r db de Hrange Hnb Hdb Hde)
    by (fold b; lia).
  fold total. fold b.
  rewrite (@stringTo_size_t_digits de kNone Hne Hde)
    by (fold e; rewrite kNone_value in He; unfold size_max; lia).
  fold e.
  assert (Hk : (e =? kNone)%Z = false) by (apply Z.eqb_neq; lia).
  rewrite Hk. rewrite kNone_value in He.
  destruct (Z.eqb b 0 && Z.eqb e (wrap (total - 1))) eqn:Hwhole.
  - apply andb_true_iff in Hwhole as [Hb He'].
    apply Z.eqb_eq in Hb, He'.
    assert (Hpos : (0 < total)%Z).
    { destruct (Z.eq_dec total 0) as [E|E]; [|lia].
      rewrite E in He'. change (wrap (0 - 1)) with kNone in He'.
      rewrite kNone_value in He'. lia. }
    rewrite (@wrap_small (total - 1)%Z) in He' by (unfold size_max; lia).
    rewrite Hb. replace (Z.to_nat (e - 0 + 1)) with (String.length contents)
      by lia.
    cbn [Z.to_nat]. now rewrite substring_all.
  - unfold substr. fold total.
    assert (Hlt : (total <? b)%Z = false) by (apply Z.ltb_ge; lia).
    rewrite Hlt.
    now rewrite (@wrap_small (e - b + 1)%Z) by (unfold size_max; lia).
Qed.

(** An open range [bytes=b-] on a non-empty content, beginning inside it, is
    answered 206 with the content from [b] to its end. *)
Theorem setRangeableFile_open_range
    (contents mimeType : string) (request : Request) (r : Response C)
    (db : string) :
  let total := Z.of_nat (String.length contents) in
  let b := digits_value 0 db in
  headerValue "Range" (requestHeaders request) = ("bytes=" ++ db ++ "-")%string ->
  db <> EmptyString -> all_digits db = true ->
  (b <= total)%Z -> (0 < total)%Z -> (total < kNone)%Z ->
  setRangeableFile setBody contents mimeType request r =
    Some (setBody
            (String.substring (Z.to_nat b) (String.length contents - Z.to_nat b)
                              contents)
            (partialContent mimeType request b (total - 1) total r)).
Proof.
  intros total b Hrange Hnb Hdb Htot Hpos Hmax.
  assert (Hb0 : (0 <= b)%Z) by (apply digits_value_nonneg; lia).
  rewrite (@range_with_begin contents mimeType request r db EmptyString
             Hrange Hnb Hdb eq_refl) by (fold b; lia).
  fold total. fold b.
  change (stringTo_size_t EmptyString kNone) with kNone.
  rewrite Z.eqb_refl. rewrite kNone_value in Hmax.
  rewrite (@wrap_small (total - 1)%Z) by (unfold size_max; lia).
  rewrite Z.eqb_refl, andb_true_r.
  destruct (Z.eqb_spec b 0) as [E|E].
  - rewrite E. cbn [Z.to_nat]. rewrite Nat.sub_0_r. now rewrite substring_all.
  - unfold substr. fold total.
    assert (Hlt : (total <? b)%Z = false) by (apply Z.ltb_ge; lia).
    rewrite Hlt.
    replace (total - 1 - b + 1)%Z with (total - b)%Z by lia.
    rewrite (@wrap_small (total - b)%Z) by (unfold size_max; lia).
    now replace (Z.to_nat (total - b))
      with (String.length contents - Z.to_nat b) by lia.
Qed.

(** A range that begins beyond the end of the content makes [substr] throw:
    no response results, whatever the end group holds. *)
Theorem setRangeableFile_begin_beyond_content
    (contents mimeType : string) (request : Request) (r : Response C)
    (db de : string) :
  let total := Z.of_nat (String.length contents) in
  let b := digits_value 0 db in
  headerValue "Range" (requestHeaders request)
    = ("bytes=" ++ db ++ "-" ++ de)%string ->
  db <> EmptyString -> all_digits db = true -> all_digits de = true ->
  (total < b)%Z -> (b < kNone)%Z ->
  setRangeableFile setBody contents mimeType request r = None.
Proof.
  intros total b Hrange Hnb Hdb Hde Hlt Hmax.
  rewrite (@range_with_begin contents mimeType request r db de
             Hrange Hnb Hdb Hde) by (fold b; lia).
  fold total. fold b.
  assert (Hb : (b =? 0)%Z = false) by (apply Z.eqb_neq; lia).
  rewrite Hb. cbn [andb]. unfold substr. fold total.
  apply Z.ltb_lt in Hlt. now rewrite Hlt.
Qed.

(** A reversed range [bytes=b-e] with [e + 1 < b] that begins inside the
    content is not refused: the length [e - b + 1] wraps around and the
    answer is 206 with the whole content from [b] on, under a Content-Range
    header that repeats the reversed bounds. *)
Theorem setRangeableFile_reversed_range
    (contents mimeType : string) (request : Request) (r : Response C)
    (db de : string) :
  let total := Z.of_nat (String.length contents) in
  let b := digits_value 0 db in
  let e := digits_value 0 de in
  headerValue "Range" (requestHeaders request)
    = ("bytes=" ++ db ++ "-" ++ de)%string ->
  db <> EmptyString -> de <> EmptyString ->
  all_digits db = true -> all_digits de = true ->
  (e + 1 < b)%Z -> (b <= total)%Z -> (total < 2 ^ 63)%Z ->
  setRangeableFile setBody contents mimeType request r =
    Some (setBody
            (String.substring (Z.to_nat b) (String.length contents - Z.to_nat b)
                              contents)
            (partialContent mimeType request b e total r)).
Proof.
  intros total b e Hrange Hnb Hne Hdb Hde Hrev Htot Hmax.
  assert (He0 : (0 <= e)%Z) by (apply digits_value_nonneg; lia).
  rewrite (@range_with_begin contents mimeType request r db de
             Hrange Hnb Hdb Hde) by (fold b; rewrite kNone_value; lia).
  fold total. fold b.
  rewrite (@stringTo_size_t_digits de kNone Hne Hde)
    by (fold e; unfold size_max; lia).
  fold e.
  assert (Hk : (e =? kNone)%Z = false)
    by (apply Z.eqb_neq; rewrite kNone_value; lia).
  rewrite Hk.
  assert (Hb : (b =? 0)%Z = false) by (apply Z.eqb_neq; lia).
  rewrite Hb. cbn [andb]. unfold substr. fold total.
  assert (Hlt : (total <? b)%Z = false) by (apply Z.ltb_ge; lia).
  rewrite Hlt. do 2 f_equal.
  apply substring_beyond.
  assert (Hw : wrap (e - b + 1) = (e - b + 1 + 2 ^ 64)%Z).
  { unfold wrap, size_max.
    rewrite <- (Z.mod_add (e - b + 1) 1 (2 ^ 64)) by lia.
    rewrite Z.mul_1_l. apply Z.mod_small. lia. }
  rewrite Hw. lia.
Qed.

(** A request that has no Range header, or whose Range header does not
    begin with [bytes=], is answered 416 with [Content-Range: bytes */total];
    the body is not set. *)
Theorem setRangeableFile_without_bytes_range
    (contents mimeType : string) (request : Request) (r : Response C) :
  let total := Z.of_nat (String.length contents) in
  containsHeader "Range" (requestHeaders request) = false \/
  String.prefix "bytes=" (headerValue "Range" (requestHeaders request)) = false ->
  setRangeableFile setBody contents mimeType request r =
    Some (addHeader "Content-Range" ("bytes */" ++ decimal total)%string
            (setStatusCode RangeNotSatisfiable (setContentType mimeType r))).
Proof.
  intros total Hp.
  assert (Hp' : String.prefix "bytes="
                  (headerValue "Range" (requestHeaders request)) = false).
  { destruct Hp as [Habs|Hp]; [|exact Hp].
    now rewrite (@headerValue_absent _ _ Habs). }
  unfold setRangeableFile, match_range.
  now rewrite (@strip_string_prefix_none _ _ Hp').
Qed.

End RangeWithBegin.

Lemma setRangeableFile_explicit_range_witness :
  setRangeableFile (Sample.setBody (C:=Stored.codec)) "0123456789" "text/plain"
    (Sample.rangeRequest "bytes=2-5") (Sample.emptyResponse Stored.codec)
  = Some (Sample.setBody "2345"
            (partialContent "text/plain" (Sample.rangeRequest "bytes=2-5")
               2 5 10 (Sample.emptyResponse Stored.codec))).
Proof.
  refine (proj1 (@setRangeableFile_explicit_range Stored.codec
           (Sample.setBody (C:=Stored.codec)) "0123456789" "text/plain"
           (Sample.rangeRequest "bytes=2-5") (Sample.emptyResponse Stored.codec)
           "2" "5" _ _ _ _ _ _ _ _ _)).
  - reflexivity.
  - discriminate.
  - discriminate.
  - reflexivity.
  - reflexivity.
  - vm_compute. discriminate.
  - reflexivity.
  - vm_compute. discriminate.
  - reflexivity.
Defined.

Lemma setRangeableFile_open_range_witness :
  setRangeableFile (Sample.setBody (C:=Stored.codec)) "0123456789" "text/plain"
    (Sample.rangeRequest "bytes=7-") (Sample.emptyResponse Stored.codec)
  = Some (Sample.setBody "789"
            (partialContent "text/plain" (Sample.rangeRequest "bytes=7-")
               7 9 10 (Sample.emptyResponse Stored.codec))).
Proof.
  apply (@setRangeableFile_open_range Stored.codec
           (Sample.setBody (C:=Stored.codec)) "0123456789" "text/plain"
           (Sample.rangeRequest "bytes=7-") (Sample.emptyResponse Stored.codec)
           "7").
  - reflexivity.
  - discriminate.
  - reflexivity.
  - vm_compute. discriminate.
  - reflexivity.
  - reflexivity.
Defined.

Lemma setRangeableFile_begin_beyond_content_witness :
  setRangeableFile (Sample.setBody (C:=Stored.codec)) "0123456789" "text/plain"
    (Sample.rangeRequest "bytes=20-30") (Sample.emptyResponse Stored.codec)
  = None.
Proof.
  apply (@setRangeableFile_begin_beyond_content Stored.codec
           (Sample.setBody (C:=Stored.codec)) "0123456789" "text/plain"
           (Sample.rangeRequest "bytes=20-30")
           (Sample.emptyResponse Stored.codec) "20" "30").
  - reflexivity.
  - discriminate.
  - reflexivity.
  - reflexivity.
  - reflexivity.
  - reflexivity.
Defined.

Lemma setRangeableFile_reversed_range_witness :
  setRangeableFile (Sample.setBody (C:=Stored.codec)) "0123456789" "text/plain"
    (Sample.rangeRequest "bytes=5-2") (Sample.emptyResponse Stored.codec)
  = Some (Sample.setBody "56789"
            (partialContent "text/plain" (Sample.rangeRequest "bytes=5-2")
               5 2 10 (Sample.emptyResponse Stored.codec))).
Proof.
  apply (@setRangeableFile_reversed_range Stored.codec
           (Sample.setBody (C:=Stored.codec)) "0123456789" "text/plain"
           (Sample.rangeRequest "bytes=5-2") (Sample.emptyResponse Stored.codec)
           "5" "2").
  - reflexivity.
  - discriminate.
  - discriminate.
  - reflexivity.
  - reflexivity.
  - reflexivity.
  - vm_compute. discriminate.
  - reflexivity.
Defined.

Lemma setRangeableFile_without_bytes_range_witness :
  setRangeableFile (Sample.setBody (C:=Stored.codec)) "0123456789" "text/plain"
    Sample.gzipRequest (Sample.emptyResponse Stored.codec)
  = Some (addHeader "Content-Range" "bytes */10"
            (setStatusCode RangeNotSatisfiable
               (setContentType "text/plain" (Sample.emptyResponse Stored.codec)))).
Proof.
  apply (@setRangeableFile_without_bytes_range Stored.codec
           (Sample.setBody (C:=Stored.codec)) "0123456789" "text/plain"
           Sample.gzipRequest (Sample.emptyResponse Stored.codec)).
  left. reflexivity.
Defined.

(** ** Cookies *)

Lemma prefix_app_left (p q s : string) :
  String.prefix (p ++ q) s = true -> String.prefix p s = true.
Proof.
  revert s. induction p as [|a p IH]; intros s H.
  - now destruct s.
  - destruct s as [|b s]; cbn [append String.prefix] in *; [discriminate|].
    destruct (Ascii.ascii_dec a b); [now apply IH|discriminate].
Qed.

Lemma flat_map_singletons (A : Type) (f : A -> bool) (x : Header)
    (l : list A) :
  flat_map (fun a => if f a then [x] else []) l
    = repeat x (length (filter f l)).
Proof.
  induction l as [|a l IH]; cbn; [reflexivity|].
  destruct (f a); cbn; now rewrite IH.
Qed.

Section CookieFacts.

Variable C : Compressor.
Variable cookieHeaderValue : Cookie -> string.
Variable kLegacyCookieSuffix : string.

(** [getCookies] returns the Set-Cookie headers in their order: all of them
    when no name is given, and otherwise each one once for every given name
    that its value starts with.  The second test, on the name with the
    legacy suffix, never adds a header: a value that starts with the
    suffixed name starts with the name. *)
Theorem getCookies_once_per_matching_name (names : list string)
    (r : Response C) :
  getCookies kLegacyCookieSuffix names r =
    flat_map
      (fun header =>
         if String.eqb (name header) "Set-Cookie" then
           match names with
           | [] => [header]
           | _ =>
               repeat header
                 (length (filter (starts_with (value header)) names))
           end
         else [])
      (headers_ r).
Proof.
  unfold getCookies. apply flat_map_ext. intros header.
  destruct (String.eqb (name header) "Set-Cookie"); [|reflexivity].
  destruct names as [|n0 names0]; [reflexivity|].
  rewrite <- flat_map_singletons. apply flat_map_ext. intros n.
  destruct (starts_with (value header) n) eqn:E1; [reflexivity|].
  destruct (starts_with (value header) (n ++ kLegacyCookieSuffix)) eqn:E2;
    [|reflexivity].
  unfold starts_with in *. apply prefix_app_left in E2. congruence.
Qed.

(** What [addCookie] adds, [getCookies] reads back: the cookies of the
    response are the ones it had, followed by the new cookie and, for
    SameSite=None, its legacy duplicate. *)
Theorem getCookies_after_addCookie (cookie : Cookie) (r : Response C) :
  getCookies kLegacyCookieSuffix []
    (addCookie cookieHeaderValue kLegacyCookieSuffix cookie r) =
  getCookies kLegacyCookieSuffix [] r ++
  match cookieSameSite cookie with
  | SameSiteNone =>
      [mkHeader "Set-Cookie" (cookieHeaderValue cookie);
       mkHeader "Set-Cookie"
         (cookieHeaderValue
            (setSameSite
               (setName cookie
                        (cookieName cookie ++ kLegacyCookieSuffix)%string)
               SameSiteUndefined))]
  | _ => [mkHeader "Set-Cookie" (cookieHeaderValue cookie)]
  end.
Proof.
  unfold getCookies, addCookie, addHeader, with_headers, push_header.
  destruct (cookieSameSite cookie); cbn [headers_];
    rewrite ?flat_map_app; cbn; now rewrite ?app_nil_r, <- ?app_assoc.
Qed.

(** [clearCookies] removes every Set-Cookie header and nothing else: no
    cookie is left whatever names are asked for, a header of any other name
    reads as before, adding a cookie first makes no difference, and status,
    body and producer are untouched. *)
Theorem clearCookies_removes_every_cookie (names : list string)
    (cookie : Cookie) (r : Response C) :
  getCookies kLegacyCookieSuffix names (clearCookies r) = [] /\
  containsHeader "Set-Cookie" (headers_ (clearCookies r)) = false /\
  (forall n, String.eqb "Set-Cookie" n = false ->
     headerValue n (headers_ (clearCookies r)) = headerValue n (headers_ r) /\
     containsHeader n (headers_ (clearCookies r))
       = containsHeader n (headers_ r)) /\
  clearCookies (addCookie cookieHeaderValue kLegacyCookieSuffix cookie r)
    = clearCookies r /\
  statusCode_ (clearCookies r) = statusCode_ r /\
  body_ (clearCookies r) = body_ r /\
  streamResponse_ (clearCookies r) = streamResponse_ r.
Proof.
  split; [|split; [|split; [|split; [|repeat split]]]].
  - unfold getCookies, clearCookies, with_headers. cbn [headers_].
    induction (headers_ r) as [|h t IH]; cbn; [reflexivity|].
    destruct (String.eqb (name h) "Set-Cookie") eqn:E; cbn; [exact IH|].
    now rewrite E.
  - apply (containsHeader_erase_same "Set-Cookie" (headers_ r)).
  - intros n Hn. split.
    + now apply (@headerValue_erase_other "Set-Cookie" n (headers_ r)).
    + now apply (@containsHeader_erase_other "Set-Cookie" n (headers_ r)).
  - unfold clearCookies, addCookie, addHeader, with_headers, push_header.
    destruct (cookieSameSite cookie); cbn; f_equal;
      rewrite ?filter_app; cbn; now rewrite ?app_nil_r.
Qed.

End CookieFacts.

(** ** Error responses *)

Lemma erase_put_same (n v : string) (hs : Headers) :
  erase_header n (put_header n v hs) = erase_header n hs.
Proof.
  unfold put_header, erase_header.
  destruct (containsHeader n hs) eqn:Hc.
  - induction hs as [|h t IH]; cbn in *; [discriminate|].
    destruct (String.eqb (name h) n) eqn:E; cbn.
    + now rewrite String.eqb_refl.
    + rewrite E. cbn. f_equal. now apply IH.
  - unfold push_header. rewrite filter_app. cbn.
    rewrite String.eqb_refl. cbn. now rewrite app_nil_r.
Qed.

Lemma erase_put_other (n m v : string) (hs : Headers) :
  String.eqb m n = false ->
  erase_header n (put_header m v hs) = put_header m v (erase_header n hs).
Proof.
  intros H. unfold put_header.
  rewrite (@containsHeader_erase_other n m hs)
    by (now rewrite String.eqb_sym).
  destruct (containsHeader m hs).
  - unfold erase_header.
    induction hs as [|h t IH]; cbn; [reflexivity|].
    destruct (String.eqb (name h) m) eqn:E; cbn.
    + rewrite H. cbn. pose proof E as E'. apply String.eqb_eq in E'.
      rewrite E', H. cbn. now rewrite E.
    + destruct (String.eqb (name h) n) eqn:E'; cbn.
      * exact IH.
      * rewrite E. now rewrite IH.
  - unfold push_header, erase_header. rewrite filter_app. cbn.
    now rewrite H.
Qed.

Section ErrorFacts.

Variable C : Compressor.
Variable htmlEscape : string -> string.

(** After [setError], whatever the response held before: no caching header
    and no Content-Encoding is left, the content type is text/html, the
    body is the escaped message and Content-Length is its length. *)
Theorem setError_response (code : Z) (message : string) (r : Response C) :
  (Z.of_nat (String.length (htmlEscape message)) < 2 ^ 31)%Z ->
  let r' := setError htmlEscape code message r in
  statusCode_ r' = code /\
  body_ r' = htmlEscape message /\
  forallb (fun n => negb (containsHeader n (headers_ r')))
          ["Expires"; "Pragma"; "Cache-Control"; "Last-Modified"; "ETag";
           "Content-Encoding"]%string = true /\
  headerValue "Content-Type" (headers_ r') = "text/html"%string /\
  headerValue "Content-Length" (headers_ r')
    = decimal (Z.of_nat (String.length (htmlEscape message))).
Proof.
  intros Hlen r'. subst r'.
  split; [reflexivity|]. split; [reflexivity|].
  unfold setError, setBodyUnencoded, setContentLength, setContentType,
    removeCachingHeaders, setHeader, removeHeader, with_headers, with_body,
    setStatusCode.
  cbn [headers_ body_ statusCode_ streamResponse_].
  set (hs := headers_ r).
  split; [|split].
  - cbn [forallb].
    rewrite !containsHeader_put_other by reflexivity.
    rewrite containsHeader_erase_same.
    rewrite !containsHeader_erase_other by reflexivity.
    rewrite !containsHeader_put_other by reflexivity.
    rewrite containsHeader_erase_same.
    rewrite !(@containsHeader_erase_other "ETag") by reflexivity.
    rewrite containsHeader_erase_same.
    rewrite !(@containsHeader_erase_other "Last-Modified") by reflexivity.
    rewrite containsHeader_erase_same.
    rewrite !(@containsHeader_erase_other "Cache-Control") by reflexivity.
    rewrite containsHeader_erase_same.
    rewrite !(@containsHeader_erase_other "Pragma") by reflexivity.
    rewrite containsHeader_erase_same.
    reflexivity.
  - rewrite headerValue_put_other by reflexivity.
    rewrite headerValue_erase_other by reflexivity.
    apply headerValue_put_same.
  - rewrite headerValue_put_same. f_equal.
    unfold narrow_cast_int.
    rewrite Z.mod_small by lia. lia.
Qed.

(** An error response discards the no-cache preset: [setError] after
    [setNoCacheHeaders] is [setError] alone. *)
Theorem setError_discards_no_cache_headers (code : Z) (message : string)
    (r : Response C) :
  setError htmlEscape code message (setNoCacheHeaders r)
    = setError htmlEscape code message r.
Proof.
  unfold setError. f_equal. f_equal.
  unfold removeCachingHeaders, setNoCacheHeaders, setStatusCode, removeHeader,
    setHeader, with_headers.
  cbn [headers_ body_ statusCode_ streamResponse_]. f_equal.
  do 2 f_equal.
  rewrite (@erase_put_other "Expires" "Cache-Control") by reflexivity.
  rewrite (@erase_put_other "Expires" "Pragma") by reflexivity.
  rewrite erase_put_same.
  rewrite (@erase_put_other "Pragma" "Cache-Control") by reflexivity.
  rewrite erase_put_same.
  now rewrite erase_put_same.
Qed.

End ErrorFacts.

Lemma setError_response_witness :
  let r' := setError (C:=Stored.codec) Sample.htmlEscape 404 "gone"
              (mkResponse Ok [mkHeader "ETag" "abc";
                               mkHeader "Content-Encoding" "gzip"]
                          "old" None) in
  statusCode_ r' = 404%Z /\
  body_ r' = "gone"%string /\
  forallb (fun n => negb (containsHeader n (headers_ r')))
          ["Expires"; "Pragma"; "Cache-Control"; "Last-Modified"; "ETag";
           "Content-Encoding"]%string = true /\
  headerValue "Content-Type" (headers_ r') = "text/html"%string /\
  headerValue "Content-Length" (headers_ r') = "4"%string.
Proof.
  apply (@setError_response Stored.codec Sample.htmlEscape 404 "gone"
           (mkResponse Ok [mkHeader "ETag" "abc";
                            mkHeader "Content-Encoding" "gzip"]
                       "old" None)).
  reflexivity.
Defined.

(** ** Streaming a file: which producer is installed *)

Section StreamFileFacts.

Variable C : Compressor.
Variable systemError : Z -> string -> Error.
Variable htmlEscape : string -> string.
Variable getMimeContentType : FilePath -> string -> string.
Variable usePadding : Request -> FilePath -> bool.

Lemma sr_initialize_kind (p : StreamResponse C) :
  match p, snd (sr_initialize systemError p) with
  | FileStream _ s, FileStream _ s' =>
      fs_bufferSize_ s' = fs_bufferSize_ s /\ fs_padding_ s' = fs_padding_ s
  | ZlibStream z, ZlibStream z' =>
      compressionType_ z' = compressionType_ z /\
      bufferSize_ z' = bufferSize_ z /\
      fs_bufferSize_ (fileStream_ z') = fs_bufferSize_ (fileStream_ z) /\
      fs_padding_ (fileStream_ z') = fs_padding_ (fileStream_ z)
  | _, _ => False
  end.
Proof.
  destruct p as [s|z]; unfold sr_initialize, zl_initialize, fs_initialize.
  - destruct (openForRead (fs_file_ s)); cbn; now split.
  - destruct (openForRead (fs_file_ (fileStream_ z))); cbn.
    + now repeat split.
    + destruct (c_deflateInit2 C Z_BEST_COMPRESSION
                  (windowBits (compressionType_ z)) kDefaultMemoryUsage)
        as [res st].
      destruct (zcode_eqb res Z_OK); cbn; now repeat split.
Qed.

Lemma compress_test (ct : string) :
  negb (String.eqb ct "application/x-gzip") &&
  negb (String.eqb ct "application/zip") &&
  negb (String.eqb ct "application/x-bzip") &&
  negb (String.eqb ct "application/x-bzip2") &&
  negb (String.eqb ct "application/x-tar")
  = negb (existsb (String.eqb ct)
            ["application/x-gzip"; "application/zip"; "application/x-bzip";
             "application/x-bzip2"; "application/x-tar"]%string).
Proof.
  cbn [existsb].
  destruct (String.eqb ct "application/x-gzip"),
           (String.eqb ct "application/zip"),
           (String.eqb ct "application/x-bzip"),
           (String.eqb ct "application/x-bzip2"),
           (String.eqb ct "application/x-tar"); reflexivity.
Qed.

(** [setStreamFile] always installs a producer and always sets
    Transfer-Encoding to chunked.  The producer compresses exactly when the
    content type is none of the five archive types and the request accepts
    gzip or deflate; gzip is taken when both are accepted.  The producer
    reads and writes in chunks of [buffSize], and pads as [usePadding]
    says. *)
Theorem setStreamFile_producer
    (filePath : FilePath) (request : Request) (buffSize : nat)
    (r : Response C) :
  let archive :=
    existsb (String.eqb (getMimeContentType filePath "application/octet-stream"))
      ["application/x-gzip"; "application/zip"; "application/x-bzip";
       "application/x-bzip2"; "application/x-tar"]%string in
  let gzip := acceptsEncoding request kGzipEncoding in
  let deflated := acceptsEncoding request kDeflateEncoding in
  let r' := setStreamFile systemError htmlEscape getMimeContentType usePadding
                          filePath request buffSize r in
  headerValue kTransferEncoding (headers_ r') = kChunkedTransferEncoding /\
  exists p,
    streamResponse_ r' = Some p /\
    match p with
    | ZlibStream z =>
        archive = false /\ (gzip || deflated) = true /\
        compressionType_ z = (if gzip then Gzip else Deflate) /\
        bufferSize_ z = buffSize /\
        fs_bufferSize_ (fileStream_ z) = buffSize /\
        fs_padding_ (fileStream_ z) = usePadding request filePath
    | FileStream _ s =>
        (archive || negb (gzip || deflated)) = true /\
        fs_bufferSize_ s = buffSize /\
        fs_padding_ s = usePadding request filePath
    end.
Proof.
  intros archive gzip deflated r'. subst r'. unfold setStreamFile.
  rewrite compress_test. fold archive. fold gzip. fold deflated.
  assert (Hdone : forall (p : StreamResponse C) (r0 : Response C),
    let r1 := with_streamResponse (Some (snd (sr_initialize systemError p)))
                (setHeader kTransferEncoding kChunkedTransferEncoding r0) in
    let r' := match fst (sr_initialize systemError p) with
              | Some e => setError htmlEscape InternalServerError
                            (getMessage e) r1
              | None => r1
              end in
    headerValue kTransferEncoding (headers_ r') = kChunkedTransferEncoding /\
    streamResponse_ r' = Some (snd (sr_initialize systemError p))).
  { intros p r0 r1 r'. subst r'.
    destruct (fst (sr_initialize systemError p)) as [e|].
    - destruct (setError_fields htmlEscape InternalServerError (getMessage e) r1)
        as (_ & _ & Hsr & Hte).
      split; [|exact Hsr]. rewrite Hte. apply headerValue_put_same.
    - split; [|reflexivity]. apply headerValue_put_same. }
  destruct gzip, archive, deflated; cbn [andb negb orb];
    match goal with
    | |- context [sr_initialize systemError ?p] =>
        generalize (sr_initialize_kind p), (Hdone p);
        destruct (sr_initialize systemError p) as [err p'];
        cbn [fst snd]; intros Hkind Hd
    end;
    (split; [apply Hd|]); exists p'; (split; [apply Hd|]);
    destruct p' as [s'|z']; try contradiction;
    cbn [newZlibCompressionStreamResponse newFileStreamResponse
         compressionType_ bufferSize_ fileStream_ fs_bufferSize_ fs_padding_]
      in Hkind;
    intuition congruence.
Qed.

(** When the file opens and [deflateInit2] succeeds, [setStreamFile] leaves
    status and body alone, and Content-Encoding names the algorithm of the
    installed producer (or is left as it was when none compresses). *)
Theorem setStreamFile_success
    (filePath : FilePath) (request : Request) (buffSize : nat)
    (r : Response C) (bytes : list byte) :
  openForRead filePath = inr bytes ->
  (forall w, fst (c_deflateInit2 C Z_BEST_COMPRESSION w kDefaultMemoryUsage)
             = Z_OK) ->
  let compress :=
    negb (existsb
            (String.eqb (getMimeContentType filePath "application/octet-stream"))
            ["application/x-gzip"; "application/zip"; "application/x-bzip";
             "application/x-bzip2"; "application/x-tar"]%string) in
  let r' := setStreamFile systemError htmlEscape getMimeContentType usePadding
                          filePath request buffSize r in
  statusCode_ r' = statusCode_ r /\
  body_ r' = body_ r /\
  headerValue "Content-Encoding" (headers_ r') =
    (if acceptsEncoding request kGzipEncoding && compress then kGzipEncoding
     else if acceptsEncoding request kDeflateEncoding && compress
          then kDeflateEncoding
          else headerValue "Content-Encoding" (headers_ r)) /\
  headerValue "Content-Type" (headers_ r')
    = getMimeContentType filePath "application/octet-stream".
Proof.
  intros Hopen Hinit compress r'. subst r'. unfold setStreamFile.
  rewrite compress_test. fold compress.
  assert (Hok : forall p : StreamResponse C,
            fs_file_ match p with
                     | FileStream _ s => s
                     | ZlibStream z => fileStream_ z
                     end = filePath ->
            fst (sr_initialize systemError p) = None).
  { intros p Hp. destruct p as [s|z]; cbn in Hp;
      unfold sr_initialize, zl_initialize, fs_initialize; rewrite Hp, Hopen.
    - reflexivity.
    - specialize (Hinit (windowBits (compressionType_ z))).
      destruct (c_deflateInit2 C Z_BEST_COMPRESSION _ kDefaultMemoryUsage)
        as [res st].
      cbn in Hinit. subst res. reflexivity. }
  destruct (acceptsEncoding request kGzipEncoding && compress);
    [|destruct (acceptsEncoding request kDeflateEncoding && compress)];
    match goal with
    | |- context [sr_initialize systemError ?p] =>
        pose proof (Hok p eq_refl) as Hnone;
        destruct (sr_initialize systemError p) as [err p'];
        cbn [fst] in Hnone; subst err
    end;
    unfold with_streamResponse, setHeader, setContentEncoding, setContentType,
      setHeader, with_headers;
    cbn [statusCode_ body_ headers_ streamResponse_];
    (split; [reflexivity|]); (split; [reflexivity|]); split.
  - rewrite headerValue_put_other by reflexivity. apply headerValue_put_same.
  - rewrite !headerValue_put_other by reflexivity. apply headerValue_put_same.
  - rewrite headerValue_put_other by reflexivity. apply headerValue_put_same.
  - rewrite !headerValue_put_other by reflexivity. apply headerValue_put_same.
  - now rewrite !headerValue_put_other by reflexivity.
  - rewrite headerValue_put_other by reflexivity. apply headerValue_put_same.
Qed.

End StreamFileFacts.

Lemma setStreamFile_success_witness :
  let r' := setStreamFile (C:=Stored.codec) Sample.systemError
              Sample.htmlEscape Sample.getMimeContentType Sample.usePadding
              Sample.helloFile Sample.gzipRequest 4096
              (Sample.emptyResponse _) in
  statusCode_ r' = Ok /\
  body_ r' = EmptyString /\
  headerValue "Content-Encoding" (headers_ r') = "gzip"%string /\
  headerValue "Content-Type" (headers_ r') = "application/octet-stream"%string.
Proof.
  apply (@setStreamFile_success Stored.codec Sample.systemError
           Sample.htmlEscape Sample.getMimeContentType Sample.usePadding
           Sample.helloFile Sample.gzipRequest 4096 (Sample.emptyResponse _)
           Sample.hello).
  - reflexivity.
  - intros w. reflexivity.
Defined.

(** ** Redirects *)

Lemma split_lines_first (s : string) :
  exists l ls rest,
    split_lines s = l :: ls /\
    s = (l ++ rest)%string /\
    (forall c, In c (list_ascii_of_string l) -> is_line_break c = false) /\
    match rest with
    | EmptyString => ls = []
    | String c _ => is_line_break c = true
    end.
Proof.
  induction s as [|c s (l & ls & rest & Hs & Heq & Hclean & Hrest)].
  - exists EmptyString, [], EmptyString. cbn. now repeat split.
  - cbn [split_lines]. destruct (is_line_break c) eqn:Hc.
    + exists EmptyString, (split_lines s), (String c s). cbn.
      repeat split; [now intros ? []|exact Hc].
    + rewrite Hs. exists (String c l), ls, rest.
      split; [reflexivity|]. split; [cbn; now rewrite <- Heq|].
      split; [|exact Hrest].
      intros c' [<-|Hin]; [exact Hc|now apply Hclean].
Qed.

Lemma split_lines_clean (s : string) :
  (forall c, In c (list_ascii_of_string s) -> is_line_break c = false) ->
  split_lines s = [s].
Proof.
  induction s as [|c s IH]; intros H; [reflexivity|].
  cbn [split_lines]. rewrite (H c) by now left.
  rewrite IH; [reflexivity|]. intros c' Hin. apply H. now right.
Qed.

Lemma safeLocation_idempotent (location : string) :
  safeLocation (safeLocation location) = safeLocation location.
Proof.
  unfold safeLocation at 2 3.
  destruct (split_lines_first location)
    as (l & ls & rest & Hs & _ & Hclean & _).
  rewrite Hs. unfold safeLocation. now rewrite (split_lines_clean l Hclean).
Qed.

(** [safeLocation] cuts the location at its first carriage return or line
    feed: the result holds neither, it is a prefix of the location, and what
    it leaves out is nothing or begins with one of the two. *)
Theorem safeLocation_first_line (location : string) :
  exists rest,
    location = (safeLocation location ++ rest)%string /\
    (forall c, In c (list_ascii_of_string (safeLocation location)) ->
               is_line_break c = false) /\
    match rest with
    | EmptyString => True
    | String c _ => is_line_break c = true
    end /\
    safeLocation (safeLocation location) = safeLocation location.
Proof.
  rewrite safeLocation_idempotent. unfold safeLocation.
  destruct (split_lines_first location)
    as (l & ls & rest & Hs & Heq & Hclean & Hrest).
  rewrite Hs. exists rest. split; [exact Heq|]. split; [exact Hclean|].
  split; [now destruct rest|reflexivity].
Qed.

Section RedirectFacts.

Variable C : Compressor.
Variable htmlEscape : string -> string.
Variable urlProtocol : string -> string.
Variable urlComplete : string -> string -> string.
Variable rootPath : Request -> string.
Variable baseUri : Request -> string.
Variable MovedPermanently MovedTemporarily : Z.

Let permanently :=
  setMovedPermanently (C:=C) htmlEscape urlProtocol urlComplete rootPath
                      baseUri MovedPermanently.
Let temporarily :=
  setMovedTemporarily (C:=C) htmlEscape urlProtocol urlComplete rootPath
                      baseUri MovedTemporarily.

(** Both redirects answer with their status code, a Location header that
    holds the completed URI, and an HTML body that is the escaped URI; a
    location without a protocol goes under the root path of the request,
    cut at its first line break, and a location with a protocol is taken
    whole. *)
Theorem redirect_response (request : Request) (location : string)
    (r : Response C) :
  let path :=
    if is_empty (urlProtocol location)
    then (rootPath request ++ "/" ++ safeLocation location)%string
    else location in
  let uri := urlComplete (baseUri request) path in
  (statusCode_ (permanently request location r) = MovedPermanently /\
   headerValue "Location" (headers_ (permanently request location r)) = uri /\
   body_ (permanently request location r) = htmlEscape uri /\
   headerValue "Content-Type" (headers_ (permanently request location r))
     = "text/html"%string) /\
  (statusCode_ (temporarily request location r) = MovedTemporarily /\
   headerValue "Location" (headers_ (temporarily request location r)) = uri /\
   body_ (temporarily request location r) = htmlEscape uri /\
   headerValue "Content-Type" (headers_ (temporarily request location r))
     = "text/html"%string).
Proof.
  intros path uri.
  assert (Hpath : (if negb (is_empty (urlProtocol location)) then location
                   else (rootPath request ++ "/" ++ safeLocation location)%string)
                  = path).
  { subst path. now destruct (is_empty (urlProtocol location)). }
  assert (H : forall code,
            let r' := setHeader "Location" uri
                        (setError htmlEscape code uri r) in
            statusCode_ r' = code /\
            headerValue "Location" (headers_ r') = uri /\
            body_ r' = htmlEscape uri /\
            headerValue "Content-Type" (headers_ r') = "text/html"%string).
  { intros code r'. subst r'.
    split; [reflexivity|]. split; [apply headerValue_put_same|].
    split; [reflexivity|].
    unfold setError, setBodyUnencoded, setContentLength, setContentType,
      removeCachingHeaders, setHeader, removeHeader, with_headers, with_body,
      setStatusCode.
    cbn [headers_ body_ statusCode_ streamResponse_].
    rewrite !headerValue_put_other by reflexivity.
    rewrite headerValue_erase_other by reflexivity.
    apply headerValue_put_same. }
  unfold permanently, temporarily, setMovedPermanently, setMovedTemporarily.
  rewrite Hpath. fold uri. split; apply H.
Qed.

(** For a location without a protocol, nothing after its first line break
    reaches the response: the redirect to the location is the redirect to
    its first line. *)
Theorem redirect_ignores_what_follows_a_line_break (request : Request)
    (location : string) (r : Response C) :
  urlProtocol location = EmptyString ->
  urlProtocol (safeLocation location) = EmptyString ->
  permanently request location r
    = permanently request (safeLocation location) r /\
  temporarily request location r
    = temporarily request (safeLocation location) r.
Proof.
  intros Hp Hp'.
  unfold permanently, temporarily, setMovedPermanently, setMovedTemporarily.
  rewrite Hp, Hp', safeLocation_idempotent. now split.
Qed.

End RedirectFacts.

Lemma redirect_ignores_what_follows_a_line_break_witness :
  let request := Sample.gzipRequest in
  let location := String "a" (String "010" "Set-Cookie: x=1") in
  let r := Sample.emptyResponse Stored.codec in
  setMovedPermanently Sample.htmlEscape SampleUrl.urlProtocol
    SampleUrl.urlComplete SampleUrl.rootPath SampleUrl.baseUri
    SampleUrl.MovedPermanently request location r
  = setMovedPermanently Sample.htmlEscape SampleUrl.urlProtocol
      SampleUrl.urlComplete SampleUrl.rootPath SampleUrl.baseUri
      SampleUrl.MovedPermanently request "a" r /\
  setMovedTemporarily Sample.htmlEscape SampleUrl.urlProtocol
    SampleUrl.urlComplete SampleUrl.rootPath SampleUrl.baseUri
    SampleUrl.MovedTemporarily request location r
  = setMovedTemporarily Sample.htmlEscape SampleUrl.urlProtocol
      SampleUrl.urlComplete SampleUrl.rootPath SampleUrl.baseUri
      SampleUrl.MovedTemporarily request "a" r.
Proof.
  apply (@redirect_ignores_what_follows_a_line_break Stored.codec
           Sample.htmlEscape SampleUrl.urlProtocol SampleUrl.urlComplete
           SampleUrl.rootPath SampleUrl.baseUri SampleUrl.MovedPermanently
           SampleUrl.MovedTemporarily Sample.gzipRequest
           (String "a" (String "010" "Set-Cookie: x=1"))
           (Sample.emptyResponse Stored.codec)).
  - reflexivity.
  - reflexivity.
Defined.
